(** * Conversation Flow Engine of the template dashboard

    A shallow embedding of the flow editor found in the [Templates]
    component (template/graph synthesis, flow import and export,
    reconciliation with the template store, per-node deletion, the chat
    simulator, the template registry and the node editor), with the
    properties stated by the specification proved or refuted on it,
    followed by further properties read off the code.

    Conventions.
    - A JavaScript string is a Rocq [string] holding its UTF-8 bytes.
    - A React state cell is a record field; a handler is a function from
      the state it reads to the state it leaves, together with the
      [alert]s it shows.  Functional updaters ([setX(prev => ...)]) run in
      program order.
    - [Date.now()] is an explicit argument.
    - Calls that leave the component (the template store) are answered by
      an oracle given as an argument.
    - Functions of the host that are used on free text and are not
      written out here ([JSON.parse], and [toLowerCase] in the simulator)
      are arguments too. *)

From Stdlib Require Import ZArith List String Ascii Bool Lia DecimalString.
From stdpp Require Import base list strings.

(** ** ECMAScript primitives *)

Module Js.

(** [Number.prototype.toString] on an integral number. *)
Definition numToString (z : Z) : string := NilZero.string_of_int (Z.to_int z).

Definition isUpperAscii (c : ascii) : bool :=
  let n := nat_of_ascii c in (65 <=? n) && (n <=? 90).

(** Second byte of the UTF-8 form of U+00C0..U+00DE, U+00D7 excepted. *)
Definition isUpperLatin1 (c : ascii) : bool :=
  let n := nat_of_ascii c in (128 <=? n) && (n <=? 158) && negb (n =? 151).

Definition shiftCase (c : ascii) : ascii := ascii_of_nat (nat_of_ascii c + 32).

(** [String.prototype.toLowerCase] as the synthesizer needs it: the
    letters of Basic Latin and of the Latin-1 Supplement are lowered and
    every other byte is kept.  The synthesizer only asks whether the
    lowered text is one of its fixed words, all written in letters that
    nothing but these capitals is lowered to, so the answer is the one the
    code computes.  The simulator, which lowers and compares free text,
    takes the function of the host as a parameter instead. *)
Fixpoint toLowerCase (s : string) : string :=
  match s with
  | EmptyString => EmptyString
  | String c rest =>
      if (nat_of_ascii c =? 195) then
        match rest with
        | EmptyString => String c EmptyString
        | String d rest' =>
            String c (String (if isUpperLatin1 d then shiftCase d else d)
                             (toLowerCase rest'))
        end
      else String (if isUpperAscii c then shiftCase c else c) (toLowerCase rest)
  end.

(** The code points stripped by [trim]: those of the productions
    WhiteSpace and LineTerminator of ECMAScript, that is U+0009 to U+000D,
    U+0020, U+00A0, U+1680, U+2000 to U+200A, U+2028, U+2029, U+202F,
    U+205F, U+3000 and U+FEFF, each in its UTF-8 form. *)
Definition isAsciiWhiteSpace (a : ascii) : bool :=
  let n := nat_of_ascii a in ((9 <=? n) && (n <=? 13)) || (n =? 32).

(** U+00A0 is C2 A0. *)
Definition isTwoByteWhiteSpace (a b : ascii) : bool :=
  (nat_of_ascii a =? 194) && (nat_of_ascii b =? 160).

(** U+1680 is E1 9A 80; U+2000 to U+200A are E2 80 80 to E2 80 8A; U+2028,
    U+2029 and U+202F are E2 80 A8, E2 80 A9 and E2 80 AF; U+205F is
    E2 81 9F; U+3000 is E3 80 80; U+FEFF is EF BB BF. *)
Definition isThreeByteWhiteSpace (a b c : ascii) : bool :=
  let x := nat_of_ascii a in
  let y := nat_of_ascii b in
  let z := nat_of_ascii c in
  ((x =? 225) && (y =? 154) && (z =? 128))
  || ((x =? 226) && (y =? 128)
      && (((128 <=? z) && (z <=? 138)) || (z =? 168) || (z =? 169) || (z =? 175)))
  || ((x =? 226) && (y =? 129) && (z =? 159))
  || ((x =? 227) && (y =? 128) && (z =? 128))
  || ((x =? 239) && (y =? 187) && (z =? 191)).

(** The number of bytes of the white-space code point that [s] starts
    with; 0 when it starts with none. *)
Definition whiteSpaceBytes (s : string) : nat :=
  match s with
  | String a rest =>
      if isAsciiWhiteSpace a then 1
      else
        match rest with
        | String b rest' =>
            if isTwoByteWhiteSpace a b then 2
            else
              match rest' with
              | String c _ => if isThreeByteWhiteSpace a b c then 3 else 0
              | EmptyString => 0
              end
        | EmptyString => 0
        end
  | EmptyString => 0
  end.

(** [trimStart], with [skip] bytes of a white-space code point still to be
    passed over. *)
Fixpoint trimStartFrom (skip : nat) (s : string) : string :=
  match s with
  | EmptyString => EmptyString
  | String _ rest =>
      match skip with
      | S k => trimStartFrom k rest
      | O =>
          match whiteSpaceBytes s with
          | O => s
          | S k => trimStartFrom k rest
          end
      end
  end.

Definition trimStart (s : string) : string := trimStartFrom 0 s.

(** Nothing but white space. *)
Definition isBlank (s : string) : bool := String.eqb (trimStart s) "".

(** [trimEnd]: the text is kept up to the first place from which nothing
    but white space follows. *)
Fixpoint trimEnd (s : string) : string :=
  match s with
  | EmptyString => EmptyString
  | String c rest => if isBlank s then EmptyString else String c (trimEnd rest)
  end.

(** [String.prototype.trim]. *)
Definition trim (s : string) : string := trimEnd (trimStart s).

(** A string is truthy when it is not empty. *)
Definition truthy (s : string) : bool := negb (String.eqb s "").

(** [s.startsWith(p)]. *)
Fixpoint startsWith (s p : string) {struct p} : bool :=
  match p with
  | EmptyString => true
  | String a p' =>
      match s with
      | EmptyString => false
      | String b s' => Ascii.eqb a b && startsWith s' p'
      end
  end.

(** [s.includes(sub)] on strings: [sub] occurs somewhere in [s]. *)
Fixpoint includes (s sub : string) : bool :=
  startsWith s sub ||
  match s with
  | EmptyString => false
  | String _ rest => includes rest sub
  end.

Fixpoint dropChars (n : nat) (s : string) : string :=
  match n with
  | O => s
  | S n' => match s with EmptyString => EmptyString | String _ rest => dropChars n' rest end
  end.

(** [s.replace(pat, rep)] with a string pattern: only the first
    occurrence, wherever it stands, is replaced. *)
Fixpoint replaceFirst (pat rep s : string) : string :=
  if startsWith s pat then rep +:+ dropChars (String.length pat) s
  else match s with
       | EmptyString => EmptyString
       | String c rest => String c (replaceFirst pat rep rest)
       end.

(** [s.replace(/{name}/g, rep)]: a left-to-right scan replacing every
    occurrence of the six characters [{name}]. *)
Fixpoint replaceNameAll (rep s : string) : string :=
  match s with
  | String "{" (String "n" (String "a" (String "m" (String "e" (String "}" rest))))) =>
      rep +:+ replaceNameAll rep rest
  | String c rest => String c (replaceNameAll rep rest)
  | EmptyString => EmptyString
  end.

(** [s.split('-')] followed by taking the last part. *)
Fixpoint lastDashPart (s : string) : string :=
  match s with
  | EmptyString => EmptyString
  | String c rest =>
      if includes rest "-" then lastDashPart rest
      else if Ascii.eqb c "-" then rest else s
  end.

(** [arr.includes(x)] on an array of strings. *)
Definition arrIncludes (arr : list string) (x : string) : bool :=
  existsb (String.eqb x) arr.

(** [a || b] where [a] is an optional string: [undefined] and [''] are falsy. *)
Definition orElse (a : option string) (b : string) : string :=
  match a with
  | Some s => if truthy s then s else b
  | None => b
  end.

Definition digitValue (c : ascii) : option Z :=
  let n := nat_of_ascii c in
  if (48 <=? n) && (n <=? 57) then Some (Z.of_nat (n - 48)) else None.

Fixpoint parseDigits (acc : Z) (s : string) : Z :=
  match s with
  | EmptyString => acc
  | String c rest =>
      match digitValue c with
      | Some d => parseDigits (10 * acc + d)%Z rest
      | None => acc
      end
  end.

(** [parseInt(s)] for a string that starts with a decimal digit, which is
    what every call site passes (one of the strings 0 to 5). *)
Definition parseInt (s : string) : Z := parseDigits 0%Z s.

Fixpoint insertStable {A : Type} (cmp : A -> A -> Z) (x : A) (l : list A) : list A :=
  match l with
  | [] => [x]
  | y :: rest => if (cmp x y <=? 0)%Z then x :: l else y :: insertStable cmp x rest
  end.

(** [Array.prototype.sort(cmp)]: the sort is stable, so for a comparator
    induced by a numeric key its result is the one ordering computed here
    by insertion from the right. *)
Definition sort {A : Type} (cmp : A -> A -> Z) (l : list A) : list A :=
  foldr (insertStable cmp) [] l.

End Js.

(** ** Data model *)

Record AutoTemplate := {
  tpl_id : string;
  trigger : list string;
  response : string;
  active : bool
}.

Inductive NodeType :=
  NodeStart | NodeMessage | NodeCondition | NodeOptions | NodeHuman | NodeEnd.

Definition NodeType_eqb (a b : NodeType) : bool :=
  match a, b with
  | NodeStart, NodeStart | NodeMessage, NodeMessage
  | NodeCondition, NodeCondition | NodeOptions, NodeOptions
  | NodeHuman, NodeHuman | NodeEnd, NodeEnd => true
  | _, _ => false
  end.

Record Position := { pos_x : Z; pos_y : Z }.

Record NodeCondition_ := { cond_field : string; cond_operator : string; cond_value : string }.
Record NodeOption_ := { opt_id : string; opt_label : string; opt_value : string }.

(** [FlowNode.data]; an absent optional field is [None]. *)
Record NodeData := {
  title : string;
  description : option string;
  triggers : option (list string);
  data_response : option string;
  conditions : option (list NodeCondition_);
  data_options : option (list NodeOption_);
  data_active : option bool
}.

Record FlowNode := {
  node_id : string;
  node_type : NodeType;
  position : Position;
  data : NodeData;
  connections_of : list string
}.

Record FlowConnection := {
  conn_id : string;
  source : string;
  target : string;
  sourceHandle : option string;
  targetHandle : option string
}.

(** The part of [FlowState] that the modelled handlers read or write; the
    drag, zoom and pan fields are carried over untouched by every update
    ([...prev]) and are left out. *)
Record FlowState := {
  nodes : list FlowNode;
  connections : list FlowConnection;
  selectedNode : option string
}.

Inductive MessageType := UserMsg | BotMsg.

Record ChatMessage := {
  msg_id : string;
  msg_type : MessageType;
  content : string;
  timestamp : Z;
  nodeId : option string
}.

Record SimulationState := {
  isActive : bool;
  currentNodeId : option string;
  chatHistory : list ChatMessage;
  awaitingInput : bool
}.

(** The state cells of the chat simulator panel. *)
Record ChatPanel := {
  simulationState : SimulationState;
  userInput : string;
  showChatSimulator : bool
}.

(** What a handler leaves behind: the next state and the alerts shown. *)
Record Handled (S : Type) := { next : S; alerts : list string }.
Arguments next {S} _.
Arguments alerts {S} _.

Definition quiet {S : Type} (s : S) : Handled S := {| next := s; alerts := [] |}.

(** ** Dialogue simulator *)

(** The fixed texts of the simulator. *)
Definition greetingText : string :=
  "👋 Olá! Bem-vindo ao nosso atendimento. Como posso ajudá-lo?".
Definition dquote : string := String (ascii_of_nat 34) EmptyString.
Definition fallbackText : string :=
  "🤔 Desculpe, não entendi sua mensagem. Você pode tentar novamente ou digitar "
  +:+ dquote +:+ "menu" +:+ dquote +:+ " para ver as opções disponíveis.".
Definition simulatedName : string := "Usuário".
Definition noStartNodeAlert : string := "Nenhum nó de início encontrado no fluxo!".

Definition initialSimulation : SimulationState :=
  {| isActive := false; currentNodeId := None; chatHistory := []; awaitingInput := false |}.

Definition initialPanel : ChatPanel :=
  {| simulationState := initialSimulation; userInput := ""; showChatSimulator := false |}.

Definition setUserInput (text : string) (p : ChatPanel) : ChatPanel :=
  {| simulationState := simulationState p; userInput := text;
     showChatSimulator := showChatSimulator p |}.

Definition startChatSimulation (flowNodes : list FlowNode) (now : Z) (p : ChatPanel)
  : Handled ChatPanel :=
  match List.find (fun node => NodeType_eqb (node_type node) NodeStart) flowNodes with
  | None => {| next := p; alerts := [noStartNodeAlert] |}
  | Some startNode =>
      quiet
        {| simulationState :=
             {| isActive := true;
                currentNodeId := Some (node_id startNode);
                chatHistory :=
                  [ {| msg_id := Js.numToString now; msg_type := BotMsg;
                       content := greetingText; timestamp := now; nodeId := None |} ];
                awaitingInput := true |};
           userInput := userInput p;
           showChatSimulator := true |}
  end.

Definition stopChatSimulation (p : ChatPanel) : ChatPanel :=
  {| simulationState :=
       {| isActive := false; currentNodeId := None; chatHistory := [];
          awaitingInput := false |};
     userInput := "";
     showChatSimulator := false |}.

Section Matching.

(** [String.prototype.toLowerCase], the case conversion of the host, which
    covers every script. *)
Variable toLowerCase : string -> string.

(** The callback of [currentTemplates.find] in [sendUserMessage]. *)
Definition templateMatches (input : string) (template : AutoTemplate) : bool :=
  active template &&
  existsb (fun trg => Js.includes (toLowerCase input) (toLowerCase trg))
          (trigger template).

(** The reply armed by [setTimeout]: it closes over [matchingTemplate]. *)
Record PendingReply := { matchingTemplate : option AutoTemplate }.

Record Sent := { panel : ChatPanel; timer : option PendingReply }.

(** [sendUserMessage], up to the point where the timer is armed.
    [currentTemplates] is the value of [getCurrentTemplates()]. *)
Definition sendUserMessage (currentTemplates : list AutoTemplate) (now : Z)
  (p : ChatPanel) : Handled Sent :=
  let sim := simulationState p in
  if negb (Js.truthy (Js.trim (userInput p))) || negb (isActive sim) then
    quiet {| panel := p; timer := None |}
  else
    let userMessage :=
      {| msg_id := Js.numToString now; msg_type := UserMsg;
         content := Js.trim (userInput p); timestamp := now; nodeId := None |} in
    let sim' :=
      {| isActive := isActive sim; currentNodeId := currentNodeId sim;
         chatHistory := chatHistory sim ++ [userMessage];
         awaitingInput := false |} in
    let found := List.find (templateMatches (userInput p)) currentTemplates in
    quiet {| panel := {| simulationState := sim'; userInput := "";
                         showChatSimulator := showChatSimulator p |};
             timer := Some {| matchingTemplate := found |} |}.

(** The timer callback of [sendUserMessage], run one second later. *)
Definition deliverReply (r : PendingReply) (now : Z) (prev : SimulationState)
  : SimulationState :=
  match matchingTemplate r with
  | Some tpl =>
      let botMessage :=
        {| msg_id := Js.numToString (now + 1); msg_type := BotMsg;
           content := Js.replaceNameAll simulatedName (response tpl);
           timestamp := now; nodeId := Some (tpl_id tpl) |} in
      {| isActive := isActive prev;
         currentNodeId := Some ("template-" +:+ tpl_id tpl);
         chatHistory := chatHistory prev ++ [botMessage];
         awaitingInput := true |}
  | None =>
      let botMessage :=
        {| msg_id := Js.numToString (now + 1); msg_type := BotMsg;
           content := fallbackText; timestamp := now; nodeId := None |} in
      {| isActive := isActive prev;
         currentNodeId := currentNodeId prev;
         chatHistory := chatHistory prev ++ [botMessage];
         awaitingInput := true |}
  end.

Definition fireTimer (s : Sent) (now : Z) : ChatPanel :=
  match timer s with
  | None => panel s
  | Some r =>
      {| simulationState := deliverReply r now (simulationState (panel s));
         userInput := userInput (panel s);
         showChatSimulator := showChatSimulator (panel s) |}
  end.

(** One whole turn: the text is typed, sent at [sentAt], and the pending
    reply (if any) is delivered at [repliedAt] with nothing in between. *)
Definition submit (currentTemplates : list AutoTemplate) (sentAt repliedAt : Z)
  (text : string) (p : ChatPanel) : Handled ChatPanel :=
  let h := sendUserMessage currentTemplates sentAt (setUserInput text p) in
  {| next := fireTimer (next h) repliedAt; alerts := alerts h |}.

End Matching.

(** The states of the specification, read off the two flags. *)
Definition AwaitingInput (s : SimulationState) : Prop :=
  isActive s = true /\ awaitingInput s = true.

(** ** Synthesis: template list to graph *)

(** What [convertTemplatesToFlow] and [convertCodeToFlow] return. *)
Record Flow := { flow_nodes : list FlowNode; flow_connections : list FlowConnection }.

Definition greetingWords : list string :=
  ["oi"; "olá"; "menu"; "dia"; "tarde"; "noite"; "bom dia"; "boa tarde"; "boa noite"].
Definition menuDigits : list string := ["1"; "2"; "3"; "4"; "5"].

(** [tpl.trigger.some(t => words.includes(t.toLowerCase()))]. *)
Definition someTriggerIn (words : list string) (tpl : AutoTemplate) : bool :=
  existsb (fun t => Js.arrIncludes words (Js.toLowerCase t)) (trigger tpl).

Definition isGreeting (tpl : AutoTemplate) : bool := someTriggerIn greetingWords tpl.

Definition hasMenuDigit (tpl : AutoTemplate) : bool :=
  existsb (fun t => Js.arrIncludes menuDigits t) (trigger tpl).

Definition isMenuOption (tpl : AutoTemplate) : bool :=
  hasMenuDigit tpl && negb (isGreeting tpl).

Definition optionDigit (tpl : AutoTemplate) : option string :=
  List.find (fun t => Js.arrIncludes menuDigits t) (trigger tpl).

Definition menuNumber (tpl : AutoTemplate) : Z :=
  Js.parseInt (Js.orElse (optionDigit tpl) "0").

Definition byMenuNumber (a b : AutoTemplate) : Z := (menuNumber a - menuNumber b)%Z.

Definition menuOptionsOf (templates : list AutoTemplate) : list AutoTemplate :=
  Js.sort byMenuNumber (List.filter isMenuOption templates).

Definition isSpecial (tpl : AutoTemplate) : bool :=
  existsb (fun t => Js.includes t "CIDADE_" || Js.includes t "_DISPONIVEL"
                    || Js.includes t "_NAO_DISPONIVEL") (trigger tpl).

Definition templateNodeId (tpl : AutoTemplate) : string := "template-" +:+ tpl_id tpl.

Definition templateData (nodeTitle : string) (tpl : AutoTemplate) : NodeData :=
  {| title := nodeTitle; description := None;
     triggers := Some (trigger tpl); data_response := Some (response tpl);
     conditions := None; data_options := None;
     data_active := Some (active tpl) |}.

Definition plainData (nodeTitle nodeDescription : string) : NodeData :=
  {| title := nodeTitle; description := Some nodeDescription;
     triggers := None; data_response := None;
     conditions := None; data_options := None; data_active := None |}.

Definition startNode : FlowNode :=
  {| node_id := "start-1"; node_type := NodeStart;
     position := {| pos_x := 50; pos_y := 50 |};
     data := plainData "Início" "Usuário inicia conversa";
     connections_of := [] |}.

Definition endNode : FlowNode :=
  {| node_id := "end-1"; node_type := NodeEnd;
     position := {| pos_x := 650; pos_y := 250 |};
     data := plainData "Fim" "Conversa finalizada";
     connections_of := [] |}.

Definition welcomeNodeOf (welcomeTpl : AutoTemplate) : FlowNode :=
  {| node_id := templateNodeId welcomeTpl; node_type := NodeMessage;
     position := {| pos_x := 50; pos_y := 150 |};
     data := templateData "Boas-vindas" welcomeTpl;
     connections_of := [] |}.

Definition optionTitle (option : AutoTemplate) : string :=
  let optionNumber :=
    match optionDigit option with Some d => d | None => "undefined" end in
  if someTriggerIn ["comprar"; "passagem"; "bilhete"] option
  then "Opção " +:+ optionNumber +:+ " - Comprar Passagem"
  else if someTriggerIn ["horários"; "horario"; "hora"] option
  then "Opção " +:+ optionNumber +:+ " - Ver Horários"
  else if someTriggerIn ["operador"; "atendente"; "humano"; "pessoa"] option
  then "Opção " +:+ optionNumber +:+ " - Falar com Operador"
  else "Opção " +:+ optionNumber.

Definition optionNodeOf (index : nat) (option : AutoTemplate) : FlowNode :=
  {| node_id := templateNodeId option; node_type := NodeMessage;
     position := {| pos_x := 300 + Z.of_nat (index mod 3) * 200;
                    pos_y := 100 + Z.of_nat (index / 3) * 120 |};
     data := templateData (optionTitle option) option;
     connections_of := [] |}.

Definition specialTitle (template : AutoTemplate) : string :=
  if existsb (fun t => Js.includes t "CIDADE_DISPONIVEL") (trigger template)
  then "Cidade Disponível"
  else if existsb (fun t => Js.includes t "CIDADE_NAO_DISPONIVEL") (trigger template)
  then "Cidade Não Disponível"
  else "Template Especial".

Definition specialNodeOf (index : nat) (template : AutoTemplate) : FlowNode :=
  {| node_id := templateNodeId template; node_type := NodeCondition;
     position := {| pos_x := 50 + Z.of_nat index * 250; pos_y := 400 |};
     data := templateData (specialTitle template) template;
     connections_of := [] |}.

Definition mkConnection (src tgt : string) : FlowConnection :=
  {| conn_id := src +:+ "-" +:+ tgt; source := src; target := tgt;
     sourceHandle := None; targetHandle := None |}.

(** [node.connections.push(tgt)]. *)
Definition pushTarget (tgt : string) (n : FlowNode) : FlowNode :=
  {| node_id := node_id n; node_type := node_type n; position := position n;
     data := data n; connections_of := connections_of n ++ [tgt] |}.

Definition pushNode (n : FlowNode) (f : Flow) : Flow :=
  {| flow_nodes := flow_nodes f ++ [n]; flow_connections := flow_connections f |}.

Definition pushConnection (c : FlowConnection) (f : Flow) : Flow :=
  {| flow_nodes := flow_nodes f; flow_connections := flow_connections f ++ [c] |}.

(** A node object is shared between the [nodes] array and the local
    variable naming it; mutating it through the variable is an update of
    the array at the index where the object sits. *)
Definition mutateAt (i : nat) (g : FlowNode -> FlowNode) (f : Flow) : Flow :=
  {| flow_nodes := alter g i (flow_nodes f); flow_connections := flow_connections f |}.

(** [nodes.findIndex(n => n.id === wanted)] and [nodes.find(...)]. *)
Definition findNode (wanted : string) (l : list FlowNode) : option (nat * FlowNode) :=
  list_find (fun n => node_id n = wanted) l.

(** Index of [startNode] and of [welcomeNode] in [nodes]. *)
Definition startIndex : nat := 0.
Definition welcomeIndex : nat := 1.

Definition addWelcome (welcomeTpl : option AutoTemplate) (f : Flow) : Flow :=
  match welcomeTpl with
  | None => f
  | Some w =>
      let welcomeNode := welcomeNodeOf w in
      mutateAt startIndex (pushTarget (node_id welcomeNode))
        (pushConnection (mkConnection (node_id startNode) (node_id welcomeNode))
           (pushNode welcomeNode f))
  end.

(** The body of [menuOptions.forEach((option, index) => ...)]. *)
Definition addOption (welcomeTpl : option AutoTemplate) (index : nat)
  (option : AutoTemplate) (f : Flow) : Flow :=
  let optionNode := optionNodeOf index option in
  let f1 := pushNode optionNode f in
  match welcomeTpl with
  | None => f1
  | Some w =>
      mutateAt welcomeIndex (pushTarget (node_id optionNode))
        (pushConnection (mkConnection (templateNodeId w) (node_id optionNode)) f1)
  end.

(** [arr.forEach((x, index) => body)] threading the state [f]. *)
Fixpoint forEachIndexed {A St : Type} (body : nat -> A -> St -> St) (index : nat)
  (arr : list A) (f : St) : St :=
  match arr with
  | [] => f
  | x :: rest => forEachIndexed body (S index) rest (body index x f)
  end.

Definition isComprarOption (opt : AutoTemplate) : bool :=
  someTriggerIn ["comprar"; "passagem"; "1"] opt.

(** The body of [specialTemplates.forEach((template, index) => ...)]. *)
Definition addSpecial (menuOptions : list AutoTemplate) (index : nat)
  (template : AutoTemplate) (f : Flow) : Flow :=
  let specialNode := specialNodeOf index template in
  let f1 := pushNode specialNode f in
  match List.find isComprarOption menuOptions with
  | None => f1
  | Some comprarOption =>
      let comprarNodeId := templateNodeId comprarOption in
      let f2 := pushConnection (mkConnection comprarNodeId (node_id specialNode)) f1 in
      match findNode comprarNodeId (flow_nodes f2) with
      | Some (i, _) => mutateAt i (pushTarget (node_id specialNode)) f2
      | None => f2
      end
  end.

Definition isHumanOption (tpl : AutoTemplate) : bool :=
  someTriggerIn ["3"; "operador"; "atendente"; "humano"; "pessoa"] tpl.

Definition toHuman (n : FlowNode) : FlowNode :=
  {| node_id := node_id n; node_type := NodeHuman;
     position := {| pos_x := 50; pos_y := 300 |};
     data := {| title := "Atendimento Humano";
                description := description (data n);
                triggers := triggers (data n);
                data_response := data_response (data n);
                conditions := conditions (data n);
                data_options := data_options (data n);
                data_active := data_active (data n) |};
     connections_of := connections_of n |}.

Definition retypeHuman (menuOptions : list AutoTemplate) (f : Flow) : Flow :=
  match List.find isHumanOption menuOptions with
  | None => f
  | Some humanTpl =>
      match findNode (templateNodeId humanTpl) (flow_nodes f) with
      | Some (humanNodeIndex, _) => mutateAt humanNodeIndex toHuman f
      | None => f
      end
  end.

Definition isLeaf (node : FlowNode) : bool :=
  (length (connections_of node) =? 0)
  && negb (String.eqb (node_id node) (node_id endNode))
  && negb (String.eqb (node_id node) (node_id startNode))
  && negb (NodeType_eqb (node_type node) NodeHuman).

(** The body of the closing [nodes.forEach(node => ...)]; [i] is the
    index of [node]. *)
Definition connectLeaf (i : nat) (node : FlowNode) (f : Flow) : Flow :=
  if isLeaf node then
    mutateAt i (pushTarget (node_id endNode))
      (pushConnection (mkConnection (node_id node) (node_id endNode)) f)
  else f.

Definition connectLeaves (f : Flow) : Flow :=
  forEachIndexed connectLeaf 0 (flow_nodes f) f.

Definition convertTemplatesToFlow (templates : list AutoTemplate) : Flow :=
  let f0 := {| flow_nodes := [startNode]; flow_connections := [] |} in
  let welcomeTpl := List.find isGreeting templates in
  let f1 := addWelcome welcomeTpl f0 in
  let menuOptions := menuOptionsOf templates in
  let f2 := forEachIndexed (addOption welcomeTpl) 0 menuOptions f1 in
  let specialTemplates := List.filter isSpecial templates in
  let f3 := forEachIndexed (addSpecial menuOptions) 0 specialTemplates f2 in
  let f4 := retypeHuman menuOptions f3 in
  let f5 := pushNode endNode f4 in
  connectLeaves f5.

(** ** Flow documents: import *)

(** A value produced by [JSON.parse].  Object members are kept in document
    order; reading a key sees its last binding, as the parser keeps the
    last of duplicated keys.  Numbers are the integral ones. *)
#[local] Set Warnings "-register-all".
Inductive Json :=
| JNull
| JBool (b : bool)
| JNumber (z : Z)
| JString (s : string)
| JArray (items : list Json)
| JObject (members : list (string * Json)).

(** Exceptions raised inside the [try] block of [convertCodeToFlow]. *)
Inductive Exn := SyntaxError | TypeError | Error (message : string).

(** A computation that may throw. *)
Definition Try (A : Type) : Type := Exn + A.
Definition throw {A : Type} (e : Exn) : Try A := inl e.
#[global] Instance Try_ret : MRet Try := fun A a => inr a.
#[global] Instance Try_bind : MBind Try := fun A B k m =>
  match m with inl e => inl e | inr a => k a end.

Fixpoint mapTry {A B : Type} (f : A -> Try B) (l : list A) : Try (list B) :=
  match l with
  | [] => mret []
  | x :: rest => y ← f x; ys ← mapTry f rest; mret (y :: ys)
  end.

Fixpoint lastBinding (key : string) (members : list (string * Json)) : option Json :=
  match members with
  | [] => None
  | (k, v) :: rest =>
      match lastBinding key rest with
      | Some later => Some later
      | None => if String.eqb k key then Some v else None
      end
  end.

(** [v.key] for one of the keys read by the importer: a [TypeError] on
    [null], [undefined] ([None]) on every value that is not an object. *)
Definition getProp (v : Json) (key : string) : Try (option Json) :=
  match v with
  | JNull => throw TypeError
  | JObject members => mret (lastBinding key members)
  | _ => mret None
  end.

(** Truthiness of a possibly undefined value. *)
Definition jsTruthy (v : option Json) : bool :=
  match v with
  | None | Some JNull => false
  | Some (JBool b) => b
  | Some (JNumber z) => negb (z =? 0)%Z
  | Some (JString s) => Js.truthy s
  | Some (JArray _) | Some (JObject _) => true
  end.

Definition isArray (v : option Json) : bool :=
  match v with Some (JArray _) => true | _ => false end.

(** [v || fallback]. *)
Definition orJson (v : option Json) (fallback : Json) : Json :=
  match v with
  | Some x => if jsTruthy v then x else fallback
  | None => fallback
  end.

(** The objects built by [convertCodeToFlow]: their fields hold whatever
    the document holds, no shape is checked. *)
Record ImportedNode := {
  in_id : Json;
  in_type : Json;
  in_position : Json;
  in_data : Json;
  in_connections : Json
}.

Record ImportedConnection := {
  ic_id : Json;
  ic_source : option Json;
  ic_target : option Json;
  ic_sourceHandle : option Json;
  ic_targetHandle : option Json
}.

Record ImportedFlow := {
  imported_nodes : list ImportedNode;
  imported_connections : list ImportedConnection
}.

Definition nodesFormatError : string :=
  "Formato inválido: propriedade " +:+ dquote +:+ "nodes" +:+ dquote
  +:+ " não encontrada ou não é um array".
Definition connectionsFormatError : string :=
  "Formato inválido: propriedade " +:+ dquote +:+ "connections" +:+ dquote
  +:+ " não encontrada ou não é um array".
Definition importedAlert : string := "Fluxo importado com sucesso!".
Definition importErrorAlert : string :=
  "Erro ao importar fluxo. Verifique se o arquivo é um JSON válido.".

Definition importNode (now : Z) (node : Json) : Try ImportedNode :=
  id ← getProp node "id";
  type ← getProp node "type";
  pos ← getProp node "position";
  dat ← getProp node "data";
  conns ← getProp node "connections";
  mret {| in_id := orJson id (JString ("node-" +:+ Js.numToString now));
         in_type := orJson type (JString "message");
         in_position := orJson pos (JObject [("x", JNumber 0); ("y", JNumber 0)]);
         in_data := orJson dat (JObject [("title", JString "Novo Nó")]);
         in_connections := orJson conns (JArray []) |}.

Definition importConnection (now : Z) (conn : Json) : Try ImportedConnection :=
  id ← getProp conn "id";
  src ← getProp conn "source";
  tgt ← getProp conn "target";
  sh ← getProp conn "sourceHandle";
  th ← getProp conn "targetHandle";
  mret {| ic_id := orJson id (JString ("conn-" +:+ Js.numToString now));
         ic_source := src; ic_target := tgt;
         ic_sourceHandle := sh; ic_targetHandle := th |}.

Definition arrayItems (v : option Json) : list Json :=
  match v with Some (JArray items) => items | _ => [] end.

(** What the editor holds after an import attempt: the flow it had, or
    that flow with its nodes and connections replaced by the imported
    arrays. *)
Inductive FlowAfterImport :=
| Unchanged (prev : FlowState)
| Replaced (prev : FlowState) (imported : ImportedFlow).

Section FlowImport.

(** [JSON.parse]: [None] when it throws a [SyntaxError]. *)
Variable JSON_parse : string -> option Json.

(** The [try] block of [convertCodeToFlow]. *)
Definition convertCodeToFlow_try (now : Z) (code : string) : Try ImportedFlow :=
  flowData ← match JSON_parse code with
              | Some v => mret v
              | None => throw SyntaxError
              end;
  nodesProp ← getProp flowData "nodes";
  _ ← (if negb (jsTruthy nodesProp) || negb (isArray nodesProp)
        then throw (Error nodesFormatError) else mret tt);
  connsProp ← getProp flowData "connections";
  _ ← (if negb (jsTruthy connsProp) || negb (isArray connsProp)
        then throw (Error connectionsFormatError) else mret tt);
  ns ← mapTry (importNode now) (arrayItems nodesProp);
  cs ← mapTry (importConnection now) (arrayItems connsProp);
  mret {| imported_nodes := ns; imported_connections := cs |}.

(** [convertCodeToFlow]: the [catch] turns every exception into [null]. *)
Definition convertCodeToFlow (now : Z) (code : string) : option ImportedFlow :=
  match convertCodeToFlow_try now code with
  | inr flow => Some flow
  | inl _ => None
  end.

(** The [reader.onload] callback of [importFlowCode], given the text of
    the chosen file. *)
Definition importFlowCode (now : Z) (code : string) (prev : FlowState)
  : Handled FlowAfterImport :=
  match convertCodeToFlow now code with
  | Some result => {| next := Replaced prev result; alerts := [importedAlert] |}
  | None => {| next := Unchanged prev; alerts := [importErrorAlert] |}
  end.

End FlowImport.

(** The examples of the specification, with the parser answering for them. *)
Definition parseAs (doc : Json) : string -> option Json := fun _ => Some doc.

(** ** Reconciliation with the template store *)

Record TemplateProject := {
  project_id : string;
  project_name : string;
  project_description : string;
  templates : list AutoTemplate;
  createdAt : string;
  project_isActive : bool;
  isDefault : option bool
}.

Definition noValidProjectAlert : string :=
  "⚠️ Nenhum projeto válido encontrado. Crie um projeto primeiro!".
Definition noProjectAlert : string :=
  "⚠️ Nenhum projeto disponível. Crie um projeto primeiro!".

(** The project whose templates are reconciled: the head of
    [convertFlowNodesToTemplates], up to the [try]. *)
Definition projectToUse (selectedProject : option string)
  (templateProjects : list TemplateProject) : string + string :=
  let chosen :=
    if match selectedProject with
       | None => true
       | Some sp => negb (Js.truthy sp) || String.eqb sp "default"
       end
    then match List.find (fun p => 0 <? length (templates p)) templateProjects with
         | Some defaultProject => inr (project_id defaultProject)
         | None => inl noValidProjectAlert
         end
    else inr (default "" selectedProject) in
  match chosen with
  | inl a => inl a
  | inr wanted =>
      match List.find (fun p => String.eqb (project_id p) wanted) templateProjects with
      | Some _ => inr wanted
      | None =>
          match templateProjects with
          | firstProject :: _ => inr (project_id firstProject)
          | [] => inl noProjectAlert
          end
      end
  end.

Definition existingTemplatesOf (project : string)
  (templateProjects : list TemplateProject) : list AutoTemplate :=
  match List.find (fun p => String.eqb (project_id p) project) templateProjects with
  | Some currentProject => templates currentProject
  | None => []
  end.

Definition isTemplateNode (node : FlowNode) : bool :=
  NodeType_eqb (node_type node) NodeMessage || NodeType_eqb (node_type node) NodeHuman.

(** The callback of [existingTemplates.find] in the loop. *)
Definition sameTemplate (node : FlowNode) (t : AutoTemplate) : bool :=
  String.eqb (tpl_id t) (Js.replaceFirst "template-" "" (node_id node))
  || match triggers (data node) with
     | Some nodeTriggers =>
         existsb (fun trg => Js.arrIncludes (trigger t) trg) nodeTriggers
     | None => false
     end.

(** [node.data.active !== false]. *)
Definition activeOf (node : FlowNode) : bool :=
  match data_active (data node) with Some false => false | _ => true end.

Definition updatedTemplateOf (node : FlowNode) (existingTemplate : AutoTemplate)
  : AutoTemplate :=
  {| tpl_id := tpl_id existingTemplate;
     trigger := default (trigger existingTemplate) (triggers (data node));
     response := Js.orElse (data_response (data node))
                   (Js.orElse (Some (title (data node))) (response existingTemplate));
     active := activeOf node |}.

Definition temporaryId (now : Z) (orderIndex : nat) : string :=
  "temp-" +:+ Js.numToString now +:+ "-" +:+ Js.numToString (Z.of_nat orderIndex).

Definition newTemplateOf (now : Z) (orderIndex : nat) (node : FlowNode) : AutoTemplate :=
  {| tpl_id := temporaryId now orderIndex;
     trigger := default ["default"] (triggers (data node));
     response := Js.orElse (data_response (data node))
                   (Js.orElse (Some (title (data node))) "Resposta padrão");
     active := activeOf node |}.

Definition withId (newId : string) (t : AutoTemplate) : AutoTemplate :=
  {| tpl_id := newId; trigger := trigger t; response := response t; active := active t |}.

(** A call of one of the store functions of the component
    ([updateAutoTemplateInDatabase], [createAutoTemplateInDatabase],
    [deleteAutoTemplateFromDatabase]).  Whether a request follows is
    decided inside the function: the update and the create function
    return or throw before any request when they find no auth token or an
    id (of the template, of the project) that is not a number, the delete
    function when it finds no auth token. *)
Inductive StoreCall :=
| CallUpdate (updatedTemplate : AutoTemplate)
| CallCreate (template : AutoTemplate) (project : string)
| CallDelete (templateId : string).

(** The loop state of [convertFlowNodesToTemplates]. *)
Record Reconciling (Store : Type) := {
  store : Store;
  calls : list StoreCall;
  newTemplates : list AutoTemplate;
  updatedTemplates : list AutoTemplate;
  orderIndex : nat;
  shown : list string
}.
Arguments store {Store} _.
Arguments calls {Store} _.
Arguments newTemplates {Store} _.
Arguments updatedTemplates {Store} _.
Arguments orderIndex {Store} _.
Arguments shown {Store} _.

(** The loop state on entry: nothing sent, nothing collected. *)
Definition startRun {Store : Type} (st : Store) : Reconciling Store :=
  {| store := st; calls := []; newTemplates := []; updatedTemplates := [];
     orderIndex := 0; shown := [] |}.

Definition createErrorAlert (nodeTitle message : string) : string :=
  "❌ Erro ao criar template " +:+ dquote +:+ nodeTitle +:+ dquote +:+ ": " +:+ message.

Section Reconciliation.

(** The store behind [updateAutoTemplateInDatabase] and
    [createAutoTemplateInDatabase].  An update resolves ([true]) or throws;
    a create throws with a message ([inl]) or resolves to the reply from
    which [newId] is read, [None] when the reply carries no usable id. *)
Variable Store : Type.
Variable updateAutoTemplateInDatabase : AutoTemplate -> Store -> Store * bool.
Variable createAutoTemplateInDatabase :
  AutoTemplate -> string -> Store -> Store * (string + option string).

(** One turn of [for (const node of nodes)]. *)
Definition reconcileNode (existingTemplates : list AutoTemplate) (project : string)
  (now : Z) (node : FlowNode) (r : Reconciling Store) : Reconciling Store :=
  if isTemplateNode node then
    match List.find (sameTemplate node) existingTemplates with
    | Some existingTemplate =>
        let updatedTemplate := updatedTemplateOf node existingTemplate in
        let '(st, ok) := updateAutoTemplateInDatabase updatedTemplate (store r) in
        {| store := st;
           calls := calls r ++ [CallUpdate updatedTemplate];
           newTemplates := newTemplates r;
           updatedTemplates :=
             if ok then updatedTemplates r ++ [updatedTemplate] else updatedTemplates r;
           orderIndex := orderIndex r;
           shown := shown r |}
    | None =>
        let template := newTemplateOf now (orderIndex r) node in
        let '(st, reply) := createAutoTemplateInDatabase template project (store r) in
        let calls' := calls r ++ [CallCreate template project] in
        match reply with
        | inr (Some newId) =>
            {| store := st; calls := calls';
               newTemplates := newTemplates r ++ [withId newId template];
               updatedTemplates := updatedTemplates r;
               orderIndex := S (orderIndex r);
               shown := shown r |}
        | inr None =>
            {| store := st; calls := calls';
               newTemplates :=
                 newTemplates r ++ [withId (temporaryId now (orderIndex r)) template];
               updatedTemplates := updatedTemplates r;
               orderIndex := S (orderIndex r);
               shown := shown r |}
        | inl message =>
            {| store := st; calls := calls';
               newTemplates := newTemplates r;
               updatedTemplates := updatedTemplates r;
               orderIndex := orderIndex r;
               shown := shown r ++ [createErrorAlert (title (data node)) message] |}
        end
    end
  else r.

Definition reconcileNodes (existingTemplates : list AutoTemplate) (project : string)
  (now : Z) (flowNodes : list FlowNode) (r : Reconciling Store) : Reconciling Store :=
  foldl (fun acc node => reconcileNode existingTemplates project now node acc)
        r flowNodes.

(** [convertFlowNodesToTemplates], up to the reload of the project that
    follows the loop. *)
Definition convertFlowNodesToTemplates (selectedProject : option string)
  (templateProjects : list TemplateProject) (now : Z) (st : Store)
  (flowNodes : list FlowNode) : Reconciling Store :=
  match projectToUse selectedProject templateProjects with
  | inl a => {| store := st; calls := []; newTemplates := []; updatedTemplates := [];
                orderIndex := 0; shown := [a] |}
  | inr project =>
      reconcileNodes (existingTemplatesOf project templateProjects) project now
        flowNodes (startRun st)
  end.

End Reconciliation.

(** The template carried by a call. *)
Definition templateOfCall (c : StoreCall) : option AutoTemplate :=
  match c with
  | CallUpdate t => Some t
  | CallCreate t _ => Some t
  | CallDelete _ => None
  end.

(** The flat template list a graph is turned into: the templates handed
    to the store, in node order. *)
Definition flattened {Store : Type} (r : Reconciling Store) : list AutoTemplate :=
  omap templateOfCall (calls r).

(** A store that accepts every request and numbers what it creates. *)
Definition acceptingUpdate (t : AutoTemplate) (n : nat) : nat * bool := (n, true).
Definition acceptingCreate (t : AutoTemplate) (project : string) (n : nat)
  : nat * (string + option string) :=
  (S n, inr (Some (Js.numToString (Z.of_nat n)))).

(** ** Per-node deletion *)

Definition removeNode (nodeId : string) (prev : FlowState) : FlowState :=
  {| nodes := List.filter (fun node => negb (String.eqb (node_id node) nodeId)) (nodes prev);
     connections :=
       List.filter (fun conn => negb (String.eqb (source conn) nodeId)
                                && negb (String.eqb (target conn) nodeId))
                   (connections prev);
     selectedNode :=
       match selectedNode prev with
       | Some sel => if String.eqb sel nodeId then None else Some sel
       | None => None
       end |}.

(** The rollback updater. *)
Definition restoreNode (nodeToDelete : FlowNode) (prev : FlowState) : FlowState :=
  {| nodes := nodes prev ++ [nodeToDelete];
     connections := connections prev;
     selectedNode := selectedNode prev |}.

Definition templateIdOfNode (nodeId : string) : string :=
  if Js.startsWith nodeId "template-" then Js.replaceFirst "template-" "" nodeId
  else if Js.includes nodeId "-" then Js.lastDashPart nodeId
  else nodeId.

(** [selectedProject && selectedProject !== 'default']. *)
Definition projectSelected (selectedProject : option string) : bool :=
  match selectedProject with
  | Some sp => Js.truthy sp && negb (String.eqb sp "default")
  | None => false
  end.

Definition deleteErrorAlert (message : string) : string :=
  "Erro ao excluir template do banco de dados: " +:+ message.

(** Where [deleteFlowNode] stands when it first yields: finished, or
    suspended on [await deleteAutoTemplateFromDatabase(templateId)] with
    the flow state it has already published. *)
Inductive Deleting :=
| Finished (st : FlowState)
| AwaitingStore (published : FlowState) (templateId : string) (nodeToDelete : FlowNode).

Section Deletion.

(** The test [!isNaN(Number(templateId)) && Number(templateId) > 0]. *)
Variable isPositiveNumber : string -> bool.

(** [deleteFlowNode] up to its first suspension. *)
Definition deleteFlowNode_begin (selectedProject : option string) (nodeId : string)
  (flowState : FlowState) : Deleting :=
  match List.find (fun node => String.eqb (node_id node) nodeId) (nodes flowState) with
  | None => Finished flowState
  | Some nodeToDelete =>
      let published := removeNode nodeId flowState in
      if projectSelected selectedProject then
        let templateId := templateIdOfNode nodeId in
        if isPositiveNumber templateId
        then AwaitingStore published templateId nodeToDelete
        else Finished published
      else Finished published
  end.

(** [deleteFlowNode] after the store has answered: [None] when the call
    resolved, [Some message] when it threw. *)
Definition deleteFlowNode_resume (nodeToDelete : FlowNode) (answer : option string)
  (prev : FlowState) : Handled FlowState :=
  match answer with
  | None => quiet prev
  | Some message =>
      {| next := restoreNode nodeToDelete prev; alerts := [deleteErrorAlert message] |}
  end.

(** The whole handler against a store that answers [deleteFromStore],
    with no other update of the flow state in between; the calls made to
    the store are returned with the state.  The reload of the project
    templates that follows a successful store call, and the synthesis it
    triggers, belong to other handlers. *)
Definition deleteFlowNode (deleteFromStore : string -> option string)
  (selectedProject : option string) (nodeId : string) (flowState : FlowState)
  : Handled FlowState * list StoreCall :=
  match deleteFlowNode_begin selectedProject nodeId flowState with
  | Finished st => (quiet st, [])
  | AwaitingStore published templateId nodeToDelete =>
      (deleteFlowNode_resume nodeToDelete (deleteFromStore templateId) published,
       [CallDelete templateId])
  end.

End Deletion.

(** The numeric test on strings of decimal digits, where it holds exactly
    when some digit is not zero.  It stands for the test in the examples
    only, all of them on digit strings: [Number] also reads other
    notations (an exponent, a hexadecimal prefix, blanks around), and the
    theorems take the test as a parameter. *)
Fixpoint allDigits (s : string) : bool :=
  match s with
  | EmptyString => true
  | String c rest =>
      match Js.digitValue c with Some _ => allDigits rest | None => false end
  end.
Definition decimalPositive (s : string) : bool :=
  allDigits s && (0 <? Js.parseInt s)%Z.

(** ** Vocabulary of the properties *)

(** *** Simulator *)

(** [sub] is a substring of [s]. *)
Definition occursIn (sub s : string) : Prop := exists a b, s = a +:+ sub +:+ b.

(** An active template one of whose triggers, lowered by the host, occurs
    in the user text so lowered. *)
Definition Matches (toLowerCase : string -> string) (text : string)
  (tpl : AutoTemplate) : Prop :=
  active tpl = true /\
  exists trg, In trg (trigger tpl) /\
              occursIn (toLowerCase trg) (toLowerCase text).

(** [tpl] is the first template of [l], in list order, that matches. *)
Definition FirstMatch (toLowerCase : string -> string) (text : string)
  (l : list AutoTemplate) (tpl : AutoTemplate) : Prop :=
  exists pre post, l = pre ++ tpl :: post /\
                   Forall (fun t => ~ Matches toLowerCase text t) pre
                   /\ Matches toLowerCase text tpl.

Definition userEntry (now : Z) (text : string) : ChatMessage :=
  {| msg_id := Js.numToString now; msg_type := UserMsg; content := Js.trim text;
     timestamp := now; nodeId := None |}.

Definition botEntry (now : Z) (text : string) (from : option string) : ChatMessage :=
  {| msg_id := Js.numToString (now + 1); msg_type := BotMsg; content := text;
     timestamp := now; nodeId := from |}.

(** The panel after one answered turn. *)
Definition answered (p : ChatPanel) (sentAt repliedAt : Z) (text reply : string)
  (from position : option string) : ChatPanel :=
  {| simulationState :=
       {| isActive := true;
          currentNodeId := position;
          chatHistory := chatHistory (simulationState p)
                         ++ [userEntry sentAt text; botEntry repliedAt reply from];
          awaitingInput := true |};
     userInput := "";
     showChatSimulator := showChatSimulator p |}.

(** Text in which no opening brace occurs. *)
Fixpoint braceFree (s : string) : Prop :=
  match s with
  | EmptyString => True
  | String c rest => c <> "{"%char /\ braceFree rest
  end.

(** *** Import *)

(** The property [key] of a parsed document is an array. *)
Definition propIsArray (doc : Json) (key : string) : bool :=
  match getProp doc key with
  | inr v => isArray v
  | inl _ => false
  end.

(** *** Reconciliation *)

(** The node and the template have a trigger in common. *)
Definition SharesTrigger (node : FlowNode) (t : AutoTemplate) : Prop :=
  exists nodeTriggers trg,
    triggers (data node) = Some nodeTriggers /\ In trg nodeTriggers /\ In trg (trigger t).

(** The two ways in which the reconciliation loop recognises a persisted
    template in a node. *)
Definition Resolves (node : FlowNode) (t : AutoTemplate) : Prop :=
  tpl_id t = Js.replaceFirst "template-" "" (node_id node) \/ SharesTrigger node t.

(** *** Synthesis *)

(** The trigger set meets the digits 1 to 5. *)
Definition MeetsDigits (t : AutoTemplate) : Prop :=
  exists d, In d (trigger t) /\ In d menuDigits.

(** The trigger set meets the greeting vocabulary, case aside. *)
Definition MeetsGreetings (t : AutoTemplate) : Prop :=
  exists g, In g (trigger t) /\ In (Js.toLowerCase g) greetingWords.

(** Ascending order of the menu numbers along a list. *)
Fixpoint Ascending (l : list AutoTemplate) : Prop :=
  match l with
  | [] => True
  | a :: rest => Forall (fun b => (menuNumber a <= menuNumber b)%Z) rest /\ Ascending rest
  end.

(** A node as it is created, before any outgoing connection is pushed. *)
Definition unlinked (n : FlowNode) : FlowNode :=
  {| node_id := node_id n; node_type := node_type n; position := position n;
     data := data n; connections_of := [] |}.

Fixpoint mapIndexed {A B : Type} (g : nat -> A -> B) (index : nat) (l : list A) : list B :=
  match l with
  | [] => []
  | x :: rest => g index x :: mapIndexed g (S index) rest
  end.

(** The welcome template, as a list of at most one template. *)
Definition welcomeList (templates : list AutoTemplate) : list AutoTemplate :=
  match List.find isGreeting templates with Some w => [w] | None => [] end.

(** The nodes created for a template list, in creation order, up to the
    end node. *)
Definition createdNodes (templates : list AutoTemplate) : list FlowNode :=
  startNode :: (welcomeNodeOf <$> welcomeList templates)
  ++ mapIndexed optionNodeOf 0 (menuOptionsOf templates)
  ++ mapIndexed specialNodeOf 0 (List.filter isSpecial templates).

(** The retyping step, on a bare node list. *)
Definition retyped (menuOptions : list AutoTemplate) (l : list FlowNode) : list FlowNode :=
  match List.find isHumanOption menuOptions with
  | None => l
  | Some humanTpl =>
      match findNode (templateNodeId humanTpl) l with
      | Some (humanNodeIndex, _) => alter toHuman humanNodeIndex l
      | None => l
      end
  end.

(** A connection that does not leave the start node. *)
Definition fromTemplateNode (c : FlowConnection) : Prop := source c <> node_id startNode.

(** *** Round trip *)

(** What a message or human node says: its triggers, response and flag. *)
Definition Tuple : Type := option (list string) * option string * option bool.

Definition nodeTuple (n : FlowNode) : option Tuple :=
  if isTemplateNode n
  then Some (triggers (data n), data_response (data n), data_active (data n))
  else None.

(** The tuples of the message and human nodes of a graph, in node order. *)
Definition graphTuples (f : Flow) : list Tuple := omap nodeTuple (flow_nodes f).

Definition templateTuple (t : AutoTemplate) : Tuple :=
  (Some (trigger t), Some (response t), Some (active t)).

(** Two templates that differ at most in their ids. *)
Definition SameContent (a b : AutoTemplate) : Prop :=
  trigger a = trigger b /\ response a = response b /\ active a = active b.

(** A node that, if it is a message or human node, has triggers, a
    response that is not empty, and an active flag. *)
Definition HasFullTuple (n : FlowNode) : Prop :=
  forall tu, nodeTuple n = Some tu ->
             exists trs resp flag, tu = (Some trs, Some resp, Some flag) /\ resp <> "".

(** ** Inputs of the examples *)

Definition mkTemplate (i : string) (trs : list string) (resp : string) (act : bool)
  : AutoTemplate :=
  {| tpl_id := i; trigger := trs; response := resp; active := act |}.

(** The text whose UTF-8 bytes are given. *)
Definition utf8 (bytes : list nat) : string :=
  foldr (fun n s => String (ascii_of_nat n) s) EmptyString bytes.

(** U+00A0 NO-BREAK SPACE, U+3000 IDEOGRAPHIC SPACE, U+FEFF and, not white
    space, U+200B ZERO WIDTH SPACE. *)
Definition noBreakSpace : string := utf8 [194; 160].
Definition ideographicSpace : string := utf8 [227; 128; 128].
Definition byteOrderMark : string := utf8 [239; 187; 191].
Definition zeroWidthSpace : string := utf8 [226; 128; 139].

(** A text made of white space only: a blank, a no-break space, a tab and
    an ideographic space. *)
Definition unicodeBlank : string :=
  " " +:+ noBreakSpace +:+ String (ascii_of_nat 9) ideographicSpace.

(** The template of the simulation example, and one whose only trigger is
    the empty string. *)
Definition hiTemplate : AutoTemplate := mkTemplate "7" ["oi"] "Hi {name}" true.
Definition anyTextTemplate : AutoTemplate := mkTemplate "8" [""] "Hi {name}" true.

(** The panel after [start()] on a graph that has a start node. *)
Definition startedPanel : ChatPanel :=
  next (startChatSimulation [startNode] 5 initialPanel).

Definition plainNode (i : string) (t : NodeType) : FlowNode :=
  {| node_id := i; node_type := t; position := {| pos_x := 0; pos_y := 0 |};
     data := plainData i ""; connections_of := [] |}.

(** A small editor state: the start node wired to a template node, itself
    wired to the end node, the template node being selected. *)
Definition sampleFlow : FlowState :=
  {| nodes := [startNode; plainNode "template-5" NodeMessage; endNode];
     connections := [mkConnection "start-1" "template-5";
                     mkConnection "template-5" "end-1"];
     selectedNode := Some "template-5" |}.

(** A store that fails every delete. *)
Definition storeDown : string -> option string := fun _ => Some "500".

(** The malformed document of the specification. *)
Definition malformedDocument : Json :=
  JObject [("nodes", JString "not-an-array"); ("connections", JArray [])].

(** A node drafted in the editor: triggers typed in, response left empty. *)
Definition draftNode : FlowNode :=
  {| node_id := "message-1730000000000"; node_type := NodeMessage;
     position := {| pos_x := 120; pos_y := 80 |};
     data := {| title := "Novo Template"; description := None;
                triggers := Some ["oi"]; data_response := Some "";
                conditions := None; data_options := None;
                data_active := Some true |};
     connections_of := [] |}.

(** The same node with a response of its own, switched off. *)
Definition answeredDraft : FlowNode :=
  {| node_id := node_id draftNode; node_type := NodeMessage;
     position := position draftNode;
     data := {| title := "Novo Template"; description := None;
                triggers := Some ["oi"]; data_response := Some "Oi, tudo bem?";
                conditions := None; data_options := None;
                data_active := Some false |};
     connections_of := [] |}.

Definition persistedOi : AutoTemplate := mkTemplate "7" ["oi"; "olá"] "Olá!" true.

(** A second persisted template, and a node that carries its id together
    with a trigger of the first. *)
Definition persistedPrice : AutoTemplate := mkTemplate "9" ["preço"] "R$ 10" true.

Definition renamedNode : FlowNode :=
  {| node_id := "template-9"; node_type := NodeMessage;
     position := {| pos_x := 120; pos_y := 80 |};
     data := {| title := "Preço"; description := None;
                triggers := Some ["oi"]; data_response := Some "Quanto custa?";
                conditions := None; data_options := None;
                data_active := Some true |};
     connections_of := [] |}.

Definition freshRun : Reconciling nat := startRun 0.

(** A lone menu option, with no greeting template beside it. *)
Definition loneOption : AutoTemplate := mkTemplate "2" ["1"] "Como funciona" true.

(** A greeting and three menu options, listed out of order. *)
Definition smallMenu : list AutoTemplate :=
  [ mkTemplate "1" ["oi"; "menu"] "Olá {name}" true;
    mkTemplate "4" ["3"] "Benefícios" true;
    mkTemplate "2" ["1"] "Como funciona" true;
    mkTemplate "3" ["2"] "Valores" true ].

(** A greeting whose response was left empty. *)
Definition muteGreeting : AutoTemplate := mkTemplate "1" ["oi"] "" true.

(** Synthesis, flattening against the templates the graph came from and
    an accepting store, synthesis again. *)
Definition roundTrip (ts : list AutoTemplate) : Flow :=
  convertTemplatesToFlow
    (flattened (reconcileNodes nat acceptingUpdate acceptingCreate ts "1" 0
                  (flow_nodes (convertTemplatesToFlow ts)) freshRun)).

(** ** Vocabulary of the further properties *)

(** *** Shape of a graph *)

Definition nodeIds (f : Flow) : list string := node_id <$> flow_nodes f.

(** A directed edge, as a pair of node ids. *)
Abbreviation Edge := (string * string)%type.

(** The edges recorded inside the nodes, in their outgoing lists. *)
Definition outEdges (l : list FlowNode) : list Edge :=
  l ≫= (fun n => (fun tgt => (node_id n, tgt)) <$> connections_of n).

(** The edges recorded in the connection list. *)
Definition connEdges (l : list FlowConnection) : list Edge :=
  (fun c => (source c, target c)) <$> l.

(** The two records of the edges agree, and every connection ends at a
    node of the graph. *)
Definition WellLinked (f : Flow) : Prop :=
  outEdges (flow_nodes f) ≡ₚ connEdges (flow_connections f)
  /\ Forall (fun c => In (target c) (nodeIds f)) (flow_connections f).

(** What the closing loop of the synthesis makes of one node. *)
Definition endLinked (n : FlowNode) : FlowNode :=
  if isLeaf n then pushTarget (node_id endNode) n else n.

(** The templates that get a node, in node order. *)
Definition placedTemplates (templates : list AutoTemplate) : list AutoTemplate :=
  welcomeList templates ++ menuOptionsOf templates ++ List.filter isSpecial templates.

(** What the option loop keeps: the records agree and the welcome node
    stays where it was put. *)
Definition optionLoopKeeps (W : option AutoTemplate) (f : Flow) : Prop :=
  WellLinked f
  /\ forall w, W = Some w ->
       exists n, flow_nodes f !! welcomeIndex = Some n /\ node_id n = templateNodeId w.


(** What the loop over the special templates keeps: the records agree and
    every menu option has its node. *)
Definition specialLoopKeeps (M : list AutoTemplate) (f : Flow) : Prop :=
  WellLinked f /\ forall t, In t M -> In (templateNodeId t) (nodeIds f).


(** ** Dialogue simulator: the suggestion chips and whole conversations *)

(** The texts of the suggestion chips. *)
Definition suggestions : list string := ["oi"; "menu"; "1"; "2"; "3"].

(** The [onClick] of the chip showing [suggestion], up to the point where
    the timer is armed.  The text box is not touched. *)
Definition sendSuggestion (toLowerCase : string -> string)
  (currentTemplates : list AutoTemplate) (now : Z)
  (suggestion : string) (p : ChatPanel) : Handled Sent :=
  let sim := simulationState p in
  if negb (awaitingInput sim) then quiet {| panel := p; timer := None |}
  else
    let userMessage :=
      {| msg_id := Js.numToString now; msg_type := UserMsg;
         content := suggestion; timestamp := now; nodeId := None |} in
    let sim' :=
      {| isActive := isActive sim; currentNodeId := currentNodeId sim;
         chatHistory := chatHistory sim ++ [userMessage];
         awaitingInput := false |} in
    let found := List.find (templateMatches toLowerCase suggestion) currentTemplates in
    quiet {| panel := {| simulationState := sim'; userInput := userInput p;
                         showChatSimulator := showChatSimulator p |};
             timer := Some {| matchingTemplate := found |} |}.

(** One turn of a conversation: the text typed, when it is sent and when
    the reply is delivered. *)
Record Turn := { turn_text : string; turn_sentAt : Z; turn_repliedAt : Z }.

(** A conversation: the turns are submitted one after the other. *)
Definition runTurns (toLowerCase : string -> string)
  (currentTemplates : list AutoTemplate) (turns : list Turn)
  (p : ChatPanel) : ChatPanel :=
  foldl (fun q t => next (submit toLowerCase currentTemplates (turn_sentAt t)
                            (turn_repliedAt t) (turn_text t) q))
        p turns.

(** The turns whose text is not blank. *)
Definition spoken (turns : list Turn) : list Turn :=
  List.filter (fun t => Js.truthy (Js.trim (turn_text t))) turns.

(** The two transcript entries of a turn, computed from the turn and the
    template list alone. *)
Definition exchange (toLowerCase : string -> string)
  (currentTemplates : list AutoTemplate) (t : Turn) : list ChatMessage :=
  [ userEntry (turn_sentAt t) (turn_text t);
    match List.find (templateMatches toLowerCase (turn_text t)) currentTemplates with
    | Some tpl => botEntry (turn_repliedAt t)
                    (Js.replaceNameAll simulatedName (response tpl)) (Some (tpl_id tpl))
    | None => botEntry (turn_repliedAt t) fallbackText None
    end ].

Definition chatTurn (text : string) : Turn :=
  {| turn_text := text; turn_sentAt := 10; turn_repliedAt := 11 |}.

(** ** Reconciliation: further vocabulary *)

(** The call asks the store to delete a template. *)
Definition isDelete (c : StoreCall) : bool :=
  match c with CallDelete _ => true | _ => false end.

(** A project holding the given templates. *)
Definition mkProject (i : string) (ts : list AutoTemplate) : TemplateProject :=
  {| project_id := i; project_name := i; project_description := "";
     templates := ts; createdAt := ""; project_isActive := true; isDefault := None |}.

(** ** The template registry

    The state cells [autoTemplates], [templateProjects] and
    [selectedProject], and the handlers of the template list that work on
    the component state alone. *)

Record Registry := {
  reg_autoTemplates : list AutoTemplate;
  reg_templateProjects : list TemplateProject;
  reg_selectedProject : option string
}.

(** [!selectedProject]: [null] and the empty string. *)
Definition noSelection (selected : option string) : bool :=
  match selected with
  | Some sp => negb (Js.truthy sp)
  | None => true
  end.

Definition getCurrentTemplates (reg : Registry) : list AutoTemplate :=
  if noSelection (reg_selectedProject reg) then reg_autoTemplates reg
  else
    match List.find (fun p => String.eqb (project_id p) (default "" (reg_selectedProject reg)))
                    (reg_templateProjects reg) with
    | Some project => templates project
    | None => []
    end.

(** [{ ...p, templates }]. *)
Definition withTemplates (ts : list AutoTemplate) (p : TemplateProject) : TemplateProject :=
  {| project_id := project_id p; project_name := project_name p;
     project_description := project_description p; templates := ts;
     createdAt := createdAt p; project_isActive := project_isActive p;
     isDefault := isDefault p |}.

Definition updateCurrentTemplates (ts : list AutoTemplate) (reg : Registry) : Registry :=
  if noSelection (reg_selectedProject reg) then
    {| reg_autoTemplates := ts;
       reg_templateProjects := reg_templateProjects reg;
       reg_selectedProject := reg_selectedProject reg |}
  else
    {| reg_autoTemplates := reg_autoTemplates reg;
       reg_templateProjects :=
         List.map (fun p => if String.eqb (project_id p) (default "" (reg_selectedProject reg))
                            then withTemplates ts p else p)
                  (reg_templateProjects reg);
       reg_selectedProject := reg_selectedProject reg |}.

Definition deleteAutoTemplate (id : string) (reg : Registry) : Registry :=
  let currentTemplates := getCurrentTemplates reg in
  updateCurrentTemplates
    (List.filter (fun tpl => negb (String.eqb (tpl_id tpl) id)) currentTemplates) reg.

(** [{ ...tpl, active: !tpl.active }]. *)
Definition toggled (tpl : AutoTemplate) : AutoTemplate :=
  {| tpl_id := tpl_id tpl; trigger := trigger tpl; response := response tpl;
     active := negb (active tpl) |}.

Definition toggleTemplateActive (id : string) (reg : Registry) : Registry :=
  let currentTemplates := getCurrentTemplates reg in
  updateCurrentTemplates
    (List.map (fun tpl => if String.eqb (tpl_id tpl) id then toggled tpl else tpl)
              currentTemplates) reg.

Definition newline : string := String (ascii_of_nat 10) EmptyString.

Definition humanTemplate (now : Z) : AutoTemplate :=
  {| tpl_id := "human-" +:+ Js.numToString now;
     trigger := ["falar com humano"; "atendente"; "suporte humano"; "pessoa real"; "operador"];
     response :=
       "🙋‍♀️ Entendi que você gostaria de falar com um atendente humano."
       +:+ newline +:+ newline
       +:+ "Vou transferir você para nossa equipe de suporte. Em alguns instantes um de nossos especialistas entrará em contato."
       +:+ newline +:+ newline
       +:+ "⏰ Horário de atendimento: Segunda a Sexta, 8h às 18h"
       +:+ newline +:+ newline
       +:+ "Obrigado pela paciência! 😊";
     active := true |}.

Definition addHumanIntervention (now : Z) (reg : Registry) : Registry :=
  let currentTemplates := getCurrentTemplates reg in
  updateCurrentTemplates (currentTemplates ++ [humanTemplate now]) reg.

Definition deleteProject (projectId : string) (reg : Registry) : Registry :=
  {| reg_autoTemplates := reg_autoTemplates reg;
     reg_templateProjects :=
       List.filter (fun p => negb (String.eqb (project_id p) projectId))
                   (reg_templateProjects reg);
     reg_selectedProject :=
       match reg_selectedProject reg with
       | Some sp => if String.eqb sp projectId then None else Some sp
       | None => None
       end |}.

(** The selection names one of the known projects, or there is none. *)
Definition selectionResolves (reg : Registry) : Prop :=
  noSelection (reg_selectedProject reg) = true
  \/ exists p, In p (reg_templateProjects reg)
               /\ Some (project_id p) = reg_selectedProject reg.

(** A registry with two projects, the second being selected. *)
Definition sampleRegistry : Registry :=
  {| reg_autoTemplates := [hiTemplate];
     reg_templateProjects := [mkProject "3" []; mkProject "4" [persistedOi]];
     reg_selectedProject := Some "4" |}.

(** ** Flow documents: export *)

Definition typeName (t : NodeType) : string :=
  match t with
  | NodeStart => "start" | NodeMessage => "message" | NodeCondition => "condition"
  | NodeOptions => "options" | NodeHuman => "human" | NodeEnd => "end"
  end.

(** A member that [JSON.stringify] writes only when its value is defined. *)
Definition optMember {A : Type} (key : string) (enc : A -> Json) (v : option A)
  : list (string * Json) :=
  match v with Some x => [(key, enc x)] | None => [] end.

Definition encodeStrings (l : list string) : Json := JArray (JString <$> l).

Definition encodePosition (p : Position) : Json :=
  JObject [("x", JNumber (pos_x p)); ("y", JNumber (pos_y p))].

Definition encodeCondition (c : NodeCondition_) : Json :=
  JObject [("field", JString (cond_field c)); ("operator", JString (cond_operator c));
           ("value", JString (cond_value c))].

Definition encodeOption (o : NodeOption_) : Json :=
  JObject [("id", JString (opt_id o)); ("label", JString (opt_label o));
           ("value", JString (opt_value o))].

Definition encodeData (d : NodeData) : Json :=
  JObject ([("title", JString (title d))]
           ++ optMember "description" JString (description d)
           ++ optMember "triggers" encodeStrings (triggers d)
           ++ optMember "response" JString (data_response d)
           ++ optMember "conditions" (fun l => JArray (encodeCondition <$> l)) (conditions d)
           ++ optMember "options" (fun l => JArray (encodeOption <$> l)) (data_options d)
           ++ optMember "active" JBool (data_active d)).

Definition encodeNode (n : FlowNode) : Json :=
  JObject [("id", JString (node_id n));
           ("type", JString (typeName (node_type n)));
           ("position", encodePosition (position n));
           ("data", encodeData (data n));
           ("connections", encodeStrings (connections_of n))].

Definition encodeConnection (c : FlowConnection) : Json :=
  JObject ([("id", JString (conn_id c)); ("source", JString (source c));
            ("target", JString (target c))]
           ++ optMember "sourceHandle" JString (sourceHandle c)
           ++ optMember "targetHandle" JString (targetHandle c)).

(** The document written by [convertFlowToCode]: the object [flowData] as
    [JSON.stringify] serialises it and [JSON.parse] reads it back.
    [created] is the ISO text of the current date. *)
Definition flowData (created : string) (flowNodes : list FlowNode)
  (flowConnections : list FlowConnection) : Json :=
  JObject [("metadata",
            JObject [("version", JString "1.0"); ("created", JString created);
                     ("description", JString "Fluxo de conversação automática")]);
           ("nodes", JArray (encodeNode <$> flowNodes));
           ("connections", JArray (encodeConnection <$> flowConnections))].

(** What the importer makes of an exported node and of an exported
    connection. *)
Definition nodeAsImported (now : Z) (n : FlowNode) : ImportedNode :=
  {| in_id := if Js.truthy (node_id n) then JString (node_id n)
              else JString ("node-" +:+ Js.numToString now);
     in_type := JString (typeName (node_type n));
     in_position := encodePosition (position n);
     in_data := encodeData (data n);
     in_connections := encodeStrings (connections_of n) |}.

Definition connectionAsImported (now : Z) (c : FlowConnection) : ImportedConnection :=
  {| ic_id := if Js.truthy (conn_id c) then JString (conn_id c)
              else JString ("conn-" +:+ Js.numToString now);
     ic_source := Some (JString (source c));
     ic_target := Some (JString (target c));
     ic_sourceHandle := JString <$> sourceHandle c;
     ic_targetHandle := JString <$> targetHandle c |}.

(** A registry whose selection names a project that the project list,
    loaded anew, does not hold. *)
Definition staleSelection : Registry :=
  {| reg_autoTemplates := [hiTemplate];
     reg_templateProjects := [mkProject "3" []];
     reg_selectedProject := Some "4" |}.

(** A document whose arrays hold values of no particular shape. *)
Definition shapelessDocument : Json :=
  JObject [("nodes", JArray [JNumber 1; JObject []]); ("connections", JArray [JString "x"])].

(** The exported form of the small editor state. *)
Definition sampleExport : Json :=
  flowData "2024-01-01T00:00:00.000Z" (nodes sampleFlow) (connections sampleFlow).

(** ** Editing one template: the list view and the node editor *)

Definition saveTemplateErrorAlert : string := "Erro ao salvar template. Tente novamente.".
Definition saveEditsErrorAlert : string := "Erro ao salvar alterações. Tente novamente.".

(** [currentTemplates.map(tpl => tpl.id === t.id ? t : tpl)]. *)
Definition replaceTemplate (updatedTemplate : AutoTemplate) (l : list AutoTemplate)
  : list AutoTemplate :=
  List.map (fun tpl => if String.eqb (tpl_id tpl) (tpl_id updatedTemplate)
                       then updatedTemplate else tpl) l.

(** [selectedNode.data.active || true]. *)
Definition activeOrTrue (flag : option bool) : bool :=
  match flag with
  | Some true => true
  | Some false | None => true
  end.

(** The template built by the save button of the node editor. *)
Definition nodeTemplateOf (selectedNode : FlowNode) (trs : list string) (resp : string)
  : AutoTemplate :=
  {| tpl_id := Js.replaceFirst "template-" "" (node_id selectedNode);
     trigger := trs;
     response := resp;
     active := activeOrTrue (data_active (data selectedNode)) |}.

(** What an edit leaves: the store, the registry and the calls made to
    the store. *)
Record Edited (Store : Type) := {
  edited_store : Store;
  edited_registry : Registry;
  edited_calls : list StoreCall
}.
Arguments edited_store {Store} _.
Arguments edited_registry {Store} _.
Arguments edited_calls {Store} _.

(** The same for the node editor, with the cell [showNodeEditor]. *)
Record EditorSaved (Store : Type) := {
  saved : Edited Store;
  showNodeEditor : bool
}.
Arguments saved {Store} _.
Arguments showNodeEditor {Store} _.

Section Editing.

Variable Store : Type.
Variable updateAutoTemplateInDatabase : AutoTemplate -> Store -> Store * bool.

(** [updateAutoTemplate]; the cell [editingTemplate] it clears is left
    out. *)
Definition updateAutoTemplate (updatedTemplate : AutoTemplate) (st : Store)
  (reg : Registry) : Handled (Edited Store) :=
  let applied :=
    updateCurrentTemplates (replaceTemplate updatedTemplate (getCurrentTemplates reg)) reg in
  if projectSelected (reg_selectedProject reg) then
    let '(st', ok) := updateAutoTemplateInDatabase updatedTemplate st in
    if ok then
      quiet {| edited_store := st'; edited_registry := applied;
               edited_calls := [CallUpdate updatedTemplate] |}
    else
      {| next := {| edited_store := st'; edited_registry := reg;
                    edited_calls := [CallUpdate updatedTemplate] |};
         alerts := [saveTemplateErrorAlert] |}
  else
    quiet {| edited_store := st; edited_registry := applied; edited_calls := [] |}.

(** The [onClick] of the save button of the node editor, which is open on
    [selectedNode]. *)
Definition saveNodeEdits (selectedNode : FlowNode) (st : Store) (reg : Registry)
  : Handled (EditorSaved Store) :=
  let closed :=
    quiet {| saved := {| edited_store := st; edited_registry := reg; edited_calls := [] |};
             showNodeEditor := false |} in
  match reg_selectedProject reg, triggers (data selectedNode),
        data_response (data selectedNode) with
  | Some sp, Some trs, Some resp =>
      if Js.truthy sp && Js.truthy resp then
        let nodeTemplate := nodeTemplateOf selectedNode trs resp in
        let applied :=
          updateCurrentTemplates (replaceTemplate nodeTemplate (getCurrentTemplates reg)) reg in
        if negb (String.eqb sp "default") then
          let '(st', ok) := updateAutoTemplateInDatabase nodeTemplate st in
          if ok then
            quiet {| saved := {| edited_store := st'; edited_registry := applied;
                                 edited_calls := [CallUpdate nodeTemplate] |};
                     showNodeEditor := false |}
          else
            {| next := {| saved := {| edited_store := st'; edited_registry := reg;
                                      edited_calls := [CallUpdate nodeTemplate] |};
                          showNodeEditor := true |};
               alerts := [saveEditsErrorAlert] |}
        else
          quiet {| saved := {| edited_store := st; edited_registry := applied;
                               edited_calls := [] |};
                   showNodeEditor := false |}
      else closed
  | _, _, _ => closed
  end.

End Editing.

(** A store that refuses every update. *)
Definition refusingUpdate (t : AutoTemplate) (n : nat) : nat * bool := (n, false).

(** The node of the persisted template 7, switched off in the editor. *)
Definition switchedOffNode : FlowNode :=
  {| node_id := "template-7"; node_type := NodeMessage;
     position := {| pos_x := 0; pos_y := 0 |};
     data := {| title := "Boas-vindas"; description := None;
                triggers := Some ["oi"; "olá"]; data_response := Some "Olá!";
                conditions := None; data_options := None;
                data_active := Some false |};
     connections_of := [] |}.

(** ** The trigger field of the node editor *)

(** [s.split(',')], as the first part and the parts that follow it. *)
Fixpoint splitComma (s : string) : string * list string :=
  match s with
  | EmptyString => (EmptyString, [])
  | String c rest =>
      let '(part, parts) := splitComma rest in
      if Ascii.eqb c "," then (EmptyString, part :: parts) else (String c part, parts)
  end.

Definition split (s : string) : list string :=
  let '(part, parts) := splitComma s in part :: parts.

(** [arr.join(sep)]. *)
Fixpoint join (sep : string) (arr : list string) : string :=
  match arr with
  | [] => EmptyString
  | [x] => x
  | x :: rest => x +:+ sep +:+ join sep rest
  end.

(** The text shown in the field: [selectedNode.data.triggers.join(', ')]. *)
Definition triggersFieldValue (trs : list string) : string := join ", " trs.

(** The triggers read from the field by its [onChange]:
    [value.split(',').map(t => t.trim()).filter(t => t)]. *)
Definition typedTriggers (value : string) : list string :=
  List.filter Js.truthy (Js.trim <$> split value).

(** A trigger that is not empty, has no blank at either end and holds no
    comma. *)
Definition CleanTrigger (t : string) : Prop :=
  t <> "" /\ Js.trim t = t /\ Js.includes t "," = false.

(** * Properties *)

(** ** Strings *)

Section StringFacts.

Lemma startsWith_spec (s p : string) :
  Js.startsWith s p = true <-> exists b, s = p +:+ b.
Proof.
  revert s. induction p as [|a p IH]; intros s; simpl.
  - split; [intros _; exists s; reflexivity | reflexivity].
  - destruct s as [|b s]; simpl.
    + split; [discriminate | intros [t Ht]; discriminate].
    + rewrite andb_true_iff, Ascii.eqb_eq, IH. split.
      * intros [-> [t ->]]. exists t. reflexivity.
      * intros [t Ht]. injection Ht as -> ->. split; [reflexivity | exists t; reflexivity].
Qed.

Lemma includes_spec (s sub : string) :
  Js.includes s sub = true <-> occursIn sub s.
Proof.
  unfold occursIn. induction s as [|c s IH].
  - simpl. rewrite orb_false_r, startsWith_spec. split.
    + intros [b Hb]. exists EmptyString, b. exact Hb.
    + intros [a [b Hab]]. destruct a; [exists b; exact Hab | discriminate].
  - change (Js.includes (String c s) sub)
      with (Js.startsWith (String c s) sub || Js.includes s sub).
    rewrite orb_true_iff, startsWith_spec, IH. split.
    + intros [[b Hb] | [a [b Hab]]].
      * exists EmptyString, b. exact Hb.
      * exists (String c a), b. simpl. rewrite Hab. reflexivity.
    + intros [a [b Hab]]. destruct a as [|c' a].
      * left. exists b. exact Hab.
      * right. simpl in Hab. injection Hab as _ Hs. exists a, b. exact Hs.
Qed.

Lemma truthy_spec (s : string) : Js.truthy s = true <-> s <> EmptyString.
Proof.
  unfold Js.truthy. destruct s; simpl; split; congruence.
Qed.

Lemma startsWith_app (p s : string) : Js.startsWith (p +:+ s) p = true.
Proof. apply startsWith_spec. exists s. reflexivity. Qed.

Lemma dropChars_app (p s : string) : Js.dropChars (String.length p) (p +:+ s) = s.
Proof. induction p as [|c p IH]; simpl; [reflexivity | exact IH]. Qed.

Lemma replaceFirst_unfold (pat rep s : string) :
  Js.replaceFirst pat rep s =
  if Js.startsWith s pat then rep +:+ Js.dropChars (String.length pat) s
  else match s with
       | EmptyString => EmptyString
       | String c rest => String c (Js.replaceFirst pat rep rest)
       end.
Proof. destruct s; reflexivity. Qed.

(** Stripping the known prefix of a node id gives back the template id. *)
Lemma replaceFirst_prefix (p s : string) : Js.replaceFirst p "" (p +:+ s) = s.
Proof.
  rewrite replaceFirst_unfold, startsWith_app, dropChars_app. reflexivity.
Qed.

Lemma replaceNameAll_other (rep : string) (c : ascii) (rest : string) :
  c <> "{"%char ->
  Js.replaceNameAll rep (String c rest) = String c (Js.replaceNameAll rep rest).
Proof.
  intros Hc. destruct c as [[] [] [] [] [] [] [] []]; try reflexivity.
  exfalso. apply Hc. reflexivity.
Qed.

(** Text without braces is copied, and a placeholder that follows it is
    replaced; the scan then goes on behind the placeholder. *)
Lemma replaceNameAll_placeholder (rep before behind : string) :
  braceFree before ->
  Js.replaceNameAll rep (before +:+ "{name}" +:+ behind)
  = before +:+ rep +:+ Js.replaceNameAll rep behind.
Proof.
  induction before as [|c before IH]; intros Hfree.
  - reflexivity.
  - destruct Hfree as [Hc Hfree].
    change (String c before +:+ ?x) with (String c (before +:+ x)).
    rewrite (replaceNameAll_other rep c _ Hc), (IH Hfree). reflexivity.
Qed.

Lemma replaceNameAll_plain (rep text : string) :
  braceFree text -> Js.replaceNameAll rep text = text.
Proof.
  induction text as [|c text IH]; intros Hfree; [reflexivity |].
  destruct Hfree as [Hc Hfree].
  rewrite (replaceNameAll_other rep c _ Hc), (IH Hfree). reflexivity.
Qed.

Example toLowerCase_greeting : Js.toLowerCase "Bom DIA, OLÁ!" = "bom dia, olá!".
Proof. reflexivity. Qed.

Example trim_blank : Js.trim "   " = "" /\ Js.trim "  oi  " = "oi".
Proof. split; reflexivity. Qed.

(** White space of every kind is trimmed, at both ends and not inside;
    U+200B is no white space. *)
Example trim_unicode :
  Js.trim unicodeBlank = ""
  /\ Js.trim (byteOrderMark +:+ " olá" +:+ noBreakSpace +:+ "bom dia" +:+ ideographicSpace)
     = "olá" +:+ noBreakSpace +:+ "bom dia"
  /\ Js.trim (zeroWidthSpace +:+ " ") = zeroWidthSpace.
Proof. repeat split; reflexivity. Qed.

Example replaceNameAll_twice :
  Js.replaceNameAll "Usuário" "Olá {name}! {name}, tudo bem?"
  = "Olá Usuário! Usuário, tudo bem?".
Proof. reflexivity. Qed.

Example replaceFirst_once :
  Js.replaceFirst "template-" "" "template-template-5" = "template-5".
Proof. reflexivity. Qed.

Example lastDashPart_of_node_id : Js.lastDashPart "message-1730000000000" = "1730000000000".
Proof. reflexivity. Qed.

End StringFacts.

(** ** Lists *)

Section ListFacts.

Context {A : Type}.

Lemma find_first (f : A -> bool) (pre post : list A) (x : A) :
  Forall (fun y => f y = false) pre -> f x = true ->
  List.find f (pre ++ x :: post) = Some x.
Proof.
  intros Hpre Hx. induction Hpre as [|y pre Hy _ IH]; simpl.
  - rewrite Hx. reflexivity.
  - rewrite Hy. exact IH.
Qed.

Lemma find_none (f : A -> bool) (l : list A) :
  Forall (fun y => f y = false) l -> List.find f l = None.
Proof.
  induction 1 as [|y l Hy _ IH]; simpl; [reflexivity | rewrite Hy; exact IH].
Qed.

Lemma find_split (f : A -> bool) (l : list A) (x : A) :
  List.find f l = Some x ->
  exists pre post, l = pre ++ x :: post /\
                   Forall (fun y => f y = false) pre /\ f x = true.
Proof.
  induction l as [|y l IH]; simpl; [discriminate |].
  destruct (f y) eqn:Hy.
  - intros [= ->]. exists [], l. repeat split; [constructor | exact Hy].
  - intros H. destruct (IH H) as (pre & post & -> & Hpre & Hx).
    exists (y :: pre), post. repeat split; [constructor; assumption | exact Hx].
Qed.

Lemma find_some_iff (f : A -> bool) (l : list A) :
  (exists x, In x l /\ f x = true) -> exists y, List.find f l = Some y.
Proof.
  intros (x & Hin & Hx). destruct (List.find f l) as [y|] eqn:E; [eauto |].
  exfalso. pose proof (find_none_elim := List.find_none f l E x Hin). congruence.
Qed.

End ListFacts.

(** ** Dialogue simulator *)

Section Simulator.

Lemma templateMatches_spec (toLowerCase : string -> string)
  (text : string) (tpl : AutoTemplate) :
  templateMatches toLowerCase text tpl = true <-> Matches toLowerCase text tpl.
Proof.
  unfold templateMatches, Matches.
  rewrite andb_true_iff, existsb_exists.
  split; intros [Ha (trg & Hin & H)]; (split; [exact Ha | exists trg; split; [exact Hin |]]).
  - apply includes_spec. exact H.
  - apply includes_spec. exact H.
Qed.

Lemma templateMatches_false (toLowerCase : string -> string)
  (text : string) (tpl : AutoTemplate) :
  templateMatches toLowerCase text tpl = false <-> ~ Matches toLowerCase text tpl.
Proof.
  rewrite <- templateMatches_spec. destruct (templateMatches toLowerCase text tpl); split;
      congruence.
Qed.

(** The template picked by [find] is the first match of the list. *)
Lemma find_FirstMatch (toLowerCase : string -> string)
  (text : string) (l : list AutoTemplate) (tpl : AutoTemplate) :
  FirstMatch toLowerCase text l tpl -> List.find (templateMatches toLowerCase text) l = Some tpl.
Proof.
  intros (pre & post & -> & Hpre & Hm). apply find_first.
  - eapply Forall_impl; [exact Hpre |]. intros t Ht. apply templateMatches_false. exact Ht.
  - apply templateMatches_spec. exact Hm.
Qed.

Lemma find_no_match (toLowerCase : string -> string)
  (text : string) (l : list AutoTemplate) :
  Forall (fun t => ~ Matches toLowerCase text t) l -> List.find (templateMatches toLowerCase
      text) l = None.
Proof.
  intros H. apply find_none. eapply Forall_impl; [exact H |].
  intros t Ht. apply templateMatches_false. exact Ht.
Qed.

(** A turn that passes the guard: the user entry is appended, the reply
    chosen by [find] follows, and the panel awaits input again. *)
Lemma submit_accepted (toLowerCase : string -> string)
  (templates : list AutoTemplate) (sentAt repliedAt : Z)
  (text : string) (p : ChatPanel) :
  isActive (simulationState p) = true ->
  Js.truthy (Js.trim text) = true ->
  submit toLowerCase templates sentAt repliedAt text p =
  quiet
    (match List.find (templateMatches toLowerCase text) templates with
     | Some tpl =>
         answered p sentAt repliedAt text
           (Js.replaceNameAll simulatedName (response tpl))
           (Some (tpl_id tpl)) (Some ("template-" +:+ tpl_id tpl))
     | None =>
         answered p sentAt repliedAt text fallbackText None
           (currentNodeId (simulationState p))
     end).
Proof.
  intros Hact Htext. unfold submit, sendUserMessage, setUserInput. cbn [userInput
      simulationState].
  rewrite Hact, Htext. cbn [negb orb next alerts quiet].
  unfold fireTimer, deliverReply, answered, userEntry, botEntry, quiet.
  cbn [timer panel simulationState userInput showChatSimulator matchingTemplate
       isActive currentNodeId chatHistory awaitingInput next alerts].
  destruct (List.find (templateMatches toLowerCase text) templates) as [tpl|];
    rewrite <- app_assoc; reflexivity.
Qed.

(** C1 (as amended).  For every template list and every user text that is
    not blank, submitted while the simulation is awaiting input, the reply
    is taken from the first active template, in list order, one of whose
    triggers, lowered by the host, occurs in the user text so lowered: the
    transcript gains the
    user entry and a bot entry carrying that template's response with
    every [{name}] replaced by the simulated name and the template's id,
    the position moves to the template's node, and the simulation awaits
    input again. *)
Theorem submit_replies_with_first_match (toLowerCase : string -> string)
  (templates : list AutoTemplate)
  (sentAt repliedAt : Z) (text : string) (p : ChatPanel) (tpl : AutoTemplate) :
  AwaitingInput (simulationState p) ->
  Js.truthy (Js.trim text) = true ->
  FirstMatch toLowerCase text templates tpl ->
  submit toLowerCase templates sentAt repliedAt text p =
    quiet (answered p sentAt repliedAt text
             (Js.replaceNameAll simulatedName (response tpl))
             (Some (tpl_id tpl)) (Some ("template-" +:+ tpl_id tpl)))
  /\ AwaitingInput (simulationState (next (submit toLowerCase templates sentAt repliedAt text
      p))).
Proof.
  intros [Hact _] Htext Hfirst.
  rewrite (submit_accepted toLowerCase templates sentAt repliedAt text p Hact Htext).
  rewrite (find_FirstMatch toLowerCase text templates tpl Hfirst).
  split; [reflexivity | split; reflexivity].
Qed.

(** The example of the specification: [start()] then [submit("Oi")]
    against the single template [oi / Hi {name}]. *)
Lemma submit_replies_with_first_match_witness :
  submit Js.toLowerCase [hiTemplate] 10 20 "Oi" startedPanel =
    quiet (answered startedPanel 10 20 "Oi" "Hi Usuário" (Some "7") (Some "template-7"))
  /\ AwaitingInput (simulationState (next (submit Js.toLowerCase [hiTemplate] 10 20 "Oi"
      startedPanel))).
Proof.
  apply (submit_replies_with_first_match Js.toLowerCase [hiTemplate] 10 20 "Oi" startedPanel
      hiTemplate).
  - split; reflexivity.
  - reflexivity.
  - exists [], []. split; [reflexivity |]. split; [constructor |].
    apply templateMatches_spec. reflexivity.
Defined.

(** C1 as the specification states it, for every user text, fails on a
    blank one: the template with the empty trigger matches it, yet nothing
    is appended. *)
Lemma blank_text_gets_no_reply :
  AwaitingInput (simulationState startedPanel)
  /\ FirstMatch Js.toLowerCase "  " [anyTextTemplate] anyTextTemplate
  /\ chatHistory (simulationState (next (submit Js.toLowerCase [anyTextTemplate] 10 20 "  "
      startedPanel)))
     = chatHistory (simulationState startedPanel)
  /\ submit Js.toLowerCase [anyTextTemplate] 10 20 "  " startedPanel
     <> quiet (answered startedPanel 10 20 "  " "Hi Usuário" (Some "8") (Some "template-8")).
Proof.
  split; [split; reflexivity |]. split.
  - exists [], []. split; [reflexivity |]. split; [constructor |].
    apply templateMatches_spec. reflexivity.
  - split; [reflexivity | discriminate].
Qed.

(** C9 (as amended).  For every user text that is not blank, submitted
    while the simulation is active, and that matches no active template,
    the simulator appends the user entry and the fixed fallback entry,
    keeps its position and awaits input again. *)
Theorem submit_falls_back_without_match (toLowerCase : string -> string)
  (templates : list AutoTemplate)
  (sentAt repliedAt : Z) (text : string) (p : ChatPanel) :
  isActive (simulationState p) = true ->
  Js.truthy (Js.trim text) = true ->
  Forall (fun t => ~ Matches toLowerCase text t) templates ->
  submit toLowerCase templates sentAt repliedAt text p =
    quiet (answered p sentAt repliedAt text fallbackText None
             (currentNodeId (simulationState p)))
  /\ AwaitingInput (simulationState (next (submit toLowerCase templates sentAt repliedAt text
      p))).
Proof.
  intros Hact Htext Hnone.
  rewrite (submit_accepted toLowerCase templates sentAt repliedAt text p Hact Htext).
  rewrite (find_no_match toLowerCase text templates Hnone).
  split; [reflexivity | split; reflexivity].
Qed.

Lemma no_match_xyz : Forall (fun t => ~ Matches Js.toLowerCase "xyz" t) [hiTemplate].
Proof.
  constructor; [| constructor]. apply templateMatches_false. reflexivity.
Qed.

(** The example of the specification: [submit("xyz")] against the single
    template triggered by [oi]. *)
Lemma submit_falls_back_without_match_witness :
  submit Js.toLowerCase [hiTemplate] 10 20 "xyz" startedPanel =
    quiet (answered startedPanel 10 20 "xyz" fallbackText None (Some "start-1"))
  /\ AwaitingInput (simulationState (next (submit Js.toLowerCase [hiTemplate] 10 20 "xyz"
      startedPanel))).
Proof.
  apply (submit_falls_back_without_match Js.toLowerCase [hiTemplate] 10 20 "xyz" startedPanel).
  - reflexivity.
  - reflexivity.
  - exact no_match_xyz.
Defined.

Lemma no_match_blank : Forall (fun t => ~ Matches Js.toLowerCase "   " t) [hiTemplate].
Proof.
  constructor; [| constructor]. apply templateMatches_false. reflexivity.
Qed.

(** C9 as the specification states it, for every submitted text, fails on
    a blank one: it matches no active template, yet no fallback entry is
    appended. *)
Lemma blank_text_gets_no_fallback :
  AwaitingInput (simulationState startedPanel)
  /\ Forall (fun t => ~ Matches Js.toLowerCase "   " t) [hiTemplate]
  /\ chatHistory (simulationState (next (submit Js.toLowerCase [hiTemplate] 10 20 "   "
      startedPanel)))
     = chatHistory (simulationState startedPanel)
  /\ ~ In (botEntry 20 fallbackText None)
         (chatHistory (simulationState (next (submit Js.toLowerCase [hiTemplate] 10 20 "   "
             startedPanel)))).
Proof.
  split; [split; reflexivity |]. split; [exact no_match_blank |].
  split; [reflexivity |]. simpl. intros [H | []]. discriminate H.
Qed.

(** The guard of [sendUserMessage]. *)
Lemma sendUserMessage_guard (toLowerCase : string -> string)
  (templates : list AutoTemplate) (now : Z) (p : ChatPanel) :
  Js.trim (userInput p) = "" \/ isActive (simulationState p) = false ->
  sendUserMessage toLowerCase templates now p = quiet {| panel := p; timer := None |}.
Proof.
  intros H. unfold sendUserMessage. destruct H as [H | H]; rewrite H.
  - reflexivity.
  - rewrite orb_true_r. reflexivity.
Qed.

(** C10.  Sending an input that is empty or made of white space only
    (whatever [trim] strips: blanks, tabs, line ends, no-break and other
    Unicode spaces), or sending while no simulation is active, changes
    nothing: the panel (transcript, position, awaiting flag, and the input
    box itself) is what it was, no reply is scheduled and nothing is
    shown. *)
Theorem sendUserMessage_ignored (toLowerCase : string -> string)
  (templates : list AutoTemplate) (now : Z)
  (p : ChatPanel) :
  Js.trim (userInput p) = "" \/ isActive (simulationState p) = false ->
  sendUserMessage toLowerCase templates now p = quiet {| panel := p; timer := None |}
  /\ forall later, fireTimer (next (sendUserMessage toLowerCase templates now p)) later = p.
Proof.
  intros H. rewrite (sendUserMessage_guard toLowerCase templates now p H).
  split; [reflexivity | intros later; reflexivity].
Qed.

(** An input made of a blank, a no-break space, a tab and an ideographic
    space is ignored. *)
Lemma sendUserMessage_ignored_witness :
  sendUserMessage Js.toLowerCase [hiTemplate] 10 (setUserInput unicodeBlank startedPanel)
    = quiet {| panel := setUserInput unicodeBlank startedPanel; timer := None |}
  /\ forall later,
       fireTimer (next (sendUserMessage Js.toLowerCase [hiTemplate] 10
                          (setUserInput unicodeBlank startedPanel)))
                 later
       = setUserInput unicodeBlank startedPanel.
Proof.
  apply (sendUserMessage_ignored Js.toLowerCase [hiTemplate] 10
           (setUserInput unicodeBlank startedPanel)).
  left. reflexivity.
Defined.

(** No path of [sendUserMessage] shows an alert. *)
Lemma sendUserMessage_silent (toLowerCase : string -> string)
  (templates : list AutoTemplate) (now : Z) (p : ChatPanel) :
  alerts (sendUserMessage toLowerCase templates now p) = [].
Proof.
  unfold sendUserMessage.
  destruct (negb (Js.truthy (Js.trim (userInput p))) || negb (isActive (simulationState p)));
    reflexivity.
Qed.

(** C8 (as amended).  A submit raises no error in any state; made while
    the simulation is not active, in particular before [start()], it is
    dropped: the simulation state stays as it was and only the input box
    holds the text. *)
Theorem submit_when_inactive_is_dropped (toLowerCase : string -> string)
  (templates : list AutoTemplate)
  (sentAt repliedAt : Z) (text : string) (p : ChatPanel) :
  alerts (submit toLowerCase templates sentAt repliedAt text p) = []
  /\ (isActive (simulationState p) = false ->
      next (submit toLowerCase templates sentAt repliedAt text p) = setUserInput text p
      /\ simulationState (next (submit toLowerCase templates sentAt repliedAt text p))
         = simulationState p).
Proof.
  split.
  - apply sendUserMessage_silent.
  - intros Hin. unfold submit.
    rewrite (sendUserMessage_guard toLowerCase templates sentAt (setUserInput text p) (or_intror
        Hin)).
    split; reflexivity.
Qed.

Lemma submit_when_inactive_is_dropped_witness :
  alerts (submit Js.toLowerCase [hiTemplate] 10 20 "Oi" initialPanel) = []
  /\ next (submit Js.toLowerCase [hiTemplate] 10 20 "Oi" initialPanel) = setUserInput "Oi"
      initialPanel
  /\ simulationState (next (submit Js.toLowerCase [hiTemplate] 10 20 "Oi" initialPanel))
     = simulationState initialPanel.
Proof.
  destruct (submit_when_inactive_is_dropped Js.toLowerCase [hiTemplate] 10 20 "Oi" initialPanel)
    as [Hquiet Hdrop].
  split; [exact Hquiet | apply Hdrop; reflexivity].
Defined.

(** C8 as the specification states it expects an error from a submit made
    before [start()]; the handler shows none and returns normally. *)
Lemma submit_before_start_raises_nothing :
  ~ AwaitingInput (simulationState initialPanel)
  /\ alerts (sendUserMessage Js.toLowerCase [hiTemplate] 10 (setUserInput "Oi" initialPanel)) = []
  /\ submit Js.toLowerCase [hiTemplate] 10 20 "Oi" initialPanel = quiet (setUserInput "Oi"
      initialPanel).
Proof.
  split; [intros [H _]; discriminate H |]. split; reflexivity.
Qed.

End Simulator.

(** ** Per-node deletion *)

Section DeletionFacts.

Variable isPositiveNumber : string -> bool.

Lemma eqb_string_false (a b : string) : negb (String.eqb a b) = true <-> a <> b.
Proof.
  rewrite negb_true_iff. destruct (String.eqb_spec a b); split; congruence.
Qed.

(** The handler publishes the removal before anything else happens. *)
Lemma deleteFlowNode_begin_found (selectedProject : option string) (nodeId : string)
  (flowState : FlowState) (n : FlowNode) :
  List.find (fun node => String.eqb (node_id node) nodeId) (nodes flowState) = Some n ->
  deleteFlowNode_begin isPositiveNumber selectedProject nodeId flowState =
  if projectSelected selectedProject && isPositiveNumber (templateIdOfNode nodeId)
  then AwaitingStore (removeNode nodeId flowState) (templateIdOfNode nodeId) n
  else Finished (removeNode nodeId flowState).
Proof.
  intros Hfind. unfold deleteFlowNode_begin. rewrite Hfind.
  destruct (projectSelected selectedProject); simpl; [| reflexivity].
  destruct (isPositiveNumber (templateIdOfNode nodeId)); reflexivity.
Qed.

Lemma removeNode_connections (nodeId : string) (prev : FlowState) :
  Forall (fun c => source c <> nodeId /\ target c <> nodeId)
         (connections (removeNode nodeId prev)).
Proof.
  unfold removeNode; simpl.
  apply List.Forall_forall. intros c Hc. apply List.filter_In in Hc as [_ Hc].
  apply andb_true_iff in Hc as [Hs Ht].
  split; apply eqb_string_false; assumption.
Qed.

(** C7.  Removing a node removes with it every connection that starts or
    ends at it: in the flow state left by the removal no node has the
    removed id and no connection has it as source or as target, while the
    connections kept are exactly the earlier ones that do not touch it;
    and whatever the store answers, the state in which [deleteFlowNode]
    leaves the editor after removing a node has no connection that refers
    to it. *)
Theorem removeNode_leaves_no_reference (nodeId : string) (prev : FlowState) :
  Forall (fun c => source c <> nodeId /\ target c <> nodeId)
         (connections (removeNode nodeId prev))
  /\ Forall (fun n => node_id n <> nodeId) (nodes (removeNode nodeId prev))
  /\ (forall c, In c (connections (removeNode nodeId prev)) <->
                In c (connections prev) /\ source c <> nodeId /\ target c <> nodeId)
  /\ (forall deleteFromStore selectedProject n,
        List.find (fun node => String.eqb (node_id node) nodeId) (nodes prev) = Some n ->
        Forall (fun c => source c <> nodeId /\ target c <> nodeId)
          (connections
             (next (fst (deleteFlowNode isPositiveNumber deleteFromStore selectedProject
                           nodeId prev))))).
Proof.
  split; [apply removeNode_connections |]. split; [| split].
  - unfold removeNode; simpl.
    apply List.Forall_forall. intros n Hn. apply List.filter_In in Hn as [_ Hn].
    apply eqb_string_false. exact Hn.
  - intros c. unfold removeNode; simpl.
    rewrite List.filter_In, andb_true_iff, !eqb_string_false. reflexivity.
  - intros deleteFromStore selectedProject n Hfind. unfold deleteFlowNode.
    rewrite (deleteFlowNode_begin_found selectedProject nodeId prev n Hfind).
    destruct (projectSelected selectedProject && isPositiveNumber (templateIdOfNode nodeId)).
    + destruct (deleteFromStore (templateIdOfNode nodeId)); apply removeNode_connections.
    + apply removeNode_connections.
Qed.

(** C4 (as amended).  Per-node deletion removes the node and its
    connections from the graph first and calls the store delete only then,
    with the graph already published without the node; if the store call
    succeeds the graph stays so, and if it fails the failure is shown and
    the node is put back among the nodes. *)
Theorem deleteFlowNode_removes_then_calls_store (selectedProject : option string)
  (nodeId : string) (flowState published : FlowState) (templateId : string)
  (nodeToDelete : FlowNode) :
  deleteFlowNode_begin isPositiveNumber selectedProject nodeId flowState
    = AwaitingStore published templateId nodeToDelete ->
  published = removeNode nodeId flowState
  /\ In nodeToDelete (nodes flowState)
  /\ node_id nodeToDelete = nodeId
  /\ ~ In nodeToDelete (nodes published)
  /\ deleteFlowNode_resume nodeToDelete None published = quiet published
  /\ forall message,
       let rolledBack := deleteFlowNode_resume nodeToDelete (Some message) published in
       alerts rolledBack = [deleteErrorAlert message]
       /\ In nodeToDelete (nodes (next rolledBack))
       /\ (forall n, In n (nodes published) -> In n (nodes (next rolledBack))).
Proof.
  unfold deleteFlowNode_begin.
  destruct (List.find _ (nodes flowState)) as [n|] eqn:Hfind; [| discriminate].
  destruct (projectSelected selectedProject); [| discriminate].
  destruct (isPositiveNumber (templateIdOfNode nodeId)); [| discriminate].
  intros [= <- <- <-].
  apply List.find_some in Hfind as [Hin Hid]. apply String.eqb_eq in Hid.
  split; [reflexivity |]. split; [exact Hin |]. split; [exact Hid |]. split; [| split].
  - unfold removeNode; simpl. rewrite List.filter_In. intros [_ H].
    apply eqb_string_false in H. contradiction.
  - reflexivity.
  - intros message. simpl. split; [reflexivity |]. split.
    + apply in_or_app. right. left. reflexivity.
    + intros n' Hn'. apply in_or_app. left. exact Hn'.
Qed.

End DeletionFacts.

(** Deleting the template node of the sample flow, with the store down. *)
Lemma removeNode_leaves_no_reference_witness :
  Forall (fun c => source c <> "template-5" /\ target c <> "template-5")
    (connections
       (next (fst (deleteFlowNode decimalPositive storeDown (Some "1") "template-5"
                     sampleFlow)))).
Proof.
  destruct (removeNode_leaves_no_reference decimalPositive "template-5" sampleFlow)
    as (_ & _ & _ & Hhandler).
  apply (Hhandler storeDown (Some "1") (plainNode "template-5" NodeMessage)).
  reflexivity.
Defined.

Lemma deleteFlowNode_removes_then_calls_store_witness :
  In (plainNode "template-5" NodeMessage)
     (nodes (next (deleteFlowNode_resume (plainNode "template-5" NodeMessage) (Some "500")
                     (removeNode "template-5" sampleFlow)))).
Proof.
  destruct (deleteFlowNode_removes_then_calls_store decimalPositive (Some "1")
              "template-5" sampleFlow (removeNode "template-5" sampleFlow) "5"
              (plainNode "template-5" NodeMessage) eq_refl)
    as (_ & _ & _ & _ & _ & Hback).
  destruct (Hback "500") as (_ & Hin & _). exact Hin.
Defined.

(** C4 as the specification states it fails on a store that is down: the
    graph is changed before the store is called, and the rollback brings
    back the node only, leaving its two connections and the selection
    lost. *)
Lemma failed_delete_does_not_restore_graph :
  deleteFlowNode_begin decimalPositive (Some "1") "template-5" sampleFlow
    = AwaitingStore
        {| nodes := [startNode; endNode]; connections := []; selectedNode := None |}
        "5" (plainNode "template-5" NodeMessage)
  /\ snd (deleteFlowNode decimalPositive storeDown (Some "1") "template-5" sampleFlow)
     = [CallDelete "5"]
  /\ next (fst (deleteFlowNode decimalPositive storeDown (Some "1") "template-5" sampleFlow))
     = {| nodes := [startNode; endNode; plainNode "template-5" NodeMessage];
          connections := [];
          selectedNode := None |}
  /\ next (fst (deleteFlowNode decimalPositive storeDown (Some "1") "template-5" sampleFlow))
     <> sampleFlow.
Proof.
  split; [reflexivity |]. split; [reflexivity |]. split; [reflexivity |].
  discriminate.
Qed.

(** ** Flow documents: import *)

Section ImportFacts.

Variable JSON_parse : string -> option Json.

Lemma bind_inr {A B : Type} (a : A) (k : A -> Try B) : (inr a : Try A) ≫= k = k a.
Proof. reflexivity. Qed.

Lemma bind_inl {A B : Type} (e : Exn) (k : A -> Try B) : (inl e : Try A) ≫= k = inl e.
Proof. reflexivity. Qed.

Lemma not_array_rejected (v : option Json) :
  isArray v = false -> negb (jsTruthy v) || negb (isArray v) = true.
Proof. intros ->. apply orb_true_r. Qed.

(** C5.  A flow document whose [nodes] or [connections] property is
    missing or is not an array is rejected: the conversion raises (the
    invalid-format error, unless the document is [null] itself) and yields
    no flow, the editor shows the import error, and the flow state it held
    is left as it was. *)
Theorem import_rejects_malformed_document (now : Z) (code : string) (doc : Json)
  (prev : FlowState) :
  JSON_parse code = Some doc ->
  propIsArray doc "nodes" = false \/ propIsArray doc "connections" = false ->
  convertCodeToFlow JSON_parse now code = None
  /\ importFlowCode JSON_parse now code prev
     = {| next := Unchanged prev; alerts := [importErrorAlert] |}
  /\ (doc <> JNull ->
      convertCodeToFlow_try JSON_parse now code = inl (Error nodesFormatError)
      \/ convertCodeToFlow_try JSON_parse now code = inl (Error connectionsFormatError)).
Proof.
  intros Hparse Hbad.
  assert (Htry : exists e, convertCodeToFlow_try JSON_parse now code = inl e
                 /\ (doc <> JNull -> e = Error nodesFormatError
                                     \/ e = Error connectionsFormatError)).
  { unfold convertCodeToFlow_try, throw. rewrite Hparse. unfold propIsArray in Hbad.
    change (mret doc : Try Json) with (inr doc : Try Json). rewrite bind_inr.
    destruct (getProp doc "nodes") as [e | nodesProp] eqn:Hn.
    - destruct doc; try discriminate Hn. exists e. split; [reflexivity | congruence].
    - assert (Hc : exists connsProp, getProp doc "connections" = inr connsProp).
      { destruct doc; try discriminate Hn; eexists; reflexivity. }
      destruct Hc as [connsProp Hc]. rewrite Hc in Hbad. rewrite bind_inr.
      destruct (isArray nodesProp) eqn:Hna.
      + destruct Hbad as [Hbad | Hbad]; [discriminate Hbad |].
        assert (Ht : jsTruthy nodesProp = true).
        { destruct nodesProp as [[]|]; try discriminate Hna; reflexivity. }
        exists (Error connectionsFormatError). split; [| intros _; right; reflexivity].
        rewrite Ht. cbn [negb orb].
        change (mret () : Try ()) with (inr () : Try ()).
        rewrite bind_inr, Hc, bind_inr, (not_array_rejected connsProp Hbad).
        apply bind_inl.
      + exists (Error nodesFormatError). split; [| intros _; left; reflexivity].
        cbn [negb]. rewrite orb_true_r. apply bind_inl. }
  destruct Htry as (e & Htry & He).
  unfold importFlowCode, convertCodeToFlow. rewrite Htry.
  split; [reflexivity |]. split; [reflexivity |].
  intros Hdoc. destruct (He Hdoc) as [-> | ->]; [left | right]; reflexivity.
Qed.

End ImportFacts.

(** The example of the specification: [nodes] holds a string. *)
Lemma import_rejects_malformed_document_witness :
  convertCodeToFlow (parseAs malformedDocument) 0 "{}" = None
  /\ importFlowCode (parseAs malformedDocument) 0 "{}" sampleFlow
     = {| next := Unchanged sampleFlow; alerts := [importErrorAlert] |}
  /\ (malformedDocument <> JNull ->
      convertCodeToFlow_try (parseAs malformedDocument) 0 "{}"
        = inl (Error nodesFormatError)
      \/ convertCodeToFlow_try (parseAs malformedDocument) 0 "{}"
        = inl (Error connectionsFormatError)).
Proof.
  apply (import_rejects_malformed_document (parseAs malformedDocument) 0 "{}"
           malformedDocument sampleFlow).
  - reflexivity.
  - left. reflexivity.
Defined.

(** ** Reconciliation with the template store *)

Section ReconciliationFacts.

Variable Store : Type.
Variable updateAutoTemplateInDatabase : AutoTemplate -> Store -> Store * bool.
Variable createAutoTemplateInDatabase :
  AutoTemplate -> string -> Store -> Store * (string + option string).

#[local] Abbreviation reconcileNode' := (reconcileNode Store updateAutoTemplateInDatabase
                              createAutoTemplateInDatabase).
#[local] Abbreviation reconcileNodes' := (reconcileNodes Store updateAutoTemplateInDatabase
                               createAutoTemplateInDatabase).

Lemma arrIncludes_spec (arr : list string) (x : string) :
  Js.arrIncludes arr x = true <-> In x arr.
Proof.
  unfold Js.arrIncludes. rewrite existsb_exists. split.
  - intros (y & Hin & Heq). apply String.eqb_eq in Heq. subst. exact Hin.
  - intros Hin. exists x. split; [exact Hin | apply String.eqb_refl].
Qed.

Lemma sameTemplate_spec (node : FlowNode) (t : AutoTemplate) :
  sameTemplate node t = true <-> Resolves node t.
Proof.
  unfold sameTemplate, Resolves, SharesTrigger.
  rewrite orb_true_iff, String.eqb_eq.
  split; intros [H | H]; [left; exact H | right | left; exact H | right].
  - destruct (triggers (data node)) as [trs|]; [| discriminate].
    apply existsb_exists in H as (trg & Hin & Hinc). apply arrIncludes_spec in Hinc.
    exists trs, trg. repeat split; assumption.
  - destruct H as (trs & trg & -> & Hin & Hinc).
    apply existsb_exists. exists trg. split; [exact Hin | apply arrIncludes_spec; exact Hinc].
Qed.

(** The turn of the loop taken for a node in which a persisted template is
    recognised: one update, nothing else. *)
Lemma reconcileNode_update (existing : list AutoTemplate) (project : string) (now : Z)
  (node : FlowNode) (r : Reconciling Store) (e : AutoTemplate) :
  isTemplateNode node = true ->
  List.find (sameTemplate node) existing = Some e ->
  let r' := reconcileNode' existing project now node r in
  calls r' = calls r ++ [CallUpdate (updatedTemplateOf node e)]
  /\ newTemplates r' = newTemplates r
  /\ orderIndex r' = orderIndex r
  /\ shown r' = shown r.
Proof.
  intros Hnode Hfind. unfold reconcileNode. rewrite Hnode, Hfind.
  destruct (updateAutoTemplateInDatabase (updatedTemplateOf node e) (store r)) as [st ok].
  repeat split.
Qed.

Lemma reconcileNodes_app (existing : list AutoTemplate) (project : string) (now : Z)
  (pre post : list FlowNode) (r : Reconciling Store) :
  reconcileNodes' existing project now (pre ++ post) r =
  reconcileNodes' existing project now post (reconcileNodes' existing project now pre r).
Proof. unfold reconcileNodes. apply foldl_app. Qed.

(** The first element of a list with a property is the same however the
    list is cut around it. *)
Lemma first_is_unique {A : Type} (P : A -> Prop) (a a' : list A) (x x' : A)
  (b b' : list A) :
  a ++ x :: b = a' ++ x' :: b' ->
  Forall (fun y => ~ P y) a -> P x -> Forall (fun y => ~ P y) a' -> P x' -> x = x'.
Proof.
  revert a'. induction a as [|y a IH]; intros a' Heq Ha Hx Ha' Hx'.
  - destruct a' as [|y' a']; simpl in Heq.
    + injection Heq as -> _. reflexivity.
    + injection Heq as -> _. apply Forall_cons in Ha' as [Hy' _]. contradiction.
  - apply Forall_cons in Ha as [Hy Ha]. destruct a' as [|y' a']; simpl in Heq.
    + injection Heq as -> _. contradiction.
    + injection Heq as _ Heq. apply Forall_cons in Ha' as [_ Ha'].
      apply (IH a' Heq Ha Hx Ha' Hx').
Qed.

(** C6 (as amended).  In the reconciliation loop, a message or human node
    whose triggers intersect those of a persisted template, or whose id
    with the known prefix removed is a persisted template id, takes the
    update path: the loop calls the update function once for it and the
    create function not at all.  The template updated is the first
    persisted template, in list order, that the id or the triggers of the
    node recognise; it is the template the node was matched with whenever
    no earlier template is recognised.  The update keeps that template's
    id and carries the triggers of the node (those of the template when
    the node has none), as response the response of the node when it is
    not empty, else the title of the node when it is not empty, else the
    persisted response, and as active flag [true] unless the flag of the
    node is [false]. *)
Theorem matching_node_is_updated_not_created (existing : list AutoTemplate)
  (project : string) (now : Z) (pre post : list FlowNode) (node : FlowNode)
  (r : Reconciling Store) (t : AutoTemplate) :
  isTemplateNode node = true ->
  In t existing ->
  Resolves node t ->
  let before := reconcileNodes' existing project now pre r in
  let after := reconcileNode' existing project now node before in
  reconcileNodes' existing project now (pre ++ node :: post) r
    = reconcileNodes' existing project now post after
  /\ exists ahead e behind u,
       existing = ahead ++ e :: behind
       /\ Forall (fun e' => ~ Resolves node e') ahead
       /\ Resolves node e
       /\ (forall ahead' behind',
             existing = ahead' ++ t :: behind' ->
             Forall (fun e' => ~ Resolves node e') ahead' -> e = t)
       /\ calls after = calls before ++ [CallUpdate u]
       /\ newTemplates after = newTemplates before
       /\ shown after = shown before
       /\ tpl_id u = tpl_id e
       /\ trigger u = match triggers (data node) with
                      | Some trs => trs
                      | None => trigger e
                      end
       /\ (forall resp, data_response (data node) = Some resp -> resp <> "" ->
                        response u = resp)
       /\ (data_response (data node) = None \/ data_response (data node) = Some "" ->
           (title (data node) <> "" -> response u = title (data node))
           /\ (title (data node) = "" -> response u = response e))
       /\ active u = match data_active (data node) with
                     | Some false => false
                     | Some true | None => true
                     end.
Proof.
  intros Hnode Hin Hres before after. split.
  - rewrite reconcileNodes_app. reflexivity.
  - destruct (find_some_iff (sameTemplate node) existing) as [e Hfind].
    { exists t. split; [exact Hin | apply sameTemplate_spec; exact Hres]. }
    destruct (reconcileNode_update existing project now node before e Hnode Hfind)
      as (Hcalls & Hnew & _ & Hshown).
    apply find_split in Hfind as (ahead & behind & Hcut & Hahead & Hsame).
    apply sameTemplate_spec in Hsame.
    assert (Hnot : Forall (fun e' => ~ Resolves node e') ahead).
    { eapply Forall_impl; [exact Hahead |]. intros e' He' Hr.
      apply sameTemplate_spec in Hr. simpl in He'. congruence. }
    exists ahead, e, behind, (updatedTemplateOf node e).
    split; [exact Hcut |]. split; [exact Hnot |]. split; [exact Hsame |].
    split.
    { intros ahead' behind' Hcut' Hnot'. rewrite Hcut in Hcut'.
      exact (first_is_unique (Resolves node) _ _ _ _ _ _ Hcut' Hnot Hsame Hnot' Hres). }
    split; [exact Hcalls |]. split; [exact Hnew |]. split; [exact Hshown |].
    split; [reflexivity |]. split; [| split; [| split]].
    + cbn [updatedTemplateOf trigger]. destruct (triggers (data node)); reflexivity.
    + intros resp Hresp Hne. cbn [updatedTemplateOf response]. rewrite Hresp.
      cbn [Js.orElse]. apply truthy_spec in Hne. rewrite Hne. reflexivity.
    + intros Hempty. cbn [updatedTemplateOf response].
      assert (Hfall : Js.orElse (data_response (data node))
                        (Js.orElse (Some (title (data node))) (response e))
                      = Js.orElse (Some (title (data node))) (response e)).
      { destruct Hempty as [-> | ->]; reflexivity. }
      rewrite Hfall. cbn [Js.orElse]. split.
      * intros Htitle. apply truthy_spec in Htitle. rewrite Htitle. reflexivity.
      * intros ->. reflexivity.
    + cbn [updatedTemplateOf active]. unfold activeOf.
      destruct (data_active (data node)) as [[|]|]; reflexivity.
Qed.

End ReconciliationFacts.

Lemma draft_shares_trigger : SharesTrigger draftNode persistedOi.
Proof. exists ["oi"], "oi". repeat split; simpl; auto. Qed.

(** The drafted node of the example resolves to the persisted greeting
    and is sent as an update carrying what the node holds. *)
Lemma matching_node_is_updated_not_created_witness :
  reconcileNodes nat acceptingUpdate acceptingCreate [persistedOi] "1" 0
    ([] ++ answeredDraft :: []) freshRun
  = reconcileNodes nat acceptingUpdate acceptingCreate [persistedOi] "1" 0 []
      (reconcileNode nat acceptingUpdate acceptingCreate [persistedOi] "1" 0 answeredDraft
         (reconcileNodes nat acceptingUpdate acceptingCreate [persistedOi] "1" 0 [] freshRun))
  /\ calls (reconcileNode nat acceptingUpdate acceptingCreate [persistedOi] "1" 0
              answeredDraft freshRun)
     = [CallUpdate (mkTemplate "7" ["oi"] "Oi, tudo bem?" false)].
Proof.
  destruct (matching_node_is_updated_not_created nat acceptingUpdate acceptingCreate
              [persistedOi] "1" 0 [] [] answeredDraft freshRun persistedOi)
    as [Hloop _].
  - reflexivity.
  - left. reflexivity.
  - right. exists ["oi"], "oi". repeat split; simpl; auto.
  - split; [exact Hloop | reflexivity].
Defined.

(** C6 as the specification states it fails twice.  A node whose response
    is empty is sent with its title as response, not with its response;
    and a node that carries the id of one persisted template and a trigger
    of an earlier one updates the earlier one, the template it is named
    after being left alone. *)
Lemma update_differs_from_the_node_and_its_template :
  (isTemplateNode draftNode = true
   /\ SharesTrigger draftNode persistedOi
   /\ data_response (data draftNode) = Some ""
   /\ calls (reconcileNode nat acceptingUpdate acceptingCreate [persistedOi] "1" 0
               draftNode freshRun)
      = [CallUpdate (mkTemplate "7" ["oi"] "Novo Template" true)])
  /\ (isTemplateNode renamedNode = true
      /\ node_id renamedNode = "template-" +:+ tpl_id persistedPrice
      /\ In persistedPrice [persistedOi; persistedPrice]
      /\ calls (reconcileNode nat acceptingUpdate acceptingCreate
                  [persistedOi; persistedPrice] "1" 0 renamedNode freshRun)
         = [CallUpdate (mkTemplate "7" ["oi"] "Quanto custa?" true)]).
Proof.
  split.
  - split; [reflexivity |]. split; [exact draft_shares_trigger |]. split; reflexivity.
  - split; [reflexivity |]. split; [reflexivity |].
    split; [right; left; reflexivity | reflexivity].
Qed.

(** ** Synthesis: the nodes *)

Section SynthesisNodes.

Lemma unlinked_pushTarget (tgt : string) (n : FlowNode) :
  unlinked (pushTarget tgt n) = unlinked n.
Proof. reflexivity. Qed.

Lemma unlinked_toHuman (n : FlowNode) : unlinked (toHuman n) = toHuman (unlinked n).
Proof. reflexivity. Qed.

Lemma fmap_unlinked_alter (g : FlowNode -> FlowNode) (i : nat) (l : list FlowNode) :
  (forall n, unlinked (g n) = unlinked n) ->
  unlinked <$> alter g i l = unlinked <$> l.
Proof.
  intros Hg. rewrite (list_fmap_alter unlinked g id).
  - apply list_alter_id. reflexivity.
  - apply Forall_forall. intros n _. apply Hg.
Qed.

Lemma nodes_mutateAt_pushTarget (i : nat) (tgt : string) (f : Flow) :
  unlinked <$> flow_nodes (mutateAt i (pushTarget tgt) f) = unlinked <$> flow_nodes f.
Proof. apply fmap_unlinked_alter. intros n. reflexivity. Qed.

Lemma nodes_pushNode (n : FlowNode) (f : Flow) :
  unlinked <$> flow_nodes (pushNode n f) = (unlinked <$> flow_nodes f) ++ [unlinked n].
Proof. unfold pushNode; simpl. apply fmap_snoc. Qed.

Lemma nodes_addWelcome (W : option AutoTemplate) (f : Flow) :
  unlinked <$> flow_nodes (addWelcome W f)
  = (unlinked <$> flow_nodes f)
    ++ (welcomeNodeOf <$> match W with Some w => [w] | None => [] end).
Proof.
  destruct W as [w|]; simpl.
  - rewrite fmap_unlinked_alter by (intros n; reflexivity).
    rewrite fmap_snoc. reflexivity.
  - rewrite app_nil_r. reflexivity.
Qed.

Lemma nodes_addOption (W : option AutoTemplate) (i : nat) (t : AutoTemplate) (f : Flow) :
  unlinked <$> flow_nodes (addOption W i t f)
  = (unlinked <$> flow_nodes f) ++ [optionNodeOf i t].
Proof.
  unfold addOption. destruct W as [w|].
  - rewrite nodes_mutateAt_pushTarget. simpl. rewrite fmap_snoc. reflexivity.
  - simpl. rewrite fmap_snoc. reflexivity.
Qed.

Lemma nodes_addSpecial (M : list AutoTemplate) (i : nat) (t : AutoTemplate) (f : Flow) :
  unlinked <$> flow_nodes (addSpecial M i t f)
  = (unlinked <$> flow_nodes f) ++ [specialNodeOf i t].
Proof.
  unfold addSpecial. destruct (List.find isComprarOption M) as [c|].
  - destruct (findNode _ _) as [[j x]|].
    + rewrite nodes_mutateAt_pushTarget. simpl. rewrite fmap_snoc. reflexivity.
    + simpl. rewrite fmap_snoc. reflexivity.
  - simpl. rewrite fmap_snoc. reflexivity.
Qed.

(** A loop whose body appends one node per element appends them all. *)
Lemma nodes_forEachIndexed {A : Type} (body : nat -> A -> Flow -> Flow)
  (mk : nat -> A -> FlowNode) (l : list A) :
  (forall i x f, unlinked <$> flow_nodes (body i x f)
                 = (unlinked <$> flow_nodes f) ++ [mk i x]) ->
  forall i f,
    unlinked <$> flow_nodes (forEachIndexed body i l f)
    = (unlinked <$> flow_nodes f) ++ mapIndexed mk i l.
Proof.
  intros Hbody. induction l as [|x l IH]; intros i f; simpl.
  - rewrite app_nil_r. reflexivity.
  - rewrite IH, Hbody, <- app_assoc. reflexivity.
Qed.

(** A loop whose body keeps an invariant keeps it. *)
Lemma forEachIndexed_invariant {A St : Type} (P : St -> Prop)
  (body : nat -> A -> St -> St) (l : list A) :
  (forall i x f, P f -> P (body i x f)) ->
  forall i f, P f -> P (forEachIndexed body i l f).
Proof.
  intros Hbody. induction l as [|x l IH]; intros i f Hf; simpl; [exact Hf |].
  apply IH, Hbody, Hf.
Qed.

Lemma nodes_connectLeaves (f : Flow) :
  unlinked <$> flow_nodes (connectLeaves f) = unlinked <$> flow_nodes f.
Proof.
  unfold connectLeaves.
  apply (forEachIndexed_invariant
           (fun f' => unlinked <$> flow_nodes f' = unlinked <$> flow_nodes f)
           connectLeaf); [| reflexivity].
  intros i n f' Hf'. unfold connectLeaf. destruct (isLeaf n); [| exact Hf'].
  rewrite nodes_mutateAt_pushTarget. exact Hf'.
Qed.

Lemma findNode_unlinked (wanted : string) (l : list FlowNode) :
  findNode wanted (unlinked <$> l) = prod_map id unlinked <$> findNode wanted l.
Proof.
  unfold findNode. rewrite list_find_fmap. f_equal.
Qed.

Lemma nodes_retypeHuman (M : list AutoTemplate) (f : Flow) :
  unlinked <$> flow_nodes (retypeHuman M f) = retyped M (unlinked <$> flow_nodes f).
Proof.
  unfold retypeHuman, retyped. destruct (List.find isHumanOption M) as [h|]; [| reflexivity].
  rewrite findNode_unlinked.
  destruct (findNode (templateNodeId h) (flow_nodes f)) as [[i x]|]; simpl; [| reflexivity].
  apply list_fmap_alter. apply Forall_forall. intros n _. reflexivity.
Qed.

(** The nodes of the synthesized graph, outgoing lists aside: the created
    nodes with the human option retyped, then the end node. *)
Lemma synthesized_nodes (templates : list AutoTemplate) :
  unlinked <$> flow_nodes (convertTemplatesToFlow templates)
  = retyped (menuOptionsOf templates) (createdNodes templates) ++ [endNode].
Proof.
  unfold convertTemplatesToFlow.
  rewrite nodes_connectLeaves, nodes_pushNode, nodes_retypeHuman.
  rewrite (nodes_forEachIndexed _ specialNodeOf _ (nodes_addSpecial _)).
  rewrite (nodes_forEachIndexed _ optionNodeOf _ (nodes_addOption _)).
  rewrite nodes_addWelcome. simpl. unfold createdNodes, welcomeList.
  rewrite <- app_assoc. reflexivity.
Qed.

End SynthesisNodes.

(** ** Synthesis: the menu options *)

Section MenuOptions.

Lemma In_insertStable {A : Type} (cmp : A -> A -> Z) (x y : A) (l : list A) :
  In y (Js.insertStable cmp x l) <-> y = x \/ In y l.
Proof.
  induction l as [|z l IH]; simpl.
  - intuition congruence.
  - destruct (cmp x z <=? 0)%Z; simpl; [intuition congruence |].
    rewrite IH. intuition congruence.
Qed.

Lemma In_sort {A : Type} (cmp : A -> A -> Z) (y : A) (l : list A) :
  In y (Js.sort cmp l) <-> In y l.
Proof.
  unfold Js.sort. induction l as [|x l IH]; simpl; [reflexivity |].
  rewrite In_insertStable, IH. intuition congruence.
Qed.

Lemma Ascending_insert (x : AutoTemplate) (l : list AutoTemplate) :
  Ascending l -> Ascending (Js.insertStable byMenuNumber x l).
Proof.
  induction l as [|y l IH]; simpl; intros Hl.
  - split; [constructor | exact I].
  - destruct Hl as [Hy Hl]. unfold byMenuNumber at 1.
    destruct (menuNumber x - menuNumber y <=? 0)%Z eqn:E.
    + apply Z.leb_le in E. simpl. split; [| split; assumption].
      constructor; [lia |].
      eapply Forall_impl; [exact Hy |]. simpl. intros b Hb. lia.
    + apply Z.leb_gt in E. simpl. split; [| apply IH; exact Hl].
      apply Forall_forall. intros b Hb. apply list_elem_of_In in Hb.
      apply In_insertStable in Hb as [-> | Hb]; [lia |].
      rewrite Forall_forall in Hy. apply Hy, list_elem_of_In, Hb.
Qed.

Lemma Ascending_sort (l : list AutoTemplate) : Ascending (Js.sort byMenuNumber l).
Proof.
  unfold Js.sort. induction l as [|x l IH]; simpl; [exact I |].
  apply Ascending_insert, IH.
Qed.

(** Sorting a list that is already in ascending order changes nothing. *)
Lemma sort_Ascending (l : list AutoTemplate) :
  Ascending l -> Js.sort byMenuNumber l = l.
Proof.
  unfold Js.sort. induction l as [|x l IH]; simpl; [reflexivity |].
  intros [Hx Hl]. rewrite (IH Hl). destruct l as [|y l]; [reflexivity |].
  simpl. unfold byMenuNumber at 1.
  apply Forall_cons in Hx as [Hxy _].
  destruct (menuNumber x - menuNumber y <=? 0)%Z eqn:E; [reflexivity |].
  apply Z.leb_gt in E. lia.
Qed.

Lemma In_menuOptionsOf (templates : list AutoTemplate) (t : AutoTemplate) :
  In t (menuOptionsOf templates) <->
  In t templates /\ hasMenuDigit t = true /\ isGreeting t = false.
Proof.
  unfold menuOptionsOf. rewrite In_sort, List.filter_In. unfold isMenuOption.
  rewrite andb_true_iff, negb_true_iff. reflexivity.
Qed.

Lemma hasMenuDigit_spec (t : AutoTemplate) : hasMenuDigit t = true <-> MeetsDigits t.
Proof.
  unfold hasMenuDigit, MeetsDigits. rewrite existsb_exists.
  split; intros (d & Hd & H); exists d; (split; [exact Hd |]).
  - apply arrIncludes_spec. exact H.
  - apply arrIncludes_spec. exact H.
Qed.

Lemma isGreeting_spec (t : AutoTemplate) : isGreeting t = true <-> MeetsGreetings t.
Proof.
  unfold isGreeting, someTriggerIn, MeetsGreetings. rewrite existsb_exists.
  split; intros (g & Hg & H); exists g; (split; [exact Hg |]).
  - apply arrIncludes_spec. exact H.
  - apply arrIncludes_spec. exact H.
Qed.

Lemma In_menuOptionsOf_spec (templates : list AutoTemplate) (t : AutoTemplate) :
  In t (menuOptionsOf templates) <->
  In t templates /\ MeetsDigits t /\ ~ MeetsGreetings t.
Proof.
  rewrite In_menuOptionsOf, <- hasMenuDigit_spec, <- isGreeting_spec.
  destruct (isGreeting t); intuition congruence.
Qed.

Lemma lookup_mapIndexed {A B : Type} (g : nat -> A -> B) (l : list A) :
  forall i k, mapIndexed g i l !! k = g (i + k) <$> l !! k.
Proof.
  induction l as [|x l IH]; intros i k; [reflexivity |].
  destruct k as [|k]; simpl.
  - rewrite Nat.add_0_r. reflexivity.
  - rewrite IH. replace (S i + k) with (i + S k) by lia. reflexivity.
Qed.

Lemma length_mapIndexed {A B : Type} (g : nat -> A -> B) (l : list A) (i : nat) :
  length (mapIndexed g i l) = length l.
Proof. revert i. induction l as [|x l IH]; intros i; simpl; [| rewrite IH]; reflexivity. Qed.

Lemma In_mapIndexed {A B : Type} (g : nat -> A -> B) (l : list A) (i : nat) (y : B) :
  In y (mapIndexed g i l) -> exists k x, In x l /\ y = g k x.
Proof.
  revert i. induction l as [|x l IH]; intros i; simpl; [intros [] |].
  intros [<- | H].
  - exists i, x. split; [left |]; reflexivity.
  - destruct (IH _ H) as (k & x' & Hin & ->). exists k, x'. split; [right; exact Hin | reflexivity].
Qed.

(** The [k]-th menu option is created at position [1 + welcome + k]. *)
Lemma createdNodes_option (templates : list AutoTemplate) (k : nat) (t : AutoTemplate) :
  menuOptionsOf templates !! k = Some t ->
  createdNodes templates !! (1 + length (welcomeList templates) + k)
  = Some (optionNodeOf k t).
Proof.
  intros Hk. unfold createdNodes. simpl.
  rewrite lookup_app_r by (rewrite length_fmap; lia).
  rewrite length_fmap.
  replace (length (welcomeList templates) + k - length (welcomeList templates)) with k by lia.
  rewrite lookup_app_l.
  - rewrite lookup_mapIndexed, Hk. reflexivity.
  - rewrite length_mapIndexed. apply lookup_lt_Some in Hk. exact Hk.
Qed.

Lemma retyped_lookup (M : list AutoTemplate) (l : list FlowNode) (j : nat) (x : FlowNode) :
  l !! j = Some x ->
  retyped M l !! j = Some x \/ retyped M l !! j = Some (toHuman x).
Proof.
  intros Hj. unfold retyped. destruct (List.find isHumanOption M) as [h|]; [| left; exact Hj].
  destruct (findNode (templateNodeId h) l) as [[i y]|]; [| left; exact Hj].
  rewrite list_lookup_alter. destruct (decide (i = j)) as [-> | Hne].
  - right. rewrite Hj. reflexivity.
  - left. exact Hj.
Qed.

(** The node standing for the [k]-th menu option in the synthesized graph. *)
Lemma synthesized_option_node (templates : list AutoTemplate) (k : nat) (t : AutoTemplate) :
  menuOptionsOf templates !! k = Some t ->
  exists n,
    flow_nodes (convertTemplatesToFlow templates)
      !! (1 + length (welcomeList templates) + k) = Some n
    /\ node_id n = templateNodeId t
    /\ triggers (data n) = Some (trigger t)
    /\ data_response (data n) = Some (response t)
    /\ data_active (data n) = Some (active t)
    /\ (node_type n = NodeMessage \/ node_type n = NodeHuman).
Proof.
  intros Hk.
  pose proof (synthesized_nodes templates) as Hskel.
  pose proof (createdNodes_option templates k t Hk) as Hcreated.
  apply (retyped_lookup (menuOptionsOf templates)) in Hcreated.
  assert (Hlook : exists n', (unlinked <$> flow_nodes (convertTemplatesToFlow templates))
                             !! (1 + length (welcomeList templates) + k) = Some n'
                             /\ (n' = optionNodeOf k t \/ n' = toHuman (optionNodeOf k t))).
  { rewrite Hskel. destruct Hcreated as [H | H].
    - exists (optionNodeOf k t). split; [| left; reflexivity].
      rewrite lookup_app_l; [exact H | apply lookup_lt_Some in H; exact H].
    - exists (toHuman (optionNodeOf k t)). split; [| right; reflexivity].
      rewrite lookup_app_l; [exact H | apply lookup_lt_Some in H; exact H]. }
  destruct Hlook as (n' & Hn' & Hcase).
  rewrite list_lookup_fmap in Hn'.
  destruct (flow_nodes (convertTemplatesToFlow templates)
              !! (1 + length (welcomeList templates) + k)) as [n|]; [| discriminate].
  simpl in Hn'. injection Hn' as Hn'. exists n. split; [reflexivity |].
  assert (Hid : node_id n = node_id n') by (rewrite <- Hn'; reflexivity).
  assert (Hdata : data n = data n') by (rewrite <- Hn'; reflexivity).
  assert (Htype : node_type n = node_type n') by (rewrite <- Hn'; reflexivity).
  rewrite Hid, Hdata, Htype.
  destruct Hcase as [-> | ->]; simpl; repeat split; auto.
Qed.

End MenuOptions.

(** ** Synthesis: the connections *)

Section SynthesisConnections.

Lemma connections_addOption_grow (W : option AutoTemplate) (i : nat) (t : AutoTemplate)
  (f : Flow) (c : FlowConnection) :
  In c (flow_connections f) -> In c (flow_connections (addOption W i t f)).
Proof.
  unfold addOption. destruct W as [w|]; simpl; [| auto].
  intros H. apply in_or_app. left. exact H.
Qed.

Lemma connections_addSpecial_grow (M : list AutoTemplate) (i : nat) (t : AutoTemplate)
  (f : Flow) (c : FlowConnection) :
  In c (flow_connections f) -> In c (flow_connections (addSpecial M i t f)).
Proof.
  unfold addSpecial. destruct (List.find isComprarOption M) as [o|]; [| auto].
  destruct (findNode _ _) as [[j x]|]; simpl; intros H; apply in_or_app; left; exact H.
Qed.

Lemma connections_connectLeaf_grow (i : nat) (n : FlowNode) (f : Flow) (c : FlowConnection) :
  In c (flow_connections f) -> In c (flow_connections (connectLeaf i n f)).
Proof.
  unfold connectLeaf. destruct (isLeaf n); simpl; [| auto].
  intros H. apply in_or_app. left. exact H.
Qed.

Lemma connections_retypeHuman (M : list AutoTemplate) (f : Flow) :
  flow_connections (retypeHuman M f) = flow_connections f.
Proof.
  unfold retypeHuman. destruct (List.find isHumanOption M) as [h|]; [| reflexivity].
  destruct (findNode _ _) as [[j x]|]; reflexivity.
Qed.

(** The option loop wires every option to the welcome node. *)
Lemma connections_options (w : AutoTemplate) (M : list AutoTemplate) (t : AutoTemplate) :
  In t M ->
  forall i f,
    In (mkConnection (templateNodeId w) (templateNodeId t))
       (flow_connections (forEachIndexed (addOption (Some w)) i M f)).
Proof.
  induction M as [|x M IH]; intros Hin i f; [destruct Hin |].
  simpl. destruct Hin as [-> | Hin].
  - apply (forEachIndexed_invariant
             (fun f' => In (mkConnection (templateNodeId w) (templateNodeId t))
                           (flow_connections f'))).
    + intros j y f' H. apply connections_addOption_grow. exact H.
    + simpl. apply in_or_app. right. left. reflexivity.
  - apply IH. exact Hin.
Qed.

(** A connection made by the option loop survives the later steps. *)
Lemma connections_kept (templates : list AutoTemplate) (c : FlowConnection) :
  In c (flow_connections
          (forEachIndexed (addOption (List.find isGreeting templates)) 0
             (menuOptionsOf templates)
             (addWelcome (List.find isGreeting templates)
                {| flow_nodes := [startNode]; flow_connections := [] |}))) ->
  In c (flow_connections (convertTemplatesToFlow templates)).
Proof.
  intros H. unfold convertTemplatesToFlow, connectLeaves.
  apply (forEachIndexed_invariant (fun f' => In c (flow_connections f'))).
  - intros j y f' H'. apply connections_connectLeaf_grow. exact H'.
  - simpl. rewrite connections_retypeHuman.
    apply (forEachIndexed_invariant (fun f' => In c (flow_connections f'))).
    + intros j y f' H'. apply connections_addSpecial_grow. exact H'.
    + exact H.
Qed.

Lemma templateNodeId_not_start (t : AutoTemplate) : templateNodeId t <> node_id startNode.
Proof. unfold templateNodeId. simpl. discriminate. Qed.

Lemma Forall_snoc_intro {A : Type} (P : A -> Prop) (l : list A) (x : A) :
  Forall P l -> P x -> Forall P (l ++ [x]).
Proof.
  intros Hl Hx. apply Forall_app.
  split; [exact Hl | constructor; [exact Hx | constructor]].
Qed.

(** Without a welcome node nothing is ever wired to the start node. *)
Lemma no_connection_from_start (templates : list AutoTemplate) :
  List.find isGreeting templates = None ->
  Forall fromTemplateNode (flow_connections (convertTemplatesToFlow templates)).
Proof.
  intros HW. unfold convertTemplatesToFlow, connectLeaves. rewrite HW.
  apply (forEachIndexed_invariant (fun f' => Forall fromTemplateNode (flow_connections f'))).
  - intros j n f' H'. unfold connectLeaf. destruct (isLeaf n) eqn:Hleaf; [| exact H'].
    simpl. apply Forall_snoc_intro; [exact H' |].
    unfold fromTemplateNode. simpl. unfold isLeaf in Hleaf.
    apply andb_true_iff in Hleaf as [Hleaf _]. apply andb_true_iff in Hleaf as [_ Hleaf].
    apply negb_true_iff in Hleaf. apply String.eqb_neq in Hleaf. exact Hleaf.
  - simpl. rewrite connections_retypeHuman.
    apply (forEachIndexed_invariant (fun f' => Forall fromTemplateNode (flow_connections f'))).
    + intros j t f' H'. unfold addSpecial.
      destruct (List.find isComprarOption _) as [o|]; [| exact H'].
      assert (Hpush : Forall fromTemplateNode
                        (flow_connections f'
                         ++ [mkConnection (templateNodeId o) (node_id (specialNodeOf j t))])).
      { apply Forall_snoc_intro; [exact H' | apply templateNodeId_not_start]. }
      destruct (findNode _ _) as [[i x]|]; exact Hpush.
    + apply (forEachIndexed_invariant
               (fun f' => Forall fromTemplateNode (flow_connections f'))).
      * intros j t f' H'. exact H'.
      * constructor.
Qed.

(** C3 (as amended).  During synthesis, every template whose triggers
    meet the digits 1 to 5 and do not meet the greeting vocabulary becomes
    a node of the graph, of type message or, for the option retyped for
    human handoff, human; these nodes stand in the node list in ascending
    order of the numeric trigger found, right after the start node and the
    welcome node; each one receives a connection from the welcome node
    when a welcome node exists, and when none exists no connection leaves
    the start node at all. *)
Theorem menu_options_become_ordered_nodes (templates : list AutoTemplate) :
  let flow := convertTemplatesToFlow templates in
  let menuOptions := menuOptionsOf templates in
  (forall t, In t menuOptions <->
             In t templates /\ MeetsDigits t /\ ~ MeetsGreetings t)
  /\ Ascending menuOptions
  /\ (forall k t, menuOptions !! k = Some t ->
        exists n,
          flow_nodes flow !! (1 + length (welcomeList templates) + k) = Some n
          /\ node_id n = templateNodeId t
          /\ triggers (data n) = Some (trigger t)
          /\ data_response (data n) = Some (response t)
          /\ data_active (data n) = Some (active t)
          /\ (node_type n = NodeMessage \/ node_type n = NodeHuman))
  /\ (forall w t, List.find isGreeting templates = Some w -> In t menuOptions ->
        In (mkConnection (templateNodeId w) (templateNodeId t)) (flow_connections flow))
  /\ (List.find isGreeting templates = None ->
        Forall (fun c => source c <> "start-1") (flow_connections flow)).
Proof.
  intros flow menuOptions. split; [| split; [| split; [| split]]].
  - intros t. apply In_menuOptionsOf_spec.
  - apply Ascending_sort.
  - intros k t Hk. apply synthesized_option_node. exact Hk.
  - intros w t HW Hin. apply connections_kept. rewrite HW.
    apply connections_options. exact Hin.
  - intros HW. apply no_connection_from_start. exact HW.
Qed.

End SynthesisConnections.

(** On the small menu the option with trigger 3, retyped to human, is
    wired to the welcome node like the others. *)
Lemma menu_options_become_ordered_nodes_witness :
  In (mkConnection "template-1" "template-4")
     (flow_connections (convertTemplatesToFlow smallMenu)).
Proof.
  destruct (menu_options_become_ordered_nodes smallMenu) as (_ & _ & _ & Hwired & _).
  apply (Hwired (mkTemplate "1" ["oi"; "menu"] "Olá {name}" true)
                (mkTemplate "4" ["3"] "Benefícios" true)).
  - reflexivity.
  - vm_compute. auto.
Defined.

(** C3 as the specification states it fails on a template list with a
    menu option and no greeting: the option node gets no connection from
    the start node. *)
Lemma lone_option_is_not_wired_to_start :
  isMenuOption loneOption = true
  /\ List.find isGreeting [loneOption] = None
  /\ flow_connections (convertTemplatesToFlow [loneOption])
     = [mkConnection "template-2" "end-1"]
  /\ ~ (exists c, In c (flow_connections (convertTemplatesToFlow [loneOption]))
                  /\ source c = "start-1" /\ target c = "template-2").
Proof.
  split; [reflexivity |]. split; [reflexivity |]. split; [reflexivity |].
  intros (c & [<- | []] & Hsource & _). discriminate Hsource.
Qed.

(** On the small menu the option with trigger 3 ends up as a human node,
    not as a message node. *)
Lemma third_option_becomes_human :
  node_type <$> flow_nodes (convertTemplatesToFlow smallMenu)
  = [NodeStart; NodeMessage; NodeMessage; NodeMessage; NodeHuman; NodeEnd]
  /\ node_id <$> flow_nodes (convertTemplatesToFlow smallMenu)
     = ["start-1"; "template-1"; "template-2"; "template-3"; "template-4"; "end-1"].
Proof. split; reflexivity. Qed.

(** ** Synthesis: the tuples of the graph *)

Section SynthesisTuples.

Lemma omap_alter_same {A B : Type} (f : A -> option B) (g : A -> A) (l : list A) :
  forall i x, l !! i = Some x -> f (g x) = f x -> omap f (alter g i l) = omap f l.
Proof.
  induction l as [|y l IH]; intros i x Hi Hg; [reflexivity |].
  destruct i as [|i]; csimpl in *.
  - injection Hi as ->. rewrite Hg. reflexivity.
  - rewrite (IH i x Hi Hg). reflexivity.
Qed.

Lemma omap_unlinked (l : list FlowNode) :
  omap nodeTuple (unlinked <$> l) = omap nodeTuple l.
Proof.
  induction l as [|n l IH]; [reflexivity |]. csimpl. rewrite IH. reflexivity.
Qed.

Lemma tuples_options (M : list AutoTemplate) (i : nat) :
  omap nodeTuple (mapIndexed optionNodeOf i M) = templateTuple <$> M.
Proof.
  revert i. induction M as [|t M IH]; intros i; [reflexivity |].
  csimpl. rewrite IH. reflexivity.
Qed.

Lemma tuples_specials (S : list AutoTemplate) (i : nat) :
  omap nodeTuple (mapIndexed specialNodeOf i S) = [].
Proof.
  revert i. induction S as [|t S IH]; intros i; [reflexivity |].
  csimpl. rewrite IH. reflexivity.
Qed.

Lemma tuples_welcome (l : list AutoTemplate) :
  omap nodeTuple (welcomeNodeOf <$> l) = templateTuple <$> l.
Proof.
  induction l as [|w l IH]; [reflexivity |]. csimpl. rewrite IH. reflexivity.
Qed.

Lemma tuples_created (templates : list AutoTemplate) :
  omap nodeTuple (createdNodes templates)
  = templateTuple <$> (welcomeList templates ++ menuOptionsOf templates).
Proof.
  unfold createdNodes. change (startNode :: ?l) with ([startNode] ++ l).
  rewrite !omap_app, tuples_options, tuples_specials, tuples_welcome, app_nil_r, fmap_app.
  reflexivity.
Qed.

(** The node retyped for human handoff is a message node: the search by
    id stops at the welcome node or at an option node. *)
Lemma retyped_node_is_message (templates : list AutoTemplate) (h : AutoTemplate)
  (i : nat) (x : FlowNode) :
  In h (menuOptionsOf templates) ->
  findNode (templateNodeId h) (createdNodes templates) = Some (i, x) ->
  node_type x = NodeMessage.
Proof.
  intros Hin Hfind. unfold findNode in Hfind.
  apply list_find_Some in Hfind as (Hi & Hid & Hfirst).
  apply list_elem_of_In, list_elem_of_lookup_1 in Hin as [k Hk].
  pose proof (createdNodes_option templates k h Hk) as Hopt.
  assert (Hle : i <= 1 + length (welcomeList templates) + k).
  { destruct (Nat.le_gt_cases i (1 + length (welcomeList templates) + k)) as [H | H];
      [exact H |].
    exfalso. apply (Hfirst _ _ Hopt H). reflexivity. }
  apply lookup_lt_Some in Hk.
  unfold createdNodes in Hi. destruct i as [|i].
  - simpl in Hi. injection Hi as <-. exfalso.
    apply (templateNodeId_not_start h). symmetry. exact Hid.
  - simpl in Hi. rewrite app_assoc in Hi. rewrite lookup_app_l in Hi.
    + apply list_elem_of_lookup_2, list_elem_of_In, in_app_or in Hi as [Hw | Ho].
      * apply list_elem_of_In, list_elem_of_fmap in Hw as (w & -> & _). reflexivity.
      * apply In_mapIndexed in Ho as (k' & t & _ & ->). reflexivity.
    + rewrite length_app, length_fmap, length_mapIndexed. lia.
Qed.

Lemma tuples_retyped (templates : list AutoTemplate) :
  omap nodeTuple (retyped (menuOptionsOf templates) (createdNodes templates))
  = omap nodeTuple (createdNodes templates).
Proof.
  unfold retyped.
  destruct (List.find isHumanOption (menuOptionsOf templates)) as [h|] eqn:Hh;
    [| reflexivity].
  apply List.find_some in Hh as [Hin _].
  destruct (findNode (templateNodeId h) (createdNodes templates)) as [[i x]|] eqn:Hfind;
    [| reflexivity].
  pose proof (retyped_node_is_message templates h i x Hin Hfind) as Htype.
  unfold findNode in Hfind. apply list_find_Some in Hfind as (Hi & _ & _).
  apply (omap_alter_same nodeTuple toHuman _ i x Hi).
  unfold nodeTuple, isTemplateNode. simpl. rewrite Htype. reflexivity.
Qed.

(** The message and human nodes of the synthesized graph say what the
    welcome template and the menu options say, in that order. *)
Lemma synthesized_tuples (templates : list AutoTemplate) :
  graphTuples (convertTemplatesToFlow templates)
  = templateTuple <$> (welcomeList templates ++ menuOptionsOf templates).
Proof.
  unfold graphTuples. rewrite <- omap_unlinked, synthesized_nodes, omap_app.
  rewrite tuples_retyped, tuples_created. simpl. apply app_nil_r.
Qed.

End SynthesisTuples.

(** ** Flattening and the round trip *)

Section RoundTrip.

Variable Store : Type.
Variable updateAutoTemplateInDatabase : AutoTemplate -> Store -> Store * bool.
Variable createAutoTemplateInDatabase :
  AutoTemplate -> string -> Store -> Store * (string + option string).

#[local] Abbreviation reconcileNode' := (reconcileNode Store updateAutoTemplateInDatabase
                              createAutoTemplateInDatabase).
#[local] Abbreviation reconcileNodes' := (reconcileNodes Store updateAutoTemplateInDatabase
                               createAutoTemplateInDatabase).

#[local] Abbreviation sentTuples r := (templateTuple <$> flattened r).

Lemma sentTuples_snoc (r r' : Reconciling Store) (c : StoreCall) (t : AutoTemplate) :
  calls r' = calls r ++ [c] -> templateOfCall c = Some t ->
  sentTuples r' = sentTuples r ++ [templateTuple t].
Proof.
  intros Hc Ht. unfold flattened. rewrite Hc, omap_app, fmap_app. csimpl.
  rewrite Ht. reflexivity.
Qed.

Lemma reconcileNode_skip (existing : list AutoTemplate) (project : string) (now : Z)
  (n : FlowNode) (r : Reconciling Store) :
  nodeTuple n = None -> reconcileNode' existing project now n r = r.
Proof.
  unfold nodeTuple, reconcileNode. destruct (isTemplateNode n); [discriminate | reflexivity].
Qed.

(** Whichever branch the loop takes for a full node, the template it hands
    to the store says what the node says. *)
Lemma reconcileNode_tuple (existing : list AutoTemplate) (project : string) (now : Z)
  (n : FlowNode) (r : Reconciling Store) (trs : list string) (resp : string) (flag : bool) :
  nodeTuple n = Some (Some trs, Some resp, Some flag) -> resp <> "" ->
  sentTuples (reconcileNode' existing project now n r)
  = sentTuples r ++ [(Some trs, Some resp, Some flag)].
Proof.
  intros Htu Hresp. unfold nodeTuple in Htu.
  destruct (isTemplateNode n) eqn:Hnode; [| discriminate].
  injection Htu as Htrs Hr Hflag. apply truthy_spec in Hresp.
  assert (Hact : activeOf n = flag).
  { unfold activeOf. rewrite Hflag. destruct flag; reflexivity. }
  unfold reconcileNode. rewrite Hnode.
  destruct (List.find (sameTemplate n) existing) as [e|].
  - destruct (updateAutoTemplateInDatabase (updatedTemplateOf n e) (store r)) as [st ok].
    erewrite sentTuples_snoc; [| reflexivity | reflexivity].
    unfold templateTuple, updatedTemplateOf. simpl.
    rewrite Htrs, Hr, Hact. simpl. rewrite Hresp. reflexivity.
  - destruct (createAutoTemplateInDatabase (newTemplateOf now (orderIndex r) n) project
                (store r)) as [st reply].
    assert (Hnew : templateTuple (newTemplateOf now (orderIndex r) n)
                   = (Some trs, Some resp, Some flag)).
    { unfold templateTuple, newTemplateOf. simpl.
      rewrite Htrs, Hr, Hact. simpl. rewrite Hresp. reflexivity. }
    destruct reply as [message | [newId|]];
      (erewrite sentTuples_snoc; [| reflexivity | reflexivity]); rewrite Hnew; reflexivity.
Qed.

Lemma reconcileNodes_tuples (existing : list AutoTemplate) (project : string) (now : Z)
  (ns : list FlowNode) :
  Forall HasFullTuple ns ->
  forall r, sentTuples (reconcileNodes' existing project now ns r)
            = sentTuples r ++ omap nodeTuple ns.
Proof.
  induction 1 as [|n ns Hn _ IH]; intros r.
  - simpl. rewrite app_nil_r. reflexivity.
  - unfold reconcileNodes in *. simpl. rewrite IH. csimpl.
    destruct (nodeTuple n) as [tu|] eqn:Htu.
    + destruct (Hn tu Htu) as (trs & resp & flag & -> & Hresp).
      rewrite (reconcileNode_tuple _ _ _ _ _ _ _ _ Htu Hresp), <- app_assoc. reflexivity.
    + rewrite (reconcileNode_skip _ _ _ _ _ Htu). reflexivity.
Qed.

End RoundTrip.

Section Classification.

Lemma SameContent_of_tuples (l l' : list AutoTemplate) :
  templateTuple <$> l = templateTuple <$> l' -> Forall2 SameContent l l'.
Proof.
  revert l'. induction l as [|a l IH]; intros [|b l'] H; try discriminate H.
  - constructor.
  - injection H as Ht Hr Ha Hl. constructor; [repeat split; assumption | apply IH, Hl].
Qed.

Lemma tuples_of_SameContent (l l' : list AutoTemplate) :
  Forall2 SameContent l l' -> templateTuple <$> l = templateTuple <$> l'.
Proof.
  induction 1 as [|a b l l' (Ht & Hr & Ha) _ IH]; [reflexivity |].
  csimpl. unfold templateTuple at 1 3. rewrite Ht, Hr, Ha, IH. reflexivity.
Qed.

Lemma SameContent_isGreeting (a b : AutoTemplate) :
  SameContent a b -> isGreeting a = isGreeting b.
Proof. intros (Ht & _). unfold isGreeting, someTriggerIn. rewrite Ht. reflexivity. Qed.

Lemma SameContent_isMenuOption (a b : AutoTemplate) :
  SameContent a b -> isMenuOption a = isMenuOption b.
Proof.
  intros H. unfold isMenuOption, hasMenuDigit.
  rewrite (SameContent_isGreeting a b H). destruct H as (-> & _). reflexivity.
Qed.

Lemma SameContent_menuNumber (a b : AutoTemplate) :
  SameContent a b -> menuNumber a = menuNumber b.
Proof. intros (Ht & _). unfold menuNumber, optionDigit. rewrite Ht. reflexivity. Qed.

Lemma SameContent_welcomeList (l l' : list AutoTemplate) :
  Forall2 SameContent l l' -> Forall2 SameContent (welcomeList l) (welcomeList l').
Proof.
  unfold welcomeList. induction 1 as [|a b l l' Hab _ IH]; simpl; [constructor |].
  rewrite <- (SameContent_isGreeting a b Hab).
  destruct (isGreeting a); [constructor; [exact Hab | constructor] | exact IH].
Qed.

Lemma SameContent_filter (l l' : list AutoTemplate) :
  Forall2 SameContent l l' ->
  Forall2 SameContent (List.filter isMenuOption l) (List.filter isMenuOption l').
Proof.
  induction 1 as [|a b l l' Hab _ IH]; simpl; [constructor |].
  rewrite <- (SameContent_isMenuOption a b Hab).
  destruct (isMenuOption a); [constructor; assumption | exact IH].
Qed.

Lemma SameContent_insert (a b : AutoTemplate) (l l' : list AutoTemplate) :
  SameContent a b -> Forall2 SameContent l l' ->
  Forall2 SameContent (Js.insertStable byMenuNumber a l) (Js.insertStable byMenuNumber b l').
Proof.
  intros Hab. induction 1 as [|x y l l' Hxy Hl IH]; simpl.
  - constructor; [exact Hab | constructor].
  - unfold byMenuNumber at 1 3.
    rewrite <- (SameContent_menuNumber a b Hab), <- (SameContent_menuNumber x y Hxy).
    destruct (menuNumber a - menuNumber x <=? 0)%Z.
    + constructor; [exact Hab | constructor; assumption].
    + constructor; [exact Hxy | exact IH].
Qed.

Lemma SameContent_menuOptionsOf (l l' : list AutoTemplate) :
  Forall2 SameContent l l' ->
  Forall2 SameContent (menuOptionsOf l) (menuOptionsOf l').
Proof.
  intros H. apply SameContent_filter in H. unfold menuOptionsOf, Js.sort.
  induction H as [|a b m m' Hab _ IH]; simpl; [constructor |].
  apply SameContent_insert; assumption.
Qed.

Lemma filter_all {A : Type} (f : A -> bool) (l : list A) :
  (forall x, In x l -> f x = true) -> List.filter f l = l.
Proof.
  induction l as [|x l IH]; intros H; simpl; [reflexivity |].
  rewrite (H x (or_introl eq_refl)), IH; [reflexivity |].
  intros y Hy. apply H. right. exact Hy.
Qed.

Lemma filter_none {A : Type} (f : A -> bool) (l : list A) :
  (forall x, In x l -> f x = false) -> List.filter f l = [].
Proof.
  induction l as [|x l IH]; intros H; simpl; [reflexivity |].
  rewrite (H x (or_introl eq_refl)). apply IH.
  intros y Hy. apply H. right. exact Hy.
Qed.

Lemma welcomeList_greeting (templates : list AutoTemplate) (w : AutoTemplate) :
  In w (welcomeList templates) -> isGreeting w = true.
Proof.
  unfold welcomeList. destruct (List.find isGreeting templates) as [w'|] eqn:E; [| intros []].
  intros [<- | []]. apply List.find_some in E as [_ E]. exact E.
Qed.

Lemma menuOption_not_greeting (templates : list AutoTemplate) (t : AutoTemplate) :
  In t (menuOptionsOf templates) -> isGreeting t = false /\ isMenuOption t = true.
Proof.
  intros H. apply In_menuOptionsOf in H as (_ & Hd & Hg).
  split; [exact Hg |]. unfold isMenuOption. rewrite Hd, Hg. reflexivity.
Qed.

(** The classified templates classify as themselves: the welcome template
    is still the first greeting and the menu options are still the menu
    options, in the same order. *)
Lemma classification_is_stable (templates : list AutoTemplate) :
  let kept := welcomeList templates ++ menuOptionsOf templates in
  welcomeList kept = welcomeList templates
  /\ menuOptionsOf kept = menuOptionsOf templates.
Proof.
  intros kept. subst kept. split.
  - pose proof (welcomeList_greeting templates) as Hw.
    unfold welcomeList at 1.
    destruct (welcomeList templates) as [|w rest] eqn:E.
    + simpl. rewrite find_none; [reflexivity |].
      apply Forall_forall. intros t Ht. apply list_elem_of_In in Ht.
      apply (menuOption_not_greeting templates t Ht).
    + simpl. rewrite (Hw w (or_introl eq_refl)).
      unfold welcomeList in E. destruct (List.find isGreeting templates); [| discriminate E].
      injection E as -> <-. reflexivity.
  - unfold menuOptionsOf at 1. rewrite List.filter_app.
    rewrite (filter_none isMenuOption (welcomeList templates)).
    + simpl. rewrite filter_all.
      * apply sort_Ascending. apply Ascending_sort.
      * intros t Ht. apply (menuOption_not_greeting templates t Ht).
    + intros w Hw. unfold isMenuOption.
      rewrite (welcomeList_greeting templates w Hw). apply andb_false_r.
Qed.

End Classification.

Section RoundTripTheorem.

Variable Store : Type.
Variable updateAutoTemplateInDatabase : AutoTemplate -> Store -> Store * bool.
Variable createAutoTemplateInDatabase :
  AutoTemplate -> string -> Store -> Store * (string + option string).

(** Every message or human node of a graph synthesized from templates with
    responses has a full tuple. *)
Lemma synthesized_nodes_full (templates : list AutoTemplate) :
  Forall (fun t => response t <> "") (welcomeList templates ++ menuOptionsOf templates) ->
  Forall HasFullTuple (flow_nodes (convertTemplatesToFlow templates)).
Proof.
  intros Hresp. apply Forall_forall. intros n Hn tu Htu.
  assert (Hin : tu ∈ graphTuples (convertTemplatesToFlow templates)).
  { unfold graphTuples. apply list_elem_of_omap. exists n. split; assumption. }
  rewrite synthesized_tuples in Hin.
  apply list_elem_of_fmap in Hin as (t & -> & Ht).
  exists (trigger t), (response t), (active t). split; [reflexivity |].
  rewrite Forall_forall in Hresp. apply Hresp, Ht.
Qed.

(** Flattening hands over the tuples of the graph, and synthesis gives
    them back. *)
Lemma flatten_then_synthesize (templates existing : list AutoTemplate)
  (project : string) (now : Z) (st : Store) :
  Forall (fun t => response t <> "") (welcomeList templates ++ menuOptionsOf templates) ->
  let graph := convertTemplatesToFlow templates in
  let flat :=
    flattened (reconcileNodes Store updateAutoTemplateInDatabase
                 createAutoTemplateInDatabase existing project now
                 (flow_nodes graph) (startRun st)) in
  templateTuple <$> flat = graphTuples graph
  /\ graphTuples (convertTemplatesToFlow flat) = graphTuples graph.
Proof.
  intros Hresp graph flat.
  assert (Hflat : templateTuple <$> flat = graphTuples graph).
  { subst flat.
    rewrite (reconcileNodes_tuples Store updateAutoTemplateInDatabase
               createAutoTemplateInDatabase _ _ _ _
               (synthesized_nodes_full templates Hresp)).
    reflexivity. }
  split; [exact Hflat |].
  rewrite (synthesized_tuples flat). subst graph.
  rewrite (synthesized_tuples templates) in *.
  apply SameContent_of_tuples in Hflat.
  destruct (classification_is_stable templates) as [Hw Hm].
  rewrite fmap_app.
  rewrite (tuples_of_SameContent _ _ (SameContent_welcomeList _ _ Hflat)).
  rewrite (tuples_of_SameContent _ _ (SameContent_menuOptionsOf _ _ Hflat)).
  rewrite Hw, Hm, <- fmap_app. reflexivity.
Qed.

(** C2 (as amended).  For every template list in which the templates that
    synthesis places as message or human nodes (the welcome template and
    the menu options) have a response that is not empty: flattening the
    graph freshly synthesized from it, whatever templates are persisted
    and whatever the store answers, hands over one template per message or
    human node carrying that node's triggers, response and active flag,
    and the graph synthesized again from these templates has message and
    human nodes with the same tuples, in the same order, as the first
    graph. *)
Theorem roundtrip_preserves_tuples (templates existing : list AutoTemplate)
  (project : string) (now : Z) (st : Store) :
  Forall (fun t => response t <> "") (welcomeList templates ++ menuOptionsOf templates) ->
  let graph := convertTemplatesToFlow templates in
  let flat :=
    flattened (reconcileNodes Store updateAutoTemplateInDatabase
                 createAutoTemplateInDatabase existing project now
                 (flow_nodes graph) (startRun st)) in
  templateTuple <$> flat = graphTuples graph
  /\ graphTuples (convertTemplatesToFlow flat) = graphTuples graph
  /\ (forall tu, In tu (graphTuples (convertTemplatesToFlow flat))
                 <-> In tu (graphTuples graph)).
Proof.
  intros Hresp graph flat.
  destruct (flatten_then_synthesize templates existing project now st Hresp)
    as [Hflat Hagain].
  split; [exact Hflat |]. split; [exact Hagain |].
  intros tu. subst flat graph. rewrite Hagain. reflexivity.
Qed.

(** The same through the whole of [convertFlowNodesToTemplates], once it
    finds a project to reconcile against. *)
Lemma roundtrip_through_handler (templates : list AutoTemplate)
  (selectedProject : option string) (templateProjects : list TemplateProject)
  (project : string) (now : Z) (st : Store) :
  Forall (fun t => response t <> "") (welcomeList templates ++ menuOptionsOf templates) ->
  projectToUse selectedProject templateProjects = inr project ->
  graphTuples
    (convertTemplatesToFlow
       (flattened (convertFlowNodesToTemplates Store updateAutoTemplateInDatabase
                     createAutoTemplateInDatabase selectedProject templateProjects now st
                     (flow_nodes (convertTemplatesToFlow templates)))))
  = graphTuples (convertTemplatesToFlow templates).
Proof.
  intros Hresp Hproject. unfold convertFlowNodesToTemplates. rewrite Hproject.
  apply (flatten_then_synthesize templates
           (existingTemplatesOf project templateProjects) project now st Hresp).
Qed.

End RoundTripTheorem.

(** The round trip of the small menu through an accepting store. *)
Lemma roundtrip_preserves_tuples_witness :
  graphTuples (roundTrip smallMenu) = graphTuples (convertTemplatesToFlow smallMenu).
Proof.
  destruct (roundtrip_preserves_tuples nat acceptingUpdate acceptingCreate smallMenu
              smallMenu "1" 0 0)
    as (_ & Hagain & _).
  - vm_compute. repeat constructor; discriminate.
  - exact Hagain.
Defined.

(** C2 as the specification states it fails on a greeting whose response
    is empty: the flattened template carries the title of the node as its
    response, and the graph synthesized from it says so. *)
Lemma empty_response_breaks_roundtrip :
  graphTuples (convertTemplatesToFlow [muteGreeting])
    = [(Some ["oi"], Some "", Some true)]
  /\ graphTuples (roundTrip [muteGreeting])
    = [(Some ["oi"], Some "Boas-vindas", Some true)]
  /\ ~ (forall tu, In tu (graphTuples (roundTrip [muteGreeting]))
                   <-> In tu (graphTuples (convertTemplatesToFlow [muteGreeting]))).
Proof.
  split; [reflexivity |]. split; [reflexivity |].
  intros H. specialize (H (Some ["oi"], Some "", Some true)).
  destruct H as [_ H]. destruct (H (or_introl eq_refl)) as [E | []]. discriminate E.
Qed.

(** ** Synthesis: the shape of the graph *)

Section GraphShape.

Lemma ids_unlinked (l : list FlowNode) : node_id <$> (unlinked <$> l) = node_id <$> l.
Proof. rewrite <- list_fmap_compose. reflexivity. Qed.

Lemma ids_alter (g : FlowNode -> FlowNode) (i : nat) (l : list FlowNode) :
  (forall n, node_id (g n) = node_id n) ->
  node_id <$> alter g i l = node_id <$> l.
Proof.
  intros Hg. rewrite (list_fmap_alter node_id g id).
  - apply list_alter_id. reflexivity.
  - apply Forall_forall. intros n _. apply Hg.
Qed.

Lemma ids_retyped (M : list AutoTemplate) (l : list FlowNode) :
  node_id <$> retyped M l = node_id <$> l.
Proof.
  unfold retyped. destruct (List.find isHumanOption M) as [h|]; [| reflexivity].
  destruct (findNode (templateNodeId h) l) as [[i x]|]; [| reflexivity].
  apply ids_alter. reflexivity.
Qed.

Lemma ids_mapIndexed_option (M : list AutoTemplate) (i : nat) :
  node_id <$> mapIndexed optionNodeOf i M = templateNodeId <$> M.
Proof.
  revert i. induction M as [|t M IH]; intros i; [reflexivity |].
  csimpl. rewrite IH. reflexivity.
Qed.

Lemma ids_mapIndexed_special (S : list AutoTemplate) (i : nat) :
  node_id <$> mapIndexed specialNodeOf i S = templateNodeId <$> S.
Proof.
  revert i. induction S as [|t S IH]; intros i; [reflexivity |].
  csimpl. rewrite IH. reflexivity.
Qed.

Lemma ids_created (templates : list AutoTemplate) :
  node_id <$> createdNodes templates
  = "start-1" :: (templateNodeId <$> placedTemplates templates).
Proof.
  unfold createdNodes, placedTemplates. csimpl. f_equal.
  rewrite !fmap_app, ids_mapIndexed_option, ids_mapIndexed_special.
  rewrite <- list_fmap_compose. reflexivity.
Qed.

(** X1.  The nodes of the synthesized graph are, in this order, the start
    node, one node per placed template (the first greeting, the menu
    options in ascending order, the special templates) and the end node:
    a template that is none of these gets no node, and a template that is
    both a menu option and special gets two. *)
Theorem synthesized_node_ids (templates : list AutoTemplate) :
  nodeIds (convertTemplatesToFlow templates)
  = "start-1" :: (templateNodeId <$> placedTemplates templates) ++ ["end-1"].
Proof.
  unfold nodeIds. rewrite <- ids_unlinked, synthesized_nodes, fmap_app.
  rewrite ids_retyped, ids_created. reflexivity.
Qed.

(** The closing loop in closed form: every leaf gets the end node as its
    target and a connection to it, in node order. *)
Lemma connectLeaves_from (l pre : list FlowNode) :
  forall f, flow_nodes f = pre ++ l ->
    flow_nodes (forEachIndexed connectLeaf (length pre) l f) = pre ++ (endLinked <$> l)
    /\ flow_connections (forEachIndexed connectLeaf (length pre) l f)
       = flow_connections f
         ++ ((fun n => mkConnection (node_id n) (node_id endNode)) <$> List.filter isLeaf l).
Proof.
  revert pre. induction l as [|x l IH]; intros pre f Hf.
  - simpl. rewrite !app_nil_r. split; [rewrite Hf, app_nil_r |]; reflexivity.
  - cbn [forEachIndexed].
    assert (Hstep : flow_nodes (connectLeaf (length pre) x f) = (pre ++ [endLinked x]) ++ l
                    /\ flow_connections (connectLeaf (length pre) x f)
                       = flow_connections f
                         ++ (if isLeaf x
                             then [mkConnection (node_id x) (node_id endNode)] else [])).
    { unfold connectLeaf, endLinked. destruct (isLeaf x).
      - cbn [mutateAt pushConnection flow_nodes flow_connections]. rewrite Hf. split; [| reflexivity].
        replace (length pre) with (length pre + 0) by lia.
        rewrite alter_app_r, <- app_assoc. reflexivity.
      - rewrite Hf, app_nil_r, <- app_assoc. split; reflexivity. }
    destruct Hstep as [Hnodes Hconns].
    destruct (IH (pre ++ [endLinked x]) (connectLeaf (length pre) x f) Hnodes) as [IHn IHc].
    rewrite length_app in IHn, IHc. cbn [length] in IHn, IHc.
    replace (length pre + 1) with (S (length pre)) in IHn, IHc by lia.
    rewrite IHn, IHc, Hconns, <- !app_assoc. split; [reflexivity |].
    cbn [List.filter]. destruct (isLeaf x); reflexivity.
Qed.

Lemma connectLeaves_closed (f : Flow) :
  flow_nodes (connectLeaves f) = endLinked <$> flow_nodes f
  /\ flow_connections (connectLeaves f)
     = flow_connections f
       ++ ((fun n => mkConnection (node_id n) (node_id endNode))
             <$> List.filter isLeaf (flow_nodes f)).
Proof. apply (connectLeaves_from (flow_nodes f) [] f). reflexivity. Qed.

Lemma endLinked_id (n : FlowNode) : node_id (endLinked n) = node_id n.
Proof. unfold endLinked. destruct (isLeaf n); reflexivity. Qed.

Lemma endLinked_type (n : FlowNode) : node_type (endLinked n) = node_type n.
Proof. unfold endLinked. destruct (isLeaf n); reflexivity. Qed.

(** X4.  The synthesized graph has no dead end: every node other than the
    start node, the end node and the human nodes has at least one outgoing
    target. *)
Theorem synthesized_graph_has_no_dead_end (templates : list AutoTemplate) :
  Forall (fun n => node_id n = "start-1" \/ node_id n = "end-1"
                   \/ node_type n = NodeHuman \/ connections_of n <> [])
         (flow_nodes (convertTemplatesToFlow templates)).
Proof.
  unfold convertTemplatesToFlow.
  match goal with |- context [connectLeaves ?g] => destruct (connectLeaves_closed g) as [-> _] end.
  apply Forall_fmap, Forall_forall. intros n _. unfold compose.
  rewrite endLinked_id, endLinked_type. unfold endLinked.
  destruct (isLeaf n) eqn:Hleaf.
  - right. right. right. simpl. destruct (connections_of n); discriminate.
  - unfold isLeaf in Hleaf. rewrite !andb_false_iff, !negb_false_iff in Hleaf.
    destruct Hleaf as [[[Hlen | Hend] | Hstart] | Hhuman].
    + right. right. right. destruct (connections_of n); [discriminate Hlen | discriminate].
    + right. left. apply String.eqb_eq in Hend. exact Hend.
    + left. apply String.eqb_eq in Hstart. exact Hstart.
    + right. right. left. destruct (node_type n); try discriminate Hhuman. reflexivity.
Qed.

End GraphShape.

(** ** Synthesis: nodes and connections agree *)

Section Links.

Lemma outEdges_snoc (l : list FlowNode) (n : FlowNode) :
  connections_of n = [] -> outEdges (l ++ [n]) = outEdges l.
Proof.
  intros Hn. unfold outEdges. rewrite bind_app, bind_singleton, Hn. apply app_nil_r.
Qed.

Lemma outEdges_push (l : list FlowNode) (tgt : string) :
  forall i n, l !! i = Some n ->
    outEdges (alter (pushTarget tgt) i l) ≡ₚ (node_id n, tgt) :: outEdges l.
Proof.
  unfold outEdges. induction l as [|x l IH]; intros i n Hi; [destruct i; discriminate |].
  destruct i as [|i]; cbn [alter list_alter].
  - injection Hi as ->. rewrite !bind_cons. cbn [pushTarget node_id connections_of].
    rewrite fmap_app. cbn [fmap list_fmap]. rewrite <- app_assoc. cbn [app].
    symmetry. apply Permutation_middle.
  - rewrite !bind_cons. rewrite (IH i n Hi). symmetry. apply Permutation_middle.
Qed.

Lemma outEdges_toHuman (l : list FlowNode) (i : nat) :
  outEdges (alter toHuman i l) = outEdges l.
Proof.
  unfold outEdges. revert i. induction l as [|x l IH]; intros i; [reflexivity |].
  destruct i as [|i]; cbn [alter list_alter]; rewrite !bind_cons; [reflexivity |].
  rewrite IH. reflexivity.
Qed.

Lemma nodeIds_pushNode (n : FlowNode) (f : Flow) :
  nodeIds (pushNode n f) = nodeIds f ++ [node_id n].
Proof. unfold nodeIds, pushNode. simpl. apply fmap_snoc. Qed.

Lemma nodeIds_mutateAt (i : nat) (g : FlowNode -> FlowNode) (f : Flow) :
  (forall n, node_id (g n) = node_id n) -> nodeIds (mutateAt i g f) = nodeIds f.
Proof. intros Hg. unfold nodeIds, mutateAt. simpl. apply ids_alter, Hg. Qed.

Lemma WellLinked_pushNode (n : FlowNode) (f : Flow) :
  connections_of n = [] -> WellLinked f -> WellLinked (pushNode n f).
Proof.
  intros Hn [Hedges Htargets]. split.
  - simpl. rewrite (outEdges_snoc _ _ Hn). exact Hedges.
  - rewrite nodeIds_pushNode. simpl. eapply Forall_impl; [exact Htargets |].
    intros c Hc. apply in_or_app. left. exact Hc.
Qed.

(** Pushing a connection and the matching target keeps the two records in
    step. *)
Lemma WellLinked_link (f : Flow) (i : nat) (n : FlowNode) (tgt : string) :
  WellLinked f -> flow_nodes f !! i = Some n -> In tgt (nodeIds f) ->
  WellLinked (mutateAt i (pushTarget tgt) (pushConnection (mkConnection (node_id n) tgt) f)).
Proof.
  intros [Hedges Htargets] Hi Htgt. split.
  - simpl. rewrite (outEdges_push _ tgt i n Hi). unfold connEdges. rewrite fmap_snoc.
    simpl. rewrite Hedges. apply Permutation_cons_append.
  - rewrite nodeIds_mutateAt by reflexivity. simpl.
    apply Forall_app. split; [exact Htargets |]. constructor; [exact Htgt | constructor].
Qed.

Lemma WellLinked_toHuman (f : Flow) (i : nat) :
  WellLinked f -> WellLinked (mutateAt i toHuman f).
Proof.
  intros [Hedges Htargets]. split.
  - simpl. rewrite outEdges_toHuman. exact Hedges.
  - rewrite nodeIds_mutateAt by reflexivity. exact Htargets.
Qed.

Lemma In_nodeIds_last (f : Flow) (n : FlowNode) : In (node_id n) (nodeIds (pushNode n f)).
Proof. rewrite nodeIds_pushNode. apply in_or_app. right. left. reflexivity. Qed.

Lemma WellLinked_addWelcome (W : option AutoTemplate) :
  let f1 := addWelcome W {| flow_nodes := [startNode]; flow_connections := [] |} in
  WellLinked f1
  /\ forall w, W = Some w ->
       exists n, flow_nodes f1 !! welcomeIndex = Some n /\ node_id n = templateNodeId w.
Proof.
  assert (H0 : WellLinked {| flow_nodes := [startNode]; flow_connections := [] |}).
  { split; [reflexivity | constructor]. }
  destruct W as [w|]; simpl.
  - split.
    + apply (WellLinked_link
               (pushNode (welcomeNodeOf w) {| flow_nodes := [startNode]; flow_connections := [] |})
               startIndex startNode (templateNodeId w)).
      * apply WellLinked_pushNode; [reflexivity | exact H0].
      * reflexivity.
      * right. left. reflexivity.
    + intros w' [= <-]. exists (welcomeNodeOf w). split; reflexivity.
  - split; [exact H0 | discriminate].
Qed.

Lemma optionLoop_step (W : option AutoTemplate) (i : nat) (t : AutoTemplate) (f : Flow) :
  optionLoopKeeps W f -> optionLoopKeeps W (addOption W i t f).
Proof.
  intros [Hlinked Hwelcome]. unfold addOption. destruct W as [w|].
  - destruct (Hwelcome w eq_refl) as (n & Hn & Hid).
    assert (Hn' : flow_nodes (pushNode (optionNodeOf i t) f) !! welcomeIndex = Some n).
    { simpl. rewrite lookup_app_l; [exact Hn | apply lookup_lt_Some in Hn; exact Hn]. }
    split.
    + rewrite <- Hid. apply WellLinked_link.
      * apply WellLinked_pushNode; [reflexivity | exact Hlinked].
      * exact Hn'.
      * apply In_nodeIds_last.
    + intros w' [= <-]. exists (pushTarget (node_id (optionNodeOf i t)) n).
      split; [| exact Hid]. simpl. rewrite list_lookup_alter_eq.
      simpl in Hn'. rewrite Hn'. reflexivity.
  - split; [| discriminate]. apply WellLinked_pushNode; [reflexivity | exact Hlinked].
Qed.

Lemma specialLoop_step (M : list AutoTemplate) (i : nat) (t : AutoTemplate) (f : Flow) :
  specialLoopKeeps M f -> specialLoopKeeps M (addSpecial M i t f).
Proof.
  intros [Hlinked Hoptions].
  assert (H1 : specialLoopKeeps M (pushNode (specialNodeOf i t) f)).
  { split; [apply WellLinked_pushNode; [reflexivity | exact Hlinked] |].
    intros o Ho. rewrite nodeIds_pushNode. apply in_or_app. left. apply Hoptions, Ho. }
  unfold addSpecial. destruct (List.find isComprarOption M) as [o|] eqn:Ho; [| exact H1].
  apply List.find_some in Ho as [Ho _].
  destruct H1 as [Hlinked1 Hoptions1].
  cbn [pushConnection flow_nodes].
  destruct (findNode (templateNodeId o) (flow_nodes (pushNode (specialNodeOf i t) f)))
    as [[j x]|] eqn:Hfind.
  - unfold findNode in Hfind. apply list_find_Some in Hfind as (Hj & Hid & _).
    split.
    + rewrite <- Hid. apply WellLinked_link; [exact Hlinked1 | exact Hj |].
      apply In_nodeIds_last.
    + intros o' Ho'. rewrite nodeIds_mutateAt by reflexivity. apply Hoptions1, Ho'.
  - exfalso. unfold findNode in Hfind. apply list_find_None in Hfind.
    specialize (Hoptions1 o Ho). unfold nodeIds in Hoptions1.
    apply list_elem_of_In, list_elem_of_fmap in Hoptions1 as (n & Hid & Hn).
    rewrite Forall_forall in Hfind. apply (Hfind n Hn). symmetry. exact Hid.
Qed.

Lemma WellLinked_retypeHuman (M : list AutoTemplate) (f : Flow) :
  WellLinked f -> WellLinked (retypeHuman M f).
Proof.
  intros H. unfold retypeHuman. destruct (List.find isHumanOption M) as [h|]; [| exact H].
  destruct (findNode _ _) as [[i x]|]; [| exact H]. apply WellLinked_toHuman, H.
Qed.

Lemma outEdges_endLinked (l : list FlowNode) :
  outEdges (endLinked <$> l)
  ≡ₚ outEdges l ++ connEdges ((fun n => mkConnection (node_id n) (node_id endNode))
                                <$> List.filter isLeaf l).
Proof.
  unfold outEdges, connEdges. induction l as [|x l IH]; [reflexivity |].
  rewrite fmap_cons, !bind_cons, IH. cbn [List.filter]. unfold endLinked at 1 2.
  destruct (isLeaf x).
  - cbn [pushTarget node_id connections_of]. rewrite fmap_app, !fmap_cons.
    rewrite <- !app_assoc. apply Permutation_app_head. cbn [app fmap list_fmap].
    cbn [source target mkConnection]. apply Permutation_middle.
  - rewrite <- app_assoc. reflexivity.
Qed.

Lemma WellLinked_connectLeaves (f : Flow) :
  WellLinked f -> In (node_id endNode) (nodeIds f) -> WellLinked (connectLeaves f).
Proof.
  intros [Hedges Htargets] Hend. destruct (connectLeaves_closed f) as [Hn Hc].
  assert (Hids : nodeIds (connectLeaves f) = nodeIds f).
  { unfold nodeIds. rewrite Hn, <- list_fmap_compose. apply list_fmap_ext.
    intros i n _. apply endLinked_id. }
  split.
  - rewrite Hn, Hc, outEdges_endLinked. unfold connEdges in *. rewrite fmap_app.
    apply Permutation_app; [exact Hedges | reflexivity].
  - rewrite Hids, Hc. apply Forall_app. split; [exact Htargets |].
    apply Forall_fmap, Forall_forall. intros n _. exact Hend.
Qed.

(** The graph before the closing loop. *)
Lemma WellLinked_before_leaves (templates : list AutoTemplate) :
  let W := List.find isGreeting templates in
  let M := menuOptionsOf templates in
  WellLinked
    (retypeHuman M
       (forEachIndexed (addSpecial M) 0 (List.filter isSpecial templates)
          (forEachIndexed (addOption W) 0 M
             (addWelcome W {| flow_nodes := [startNode]; flow_connections := [] |})))).
Proof.
  intros W M. apply WellLinked_retypeHuman.
  assert (Hopt : optionLoopKeeps W
                   (forEachIndexed (addOption W) 0 M
                      (addWelcome W {| flow_nodes := [startNode]; flow_connections := [] |}))).
  { apply (forEachIndexed_invariant (optionLoopKeeps W)).
    - intros i t f. apply optionLoop_step.
    - apply WellLinked_addWelcome. }
  apply (forEachIndexed_invariant (specialLoopKeeps M)).
  - intros i t f. apply specialLoop_step.
  - split; [apply Hopt |]. intros t Ht. unfold nodeIds.
    rewrite <- ids_unlinked.
    rewrite (nodes_forEachIndexed _ optionNodeOf _ (nodes_addOption W)).
    rewrite fmap_app, ids_mapIndexed_option. apply in_or_app. right.
    apply list_elem_of_In, list_elem_of_fmap. exists t. split; [reflexivity |].
    apply list_elem_of_In, Ht.
Qed.

Lemma templateNodeId_not_end (t : AutoTemplate) : templateNodeId t <> node_id endNode.
Proof. unfold templateNodeId. simpl. discriminate. Qed.

(** Before the closing loop no connection ends at the end node. *)
Lemma no_end_target_before_leaves (templates : list AutoTemplate) :
  let W := List.find isGreeting templates in
  let M := menuOptionsOf templates in
  Forall (fun c => target c <> node_id endNode)
    (flow_connections
       (retypeHuman M
          (forEachIndexed (addSpecial M) 0 (List.filter isSpecial templates)
             (forEachIndexed (addOption W) 0 M
                (addWelcome W {| flow_nodes := [startNode]; flow_connections := [] |}))))).
Proof.
  intros W M. rewrite connections_retypeHuman.
  apply (forEachIndexed_invariant
           (fun f => Forall (fun c => target c <> node_id endNode) (flow_connections f))).
  { intros i t f Hf. unfold addSpecial.
    destruct (List.find isComprarOption M) as [o|]; [| exact Hf].
    assert (Hpush : Forall (fun c => target c <> node_id endNode)
                      (flow_connections f
                       ++ [mkConnection (templateNodeId o) (node_id (specialNodeOf i t))])).
    { apply Forall_snoc_intro; [exact Hf | apply templateNodeId_not_end]. }
    destruct (findNode _ _) as [[j x]|]; exact Hpush. }
  apply (forEachIndexed_invariant
           (fun f => Forall (fun c => target c <> node_id endNode) (flow_connections f))).
  { intros i t f Hf. unfold addOption. destruct W as [w|]; [| exact Hf].
    simpl. apply Forall_snoc_intro; [exact Hf | apply templateNodeId_not_end]. }
  destruct W as [w|]; simpl; [| constructor].
  constructor; [apply templateNodeId_not_end | constructor].
Qed.

Lemma In_outEdges (l : list FlowNode) (n : FlowNode) (tgt : string) :
  In n l -> In tgt (connections_of n) -> (node_id n, tgt) ∈ outEdges l.
Proof.
  intros Hn Ht. unfold outEdges. apply list_elem_of_bind. exists n.
  split; [| apply list_elem_of_In, Hn].
  apply list_elem_of_fmap. exists tgt. split; [reflexivity | apply list_elem_of_In, Ht].
Qed.

Lemma outEdges_source (l : list FlowNode) (e : Edge) :
  e ∈ outEdges l -> In (fst e) (node_id <$> l).
Proof.
  unfold outEdges. intros He. apply list_elem_of_bind in He as (n & He & Hn).
  apply list_elem_of_fmap in He as (tgt & -> & _). simpl.
  apply list_elem_of_In, list_elem_of_fmap. exists n. split; [reflexivity | exact Hn].
Qed.

(** X3.  In the synthesized graph the outgoing lists kept in the nodes and
    the connection list describe the same edges, each as many times, and
    every connection starts and ends at a node of the graph. *)
Theorem synthesized_graph_is_well_linked (templates : list AutoTemplate) :
  let graph := convertTemplatesToFlow templates in
  outEdges (flow_nodes graph) ≡ₚ connEdges (flow_connections graph)
  /\ Forall (fun c => In (source c) (nodeIds graph) /\ In (target c) (nodeIds graph))
            (flow_connections graph).
Proof.
  intros graph.
  assert (H : WellLinked graph).
  { subst graph. unfold convertTemplatesToFlow. apply WellLinked_connectLeaves.
    - apply WellLinked_pushNode; [reflexivity | apply WellLinked_before_leaves].
    - apply In_nodeIds_last. }
  destruct H as [Hedges Htargets]. split; [exact Hedges |].
  rewrite Forall_forall in Htargets. apply Forall_forall. intros c Hc.
  split; [| apply Htargets, Hc].
  apply (outEdges_source (flow_nodes graph) (source c, target c)).
  rewrite Hedges. unfold connEdges. apply list_elem_of_fmap. exists c.
  split; [reflexivity | exact Hc].
Qed.

(** X5.  A human node of the synthesized graph never has the end node among
    its targets: the handoff to a person is not followed by an automatic
    end of the conversation. *)
Theorem human_nodes_do_not_lead_to_end (templates : list AutoTemplate) :
  Forall (fun n => node_type n = NodeHuman -> ~ In "end-1" (connections_of n))
         (flow_nodes (convertTemplatesToFlow templates)).
Proof.
  unfold convertTemplatesToFlow.
  match goal with |- context [connectLeaves ?g] => destruct (connectLeaves_closed g) as [-> _] end.
  apply Forall_fmap, Forall_forall. intros x Hx. unfold compose. intros Hhuman Hend.
  rewrite endLinked_type in Hhuman.
  assert (Hleaf : isLeaf x = false).
  { unfold isLeaf. rewrite Hhuman. simpl. apply andb_false_r. }
  unfold endLinked in Hend. rewrite Hleaf in Hend.
  cbn [pushNode flow_nodes] in Hx. apply list_elem_of_In, in_app_or in Hx as [Hx | Hx].
  - pose proof (WellLinked_before_leaves templates) as [Hedges _].
    pose proof (no_end_target_before_leaves templates) as Hno.
    cbv zeta in Hedges, Hno.
    pose proof (In_outEdges _ x "end-1" Hx Hend) as He.
    rewrite Hedges in He. unfold connEdges in He.
    apply list_elem_of_fmap in He as (c & Hc & Hin).
    rewrite Forall_forall in Hno. apply (Hno c Hin).
    injection Hc as _ Hc. symmetry. exact Hc.
  - destruct Hx as [<- | []]. discriminate Hhuman.
Qed.

End Links.

(** * Further properties of the dialogue simulator *)

Section Conversations.

Lemma find_filter_implied {A : Type} (f g : A -> bool) (l : list A) :
  (forall x, f x = true -> g x = true) ->
  List.find f (List.filter g l) = List.find f l.
Proof.
  intros Himp. induction l as [|x l IH]; simpl; [reflexivity |].
  destruct (g x) eqn:Hg; simpl.
  - rewrite IH. reflexivity.
  - destruct (f x) eqn:Hf; [| exact IH].
    apply Himp in Hf. congruence.
Qed.

Lemma retyped_head (M : list AutoTemplate) (l : list FlowNode) :
  exists rest, retyped M (startNode :: l) = startNode :: rest.
Proof.
  unfold retyped. destruct (List.find isHumanOption M) as [h|]; [| eauto].
  destruct (findNode (templateNodeId h) (startNode :: l)) as [[i x]|] eqn:Hfind; [| eauto].
  unfold findNode in Hfind. apply list_find_Some in Hfind as (Hi & Hid & _).
  destruct i as [|i].
  - simpl in Hi. injection Hi as <-. symmetry in Hid.
    exfalso. exact (templateNodeId_not_start h Hid).
  - simpl. eauto.
Qed.

Lemma synthesized_head (templates : list AutoTemplate) :
  exists first rest,
    flow_nodes (convertTemplatesToFlow templates) = first :: rest
    /\ node_type first = NodeStart /\ node_id first = "start-1".
Proof.
  pose proof (synthesized_nodes templates) as H. unfold createdNodes in H.
  destruct (retyped_head (menuOptionsOf templates)
              ((welcomeNodeOf <$> welcomeList templates)
               ++ mapIndexed optionNodeOf 0 (menuOptionsOf templates)
               ++ mapIndexed specialNodeOf 0 (List.filter isSpecial templates)))
    as [rest Hrest].
  rewrite Hrest in H.
  destruct (flow_nodes (convertTemplatesToFlow templates)) as [|first others];
    [discriminate H |].
  exists first, others. split; [reflexivity |].
  pose proof (f_equal (fun l => node_type <$> head l) H) as Htype.
  pose proof (f_equal (fun l => node_id <$> head l) H) as Hid.
  simpl in Htype, Hid. split; congruence.
Qed.

(** X2.  The simulator can always be started on a synthesized graph: no
    alert is shown, the session is positioned on the node start-1 and the
    transcript holds the greeting alone. *)
Theorem simulation_starts_on_synthesized_graph (templates : list AutoTemplate)
  (now : Z) (p : ChatPanel) :
  startChatSimulation (flow_nodes (convertTemplatesToFlow templates)) now p
  = quiet {| simulationState :=
               {| isActive := true;
                  currentNodeId := Some "start-1";
                  chatHistory :=
                    [ {| msg_id := Js.numToString now; msg_type := BotMsg;
                         content := greetingText; timestamp := now; nodeId := None |} ];
                  awaitingInput := true |};
             userInput := userInput p;
             showChatSimulator := true |}.
Proof.
  destruct (synthesized_head templates) as (first & rest & -> & Htype & Hid).
  unfold startChatSimulation. cbn [List.find]. rewrite Htype. cbn [NodeType_eqb].
  rewrite Hid. reflexivity.
Qed.

(** X6.  Inactive templates are invisible to the simulator: a turn played
    against a template list and the same turn played against its active
    templates alone leave the same panel. *)
Theorem inactive_templates_are_invisible (toLowerCase : string -> string)
  (templates : list AutoTemplate)
  (sentAt repliedAt : Z) (text : string) (p : ChatPanel) :
  submit toLowerCase templates sentAt repliedAt text p
  = submit toLowerCase (List.filter active templates) sentAt repliedAt text p.
Proof.
  unfold submit, sendUserMessage.
  rewrite (find_filter_implied (templateMatches toLowerCase (userInput (setUserInput text p)))
      active).
  - reflexivity.
  - intros t Ht. unfold templateMatches in Ht. apply andb_true_iff in Ht as [Ht _]. exact Ht.
Qed.

Lemma submit_blank (toLowerCase : string -> string)
  (templates : list AutoTemplate) (sentAt repliedAt : Z)
  (text : string) (p : ChatPanel) :
  Js.truthy (Js.trim text) = false ->
  next (submit toLowerCase templates sentAt repliedAt text p) = setUserInput text p.
Proof.
  intros Hblank. unfold submit, sendUserMessage, setUserInput.
  cbn [userInput simulationState]. rewrite Hblank. reflexivity.
Qed.

Lemma runTurns_history (toLowerCase : string -> string)
  (templates : list AutoTemplate) (turns : list Turn) (p : ChatPanel) :
  isActive (simulationState p) = true ->
  isActive (simulationState (runTurns toLowerCase templates turns p)) = true
  /\ chatHistory (simulationState (runTurns toLowerCase templates turns p))
     = chatHistory (simulationState p) ++ (spoken turns ≫= exchange toLowerCase templates)
  /\ (awaitingInput (simulationState p) = true ->
      awaitingInput (simulationState (runTurns toLowerCase templates turns p)) = true).
Proof.
  revert p. induction turns as [|t turns IH]; intros p Hact.
  - simpl. rewrite app_nil_r. auto.
  - change (runTurns toLowerCase templates (t :: turns) p)
      with (runTurns toLowerCase templates turns
              (next (submit toLowerCase templates (turn_sentAt t) (turn_repliedAt t) (turn_text
                  t) p))).
    unfold spoken. cbn [List.filter]. fold (spoken turns).
    destruct (Js.truthy (Js.trim (turn_text t))) eqn:Htext.
    + rewrite (submit_accepted toLowerCase _ _ _ _ _ Hact Htext). cbn [next quiet].
      rewrite bind_cons. unfold exchange at 1.
      destruct (List.find (templateMatches toLowerCase (turn_text t)) templates) as [tpl|].
      * destruct (IH (answered p (turn_sentAt t) (turn_repliedAt t) (turn_text t)
                        (Js.replaceNameAll simulatedName (response tpl))
                        (Some (tpl_id tpl)) (Some ("template-" +:+ tpl_id tpl))))
          as (IHact & IHhist & IHwait); [reflexivity |].
        split; [exact IHact |]. split.
        -- rewrite IHhist. cbn [answered simulationState chatHistory].
           rewrite <- app_assoc. reflexivity.
        -- intros _. apply IHwait. reflexivity.
      * destruct (IH (answered p (turn_sentAt t) (turn_repliedAt t) (turn_text t)
                        fallbackText None (currentNodeId (simulationState p))))
          as (IHact & IHhist & IHwait); [reflexivity |].
        split; [exact IHact |]. split.
        -- rewrite IHhist. cbn [answered simulationState chatHistory].
           rewrite <- app_assoc. reflexivity.
        -- intros _. apply IHwait. reflexivity.
    + rewrite (submit_blank toLowerCase _ _ _ _ _ Htext).
      destruct (IH (setUserInput (turn_text t) p) Hact) as (IHact & IHhist & IHwait).
      split; [exact IHact |]. split; [exact IHhist | exact IHwait].
Qed.

(** X7.  A conversation is stateless: after any sequence of turns on a
    panel that awaits input, the panel awaits input again and the
    transcript is the old one followed, for every turn whose text is not
    blank and in order, by the user entry and the reply computed from that
    text and the template list alone; neither the graph nor the current
    node nor an earlier turn has a part in a reply. *)
Theorem conversation_is_stateless (toLowerCase : string -> string)
  (templates : list AutoTemplate) (turns : list Turn)
  (p : ChatPanel) :
  AwaitingInput (simulationState p) ->
  AwaitingInput (simulationState (runTurns toLowerCase templates turns p))
  /\ chatHistory (simulationState (runTurns toLowerCase templates turns p))
     = chatHistory (simulationState p) ++ (spoken turns ≫= exchange toLowerCase templates).
Proof.
  intros [Hact Hwait].
  destruct (runTurns_history toLowerCase templates turns p Hact) as (H1 & H2 & H3).
  split; [split; [exact H1 | exact (H3 Hwait)] | exact H2].
Qed.

Lemma conversation_is_stateless_witness :
  chatHistory (simulationState
                 (runTurns Js.toLowerCase [hiTemplate] [chatTurn "oi"; chatTurn "  "; chatTurn
                     "x"]
                    startedPanel))
  = chatHistory (simulationState startedPanel)
    ++ (spoken [chatTurn "oi"; chatTurn "  "; chatTurn "x"] ≫= exchange Js.toLowerCase
        [hiTemplate]).
Proof.
  apply (conversation_is_stateless Js.toLowerCase [hiTemplate]
           [chatTurn "oi"; chatTurn "  "; chatTurn "x"] startedPanel).
  split; reflexivity.
Defined.

(** X8.  Stopping the simulator does not disarm a pending reply: when a
    message has been sent and the simulator is stopped before the timer
    fires, the reply is still appended, leaving a session that is not
    active, holds that one bot message and awaits input. *)
Theorem reply_armed_before_stop_is_delivered (toLowerCase : string -> string)
  (templates : list AutoTemplate)
  (now later : Z) (p : ChatPanel) :
  isActive (simulationState p) = true ->
  Js.truthy (Js.trim (userInput p)) = true ->
  exists r reply,
    timer (next (sendUserMessage toLowerCase templates now p)) = Some r
    /\ msg_type reply = BotMsg
    /\ (let stopped := stopChatSimulation (panel (next (sendUserMessage toLowerCase templates
        now p))) in
        let after := deliverReply r later (simulationState stopped) in
        isActive after = false /\ awaitingInput after = true
        /\ chatHistory after = [reply]).
Proof.
  intros Hact Htext. unfold sendUserMessage. rewrite Hact, Htext.
  cbn [negb orb next quiet timer panel].
  exists {| matchingTemplate := List.find (templateMatches toLowerCase (userInput p)) templates
      |}.
  unfold deliverReply. cbn [matchingTemplate].
  destruct (List.find (templateMatches toLowerCase (userInput p)) templates) as [tpl|].
  - exists (botEntry later (Js.replaceNameAll simulatedName (response tpl))
              (Some (tpl_id tpl))).
    repeat split; reflexivity.
  - exists (botEntry later fallbackText None). repeat split; reflexivity.
Qed.

Lemma reply_armed_before_stop_is_delivered_witness :
  exists r reply,
    timer (next (sendUserMessage Js.toLowerCase [hiTemplate] 10 (setUserInput "oi"
        startedPanel))) = Some r
    /\ msg_type reply = BotMsg
    /\ (let stopped :=
          stopChatSimulation
            (panel (next (sendUserMessage Js.toLowerCase [hiTemplate] 10 (setUserInput "oi"
                startedPanel)))) in
        let after := deliverReply r 11 (simulationState stopped) in
        isActive after = false /\ awaitingInput after = true
        /\ chatHistory after = [reply]).
Proof.
  apply (reply_armed_before_stop_is_delivered Js.toLowerCase [hiTemplate] 10 11
           (setUserInput "oi" startedPanel)); reflexivity.
Defined.

Lemma suggestions_are_trimmed (s : string) :
  In s suggestions -> Js.trim s = s /\ Js.truthy (Js.trim s) = true.
Proof.
  unfold suggestions. simpl.
  intros [<- | [<- | [<- | [<- | [<- | []]]]]]; split; reflexivity.
Qed.

(** X9.  On a panel that awaits input, pressing a suggestion chip leaves
    the session in the state that typing the text of the chip and sending
    it leaves; the chip does not touch the text box. *)
Theorem suggestion_chip_acts_like_typed_text (toLowerCase : string -> string)
  (templates : list AutoTemplate)
  (now later : Z) (s : string) (p : ChatPanel) :
  AwaitingInput (simulationState p) ->
  In s suggestions ->
  simulationState (fireTimer (next (sendSuggestion toLowerCase templates now s p)) later)
  = simulationState (next (submit toLowerCase templates now later s p))
  /\ userInput (fireTimer (next (sendSuggestion toLowerCase templates now s p)) later) =
      userInput p.
Proof.
  intros [Hact Hwait] Hs. destruct (suggestions_are_trimmed s Hs) as [Htrim Htruthy].
  rewrite (submit_accepted toLowerCase _ _ _ _ _ Hact Htruthy).
  unfold sendSuggestion. rewrite Hwait. cbn [negb next quiet].
  unfold fireTimer, deliverReply, answered, userEntry, botEntry.
  cbn [timer panel simulationState userInput showChatSimulator matchingTemplate
       isActive currentNodeId chatHistory awaitingInput next quiet].
  rewrite Htrim, Hact.
  destruct (List.find (templateMatches toLowerCase s) templates) as [tpl|];
    cbn [simulationState]; rewrite <- app_assoc; split; reflexivity.
Qed.

Lemma suggestion_chip_acts_like_typed_text_witness :
  simulationState (fireTimer (next (sendSuggestion Js.toLowerCase [hiTemplate] 10 "oi"
      startedPanel)) 11)
  = simulationState (next (submit Js.toLowerCase [hiTemplate] 10 11 "oi" startedPanel))
  /\ userInput (fireTimer (next (sendSuggestion Js.toLowerCase [hiTemplate] 10 "oi"
      startedPanel)) 11)
     = userInput startedPanel.
Proof.
  apply (suggestion_chip_acts_like_typed_text Js.toLowerCase [hiTemplate] 10 11 "oi"
      startedPanel).
  - split; reflexivity.
  - left. reflexivity.
Defined.

(** X10.  Starting the simulator shows no alert exactly when some node of
    the graph has type start; when the alert is shown the panel is left as
    it was, so a session that was running goes on. *)
Theorem start_needs_a_start_node (flowNodes : list FlowNode) (now : Z) (p : ChatPanel) :
  (alerts (startChatSimulation flowNodes now p) = []
   <-> exists n, In n flowNodes /\ node_type n = NodeStart)
  /\ (alerts (startChatSimulation flowNodes now p) <> []
      -> next (startChatSimulation flowNodes now p) = p).
Proof.
  unfold startChatSimulation.
  destruct (List.find (fun node => NodeType_eqb (node_type node) NodeStart) flowNodes)
    as [n|] eqn:Hfind.
  - split; [| intros H; exfalso; apply H; reflexivity].
    split; [| reflexivity]. intros _. apply List.find_some in Hfind as [Hin Htype].
    exists n. split; [exact Hin |]. destruct (node_type n); try discriminate. reflexivity.
  - split; [| reflexivity]. split; [discriminate |].
    intros (n & Hin & Htype). exfalso.
    pose proof (List.find_none _ _ Hfind n Hin) as Hn. simpl in Hn.
    rewrite Htype in Hn. discriminate.
Qed.

End Conversations.

(** * Further properties of the reconciliation with the store *)

Section Saving.

Variable Store : Type.
Variable updateAutoTemplateInDatabase : AutoTemplate -> Store -> Store * bool.
Variable createAutoTemplateInDatabase :
  AutoTemplate -> string -> Store -> Store * (string + option string).

#[local] Abbreviation reconcileOne := (reconcileNode Store updateAutoTemplateInDatabase
                                         createAutoTemplateInDatabase).
#[local] Abbreviation reconcileAll := (reconcileNodes Store updateAutoTemplateInDatabase
                                         createAutoTemplateInDatabase).

Lemma find_project_In (wanted : string) (projects : list TemplateProject)
  (p : TemplateProject) :
  List.find (fun q => String.eqb (project_id q) wanted) projects = Some p ->
  In p projects /\ project_id p = wanted.
Proof.
  intros H. apply List.find_some in H as [Hin Heq]. apply String.eqb_eq in Heq. auto.
Qed.

Lemma projectToUse_known (selectedProject : option string)
  (templateProjects : list TemplateProject) (project : string) :
  projectToUse selectedProject templateProjects = inr project ->
  exists p, In p templateProjects /\ project_id p = project
            /\ existingTemplatesOf project templateProjects
               = templates (default p (List.find (fun q => String.eqb (project_id q) project)
                                         templateProjects)).
Proof.
  unfold projectToUse, existingTemplatesOf.
  set (chosen := if _ : bool then _ else _). destruct chosen as [a | wanted]; [discriminate |].
  destruct (List.find (fun q => String.eqb (project_id q) wanted) templateProjects)
    as [p|] eqn:Hwanted.
  - intros [= <-]. rewrite Hwanted. apply find_project_In in Hwanted as [Hin Hid].
    exists p. auto.
  - destruct templateProjects as [|firstProject rest]; [discriminate |].
    intros [= <-]. cbn [List.find]. rewrite String.eqb_refl.
    exists firstProject. split; [left; reflexivity | auto].
Qed.

(** X11.  Whenever the save handler settles on a project, that project is
    one of the known projects, and the templates it reconciles against are
    those of the first known project with that id. *)
Theorem saving_targets_a_known_project (selectedProject : option string)
  (templateProjects : list TemplateProject) (project : string) :
  projectToUse selectedProject templateProjects = inr project ->
  exists p, In p templateProjects /\ project_id p = project
            /\ List.find (fun q => String.eqb (project_id q) project) templateProjects
               = Some p
            /\ existingTemplatesOf project templateProjects = templates p.
Proof.
  intros H. destruct (projectToUse_known _ _ _ H) as (p & Hin & Hid & _).
  unfold existingTemplatesOf.
  destruct (List.find (fun q => String.eqb (project_id q) project) templateProjects)
    as [q|] eqn:Hfind.
  - destruct (find_project_In _ _ _ Hfind) as [Hq Hqid]. exists q. auto.
  - exfalso. pose proof (List.find_none _ _ Hfind p Hin) as Hp. simpl in Hp.
    rewrite Hid, String.eqb_refl in Hp. discriminate.
Qed.

(** X12.  With no project selected (or the placeholder [default]), saving
    needs a project that already holds a template: when every known
    project is empty the handler shows the alert and calls the store not
    once, however many projects and nodes there are. *)
Theorem saving_unselected_needs_a_populated_project (selectedProject : option string)
  (templateProjects : list TemplateProject) (now : Z) (st : Store)
  (flowNodes : list FlowNode) :
  selectedProject = None \/ selectedProject = Some "" \/ selectedProject = Some "default" ->
  Forall (fun p => templates p = []) templateProjects ->
  convertFlowNodesToTemplates Store updateAutoTemplateInDatabase
    createAutoTemplateInDatabase selectedProject templateProjects now st flowNodes
  = {| store := st; calls := []; newTemplates := []; updatedTemplates := [];
       orderIndex := 0; shown := [noValidProjectAlert] |}.
Proof.
  intros Hsel Hempty. unfold convertFlowNodesToTemplates, projectToUse.
  assert (Hfind : List.find (fun p => 0 <? length (templates p)) templateProjects = None).
  { apply find_none. eapply Forall_impl; [exact Hempty |].
    intros p Hp. simpl in Hp. rewrite Hp. reflexivity. }
  destruct Hsel as [-> | [-> | ->]]; rewrite Hfind; reflexivity.
Qed.

Lemma reconcileNode_counts (existing : list AutoTemplate) (project : string) (now : Z)
  (node : FlowNode) (r : Reconciling Store) :
  let r' := reconcileOne existing project now node r in
  exists c,
    calls r' = calls r ++ (if isTemplateNode node then [c] else [])
    /\ isDelete c = false
    /\ (orderIndex r = length (newTemplates r)
        -> orderIndex r' = length (newTemplates r'))
    /\ length (newTemplates r') + length (updatedTemplates r') + length (shown r')
       <= length (newTemplates r) + length (updatedTemplates r) + length (shown r)
          + (if isTemplateNode node then 1 else 0).
Proof.
  unfold reconcileNode. destruct (isTemplateNode node).
  - destruct (List.find (sameTemplate node) existing) as [e|].
    + destruct (updateAutoTemplateInDatabase (updatedTemplateOf node e) (store r)) as [st ok].
      eexists. split; [reflexivity |]. split; [reflexivity |]. cbn.
      split; [auto |]. destruct ok; rewrite ?length_app; simpl; lia.
    + destruct (createAutoTemplateInDatabase (newTemplateOf now (orderIndex r) node) project
                  (store r)) as [st reply].
      destruct reply as [message | [newId|]]; eexists;
        (split; [reflexivity |]); (split; [reflexivity |]); cbn;
        rewrite ?length_app; simpl; split; lia.
  - exists (CallUpdate (newTemplateOf now 0 node)).
    rewrite app_nil_r. repeat split; [auto | lia].
Qed.

Lemma reconcileNodes_counts (existing : list AutoTemplate) (project : string) (now : Z)
  (flowNodes : list FlowNode) :
  forall r,
    orderIndex r = length (newTemplates r) ->
    let r' := reconcileAll existing project now flowNodes r in
    length (calls r') = length (calls r) + length (List.filter isTemplateNode flowNodes)
    /\ (Forall (fun c => isDelete c = false) (calls r)
        -> Forall (fun c => isDelete c = false) (calls r'))
    /\ orderIndex r' = length (newTemplates r')
    /\ length (newTemplates r') + length (updatedTemplates r') + length (shown r')
       <= length (newTemplates r) + length (updatedTemplates r) + length (shown r)
          + length (List.filter isTemplateNode flowNodes).
Proof.
  induction flowNodes as [|node rest IH]; intros r Hindex.
  - simpl. repeat split; [lia | auto | exact Hindex | lia].
  - cbn zeta.
    change (reconcileAll existing project now (node :: rest) r)
      with (reconcileAll existing project now rest (reconcileOne existing project now node r)).
    destruct (reconcileNode_counts existing project now node r)
      as (c & Hcalls & Hc & Hidx & Hlen).
    destruct (IH (reconcileOne existing project now node r) (Hidx Hindex))
      as (IHcalls & IHdel & IHidx & IHlen).
    cbn zeta in *. cbn [List.filter].
    split; [| split; [| split]].
    + rewrite IHcalls, Hcalls, length_app.
      destruct (isTemplateNode node); simpl; lia.
    + intros Hdel. apply IHdel. rewrite Hcalls. apply Forall_app. split; [exact Hdel |].
      destruct (isTemplateNode node); repeat constructor. exact Hc.
    + exact IHidx.
    + destruct (isTemplateNode node); simpl in *; lia.
Qed.

(** X13.  Whatever the store functions answer, the save loop invokes one
    of them, [updateAutoTemplateInDatabase] or
    [createAutoTemplateInDatabase], exactly once for every message or
    human node and never for another node, never invokes the delete
    function, and keeps its books: the order index is the number of
    templates created, and the templates created, the templates updated
    and the alerts shown together never exceed the invocations made.
    (Whether an invocation sends a request is decided inside the function
    invoked.) *)
Theorem saving_calls_the_store_once_per_template_node (existing : list AutoTemplate)
  (project : string) (now : Z) (st : Store) (flowNodes : list FlowNode) :
  let r := reconcileAll existing project now flowNodes (startRun st) in
  length (calls r) = length (List.filter isTemplateNode flowNodes)
  /\ Forall (fun c => isDelete c = false) (calls r)
  /\ orderIndex r = length (newTemplates r)
  /\ length (newTemplates r) + length (updatedTemplates r) + length (shown r)
     <= length (calls r).
Proof.
  destruct (reconcileNodes_counts existing project now flowNodes (startRun st) eq_refl)
    as (Hcalls & Hdel & Hidx & Hlen).
  cbn zeta in *. simpl in Hcalls, Hlen.
  split; [exact Hcalls |]. split; [apply Hdel; constructor |].
  split; [exact Hidx | lia].
Qed.

Lemma In_retyped (M : list AutoTemplate) (l : list FlowNode) (y : FlowNode) :
  In y (retyped M l) ->
  In y l \/ exists h, In h M /\ node_id y = templateNodeId h.
Proof.
  unfold retyped. destruct (List.find isHumanOption M) as [h|] eqn:Hh; [| auto].
  destruct (findNode (templateNodeId h) l) as [[i x]|] eqn:Hfind; [| auto].
  unfold findNode in Hfind. apply list_find_Some in Hfind as (Hi & Hid & _).
  intros Hy. apply list_elem_of_In, list_elem_of_lookup_1 in Hy as [j Hj].
  rewrite list_lookup_alter in Hj. destruct (decide (i = j)) as [<- | Hne].
  - rewrite Hi in Hj. simpl in Hj. injection Hj as <-. right. exists h.
    split; [| exact Hid]. apply List.find_some in Hh as [Hin _]. exact Hin.
  - left. apply list_elem_of_In. eapply list_elem_of_lookup_2. exact Hj.
Qed.

Lemma In_createdNodes (templates : list AutoTemplate) (x : FlowNode) :
  In x (createdNodes templates) ->
  x = startNode \/ node_type x = NodeCondition
  \/ exists t, In t templates /\ node_id x = templateNodeId t.
Proof.
  unfold createdNodes. intros [<- | Hx]; [left; reflexivity | right].
  apply in_app_or in Hx as [Hx | Hx].
  - right. apply list_elem_of_In, list_elem_of_fmap in Hx as (w & -> & Hw).
    exists w. split; [| reflexivity]. apply list_elem_of_In in Hw. unfold welcomeList in Hw.
    destruct (List.find isGreeting templates) as [w'|] eqn:Hfind; [| destruct Hw].
    destruct Hw as [<- | []]. apply List.find_some in Hfind as [Hin _]. exact Hin.
  - apply in_app_or in Hx as [Hx | Hx].
    + right. apply In_mapIndexed in Hx as (k & t & Ht & ->).
      exists t. split; [| reflexivity]. apply In_menuOptionsOf in Ht as [Ht _]. exact Ht.
    + left. apply In_mapIndexed in Hx as (k & t & Ht & ->). reflexivity.
Qed.

(** Every message or human node of a synthesized graph carries the id of
    one of the templates the graph was synthesized from. *)
Lemma synthesized_template_nodes (templates : list AutoTemplate) (n : FlowNode) :
  In n (flow_nodes (convertTemplatesToFlow templates)) ->
  isTemplateNode n = true ->
  exists t, In t templates /\ node_id n = templateNodeId t.
Proof.
  intros Hn Htype.
  assert (Hu : In (unlinked n) (unlinked <$> flow_nodes (convertTemplatesToFlow templates))).
  { apply list_elem_of_In, list_elem_of_fmap. exists n. split; [reflexivity |].
    apply list_elem_of_In. exact Hn. }
  rewrite synthesized_nodes in Hu. apply in_app_or in Hu as [Hu | Hu].
  - apply In_retyped in Hu as [Hu | (h & Hh & Hid)].
    + apply In_createdNodes in Hu as [Hu | [Hu | Hu]].
      * exfalso. unfold isTemplateNode in Htype.
        change (node_type n) with (node_type (unlinked n)) in Htype.
        rewrite Hu in Htype. discriminate.
      * exfalso. unfold isTemplateNode in Htype.
        change (node_type n) with (node_type (unlinked n)) in Htype.
        rewrite Hu in Htype. discriminate.
      * exact Hu.
    + exists h. split; [| exact Hid]. apply In_menuOptionsOf in Hh as [Hh _]. exact Hh.
  - destruct Hu as [Hu | []]. exfalso. unfold isTemplateNode in Htype.
    change (node_type n) with (node_type (unlinked n)) in Htype.
    rewrite <- Hu in Htype. discriminate.
Qed.

Lemma reconcileNodes_only_updates (existing : list AutoTemplate) (project : string)
  (now : Z) (flowNodes : list FlowNode) :
  Forall (fun n => isTemplateNode n = true ->
                   exists e, In e existing /\ sameTemplate n e = true) flowNodes ->
  forall r,
    newTemplates (reconcileAll existing project now flowNodes r) = newTemplates r
    /\ shown (reconcileAll existing project now flowNodes r) = shown r
    /\ exists ups,
         calls (reconcileAll existing project now flowNodes r)
         = calls r ++ (CallUpdate <$> ups)
         /\ Forall (fun u => exists e, In e existing /\ tpl_id u = tpl_id e) ups.
Proof.
  induction 1 as [|node rest Hnode _ IH]; intros r.
  - simpl. split; [reflexivity |]. split; [reflexivity |].
    exists []. rewrite app_nil_r. split; [reflexivity | constructor].
  - change (reconcileAll existing project now (node :: rest) r)
      with (reconcileAll existing project now rest (reconcileOne existing project now node r)).
    destruct (IH (reconcileOne existing project now node r)) as (IHnew & IHshown & ups & IHcalls & IHups).
    rewrite IHnew, IHshown, IHcalls.
    destruct (isTemplateNode node) eqn:Htype.
    + destruct (find_some_iff (sameTemplate node) existing (Hnode eq_refl)) as [e He].
      destruct (reconcileNode_update Store updateAutoTemplateInDatabase
                  createAutoTemplateInDatabase existing project now node r e Htype He)
        as (Hcalls & Hnew & _ & Hshown).
      split; [exact Hnew |]. split; [exact Hshown |].
      exists (updatedTemplateOf node e :: ups). split.
      * rewrite Hcalls, <- app_assoc. reflexivity.
      * constructor; [| exact IHups]. exists e. split; [| reflexivity].
        apply List.find_some in He as [Hin _]. exact Hin.
    + unfold reconcileNode. rewrite Htype. split; [reflexivity |]. split; [reflexivity |].
      exists ups. split; [reflexivity | exact IHups].
Qed.

(** X14.  Saving a freshly synthesized graph against the templates it was
    synthesized from creates nothing and shows no alert, whatever the
    store answers: every call made is an update that carries the id of one
    of these templates. *)
Theorem saving_a_synthesized_graph_creates_nothing (templates : list AutoTemplate)
  (project : string) (now : Z) (st : Store) :
  let r := reconcileAll templates project now
             (flow_nodes (convertTemplatesToFlow templates)) (startRun st) in
  newTemplates r = [] /\ shown r = []
  /\ exists ups,
       calls r = CallUpdate <$> ups
       /\ Forall (fun u => exists e, In e templates /\ tpl_id u = tpl_id e) ups.
Proof.
  apply (reconcileNodes_only_updates templates project now
           (flow_nodes (convertTemplatesToFlow templates))).
  apply Forall_forall. intros n Hn Htype. apply list_elem_of_In in Hn.
  destruct (synthesized_template_nodes templates n Hn Htype) as (t & Ht & Hid).
  exists t. split; [exact Ht |]. unfold sameTemplate. rewrite Hid. unfold templateNodeId.
  rewrite replaceFirst_prefix, String.eqb_refl. reflexivity.
Qed.

End Saving.

Lemma saving_targets_a_known_project_witness :
  exists p, In p [mkProject "3" []; mkProject "4" [persistedOi]]
            /\ project_id p = "3"
            /\ List.find (fun q => String.eqb (project_id q) "3")
                 [mkProject "3" []; mkProject "4" [persistedOi]] = Some p
            /\ existingTemplatesOf "3" [mkProject "3" []; mkProject "4" [persistedOi]]
               = templates p.
Proof.
  apply (saving_targets_a_known_project (Some "9")
           [mkProject "3" []; mkProject "4" [persistedOi]] "3").
  reflexivity.
Defined.

Lemma saving_unselected_needs_a_populated_project_witness :
  convertFlowNodesToTemplates nat acceptingUpdate acceptingCreate None
    [mkProject "3" []; mkProject "4" []] 0 0%nat [draftNode]
  = {| store := 0%nat; calls := []; newTemplates := []; updatedTemplates := [];
       orderIndex := 0; shown := [noValidProjectAlert] |}.
Proof.
  apply (saving_unselected_needs_a_populated_project nat acceptingUpdate acceptingCreate
           None [mkProject "3" []; mkProject "4" []] 0 0%nat [draftNode]).
  - left. reflexivity.
  - repeat constructor.
Defined.

(** * Further properties of the per-node deletion *)

Section DeletionCalls.

Variable isPositiveNumber : string -> bool.

(** The part after the last dash. *)
Lemma lastDashPart_app (kind number : string) :
  Js.includes number "-" = false ->
  Js.lastDashPart (kind +:+ "-" +:+ number) = number.
Proof.
  intros Hnone. induction kind as [|c kind IH].
  - change ("" +:+ "-" +:+ number) with (String "-" number).
    cbn [Js.lastDashPart]. rewrite Hnone. reflexivity.
  - change (String c kind +:+ "-" +:+ number) with (String c (kind +:+ "-" +:+ number)).
    cbn [Js.lastDashPart].
    assert (Hsome : Js.includes (kind +:+ "-" +:+ number) "-" = true).
    { apply includes_spec. exists kind, number. reflexivity. }
    rewrite Hsome. exact IH.
Qed.

Lemma templateIdOfNode_template (t : AutoTemplate) :
  templateIdOfNode (templateNodeId t) = tpl_id t.
Proof.
  unfold templateIdOfNode, templateNodeId.
  rewrite startsWith_app, replaceFirst_prefix. reflexivity.
Qed.

Lemma templateIdOfNode_dashed (kind number : string) :
  Js.startsWith (kind +:+ "-" +:+ number) "template-" = false ->
  Js.includes number "-" = false ->
  templateIdOfNode (kind +:+ "-" +:+ number) = number.
Proof.
  intros Hkind Hnone. unfold templateIdOfNode. rewrite Hkind.
  assert (Hsome : Js.includes (kind +:+ "-" +:+ number) "-" = true).
  { apply includes_spec. exists kind, number. reflexivity. }
  rewrite Hsome. apply lastDashPart_app, Hnone.
Qed.

Lemma find_node_present (nodeId : string) (l : list FlowNode) (n : FlowNode) :
  In n l -> node_id n = nodeId ->
  exists n', List.find (fun node => String.eqb (node_id node) nodeId) l = Some n'.
Proof.
  intros Hin Hid. apply find_some_iff. exists n. split; [exact Hin |].
  rewrite Hid. apply String.eqb_refl.
Qed.

Lemma deleteFlowNode_calls (deleteFromStore : string -> option string)
  (selectedProject : option string) (nodeId : string) (flowState : FlowState)
  (n : FlowNode) :
  In n (nodes flowState) -> node_id n = nodeId ->
  projectSelected selectedProject = true ->
  isPositiveNumber (templateIdOfNode nodeId) = true ->
  snd (deleteFlowNode isPositiveNumber deleteFromStore selectedProject nodeId flowState)
  = [CallDelete (templateIdOfNode nodeId)].
Proof.
  intros Hin Hid Hsel Hpos. destruct (find_node_present nodeId _ n Hin Hid) as [n' Hfind].
  unfold deleteFlowNode.
  rewrite (deleteFlowNode_begin_found isPositiveNumber selectedProject nodeId flowState n' Hfind).
  rewrite Hsel, Hpos. reflexivity.
Qed.

(** X15.  With a project selected, deleting the node synthesized for a
    template whose id is a positive number asks the store to delete
    exactly that template: the id taken from the node id is the id the
    node id was built from. *)
Theorem deleting_a_template_node_deletes_its_template
  (deleteFromStore : string -> option string) (selectedProject : option string)
  (t : AutoTemplate) (flowState : FlowState) (n : FlowNode) :
  In n (nodes flowState) -> node_id n = templateNodeId t ->
  projectSelected selectedProject = true ->
  isPositiveNumber (tpl_id t) = true ->
  snd (deleteFlowNode isPositiveNumber deleteFromStore selectedProject
         (templateNodeId t) flowState)
  = [CallDelete (tpl_id t)].
Proof.
  intros Hin Hid Hsel Hpos.
  rewrite (deleteFlowNode_calls deleteFromStore selectedProject _ flowState n Hin Hid Hsel).
  - rewrite templateIdOfNode_template. reflexivity.
  - rewrite templateIdOfNode_template. exact Hpos.
Qed.

(** X16.  With a project selected, deleting a node that stands for no
    template still reaches the store when its id ends in a dash followed
    by a positive number: the store is asked to delete the template with
    that number.  So it is for the start and end nodes (start-1, end-1)
    and for a node dropped from the palette, whose id ends in the time of
    its creation. *)
Theorem deleting_a_dashed_node_deletes_the_numbered_template
  (deleteFromStore : string -> option string) (selectedProject : option string)
  (kind number : string) (flowState : FlowState) (n : FlowNode) :
  In n (nodes flowState) -> node_id n = kind +:+ "-" +:+ number ->
  Js.startsWith (kind +:+ "-" +:+ number) "template-" = false ->
  Js.includes number "-" = false ->
  projectSelected selectedProject = true ->
  isPositiveNumber number = true ->
  snd (deleteFlowNode isPositiveNumber deleteFromStore selectedProject
         (kind +:+ "-" +:+ number) flowState)
  = [CallDelete number].
Proof.
  intros Hin Hid Hkind Hnone Hsel Hpos.
  rewrite (deleteFlowNode_calls deleteFromStore selectedProject _ flowState n Hin Hid Hsel).
  - rewrite (templateIdOfNode_dashed kind number Hkind Hnone). reflexivity.
  - rewrite (templateIdOfNode_dashed kind number Hkind Hnone). exact Hpos.
Qed.

(** X17.  Deleting a node id that the graph does not hold changes nothing:
    the flow state is returned as it was, no alert is shown and the store
    is not called; and with no project selected the store is never
    called, whatever the node. *)
Theorem deleting_an_unknown_node_is_a_no_op
  (deleteFromStore : string -> option string) (selectedProject : option string)
  (nodeId : string) (flowState : FlowState) :
  (Forall (fun n => node_id n <> nodeId) (nodes flowState) ->
   deleteFlowNode isPositiveNumber deleteFromStore selectedProject nodeId flowState
   = (quiet flowState, []))
  /\ (projectSelected selectedProject = false ->
      snd (deleteFlowNode isPositiveNumber deleteFromStore selectedProject nodeId flowState)
      = []).
Proof.
  split.
  - intros Hnone. unfold deleteFlowNode, deleteFlowNode_begin.
    rewrite find_none; [reflexivity |].
    eapply Forall_impl; [exact Hnone |]. intros n Hn. simpl in Hn.
    destruct (String.eqb_spec (node_id n) nodeId); [contradiction | reflexivity].
  - intros Hsel. unfold deleteFlowNode, deleteFlowNode_begin.
    destruct (List.find _ (nodes flowState)); [| reflexivity].
    rewrite Hsel. reflexivity.
Qed.

End DeletionCalls.

Section Removal.

Lemma filter_filter_comm {A : Type} (f g : A -> bool) (l : list A) :
  List.filter f (List.filter g l) = List.filter g (List.filter f l).
Proof.
  induction l as [|x l IH]; simpl; [reflexivity |].
  destruct (f x) eqn:Hf, (g x) eqn:Hg; simpl; rewrite ?Hf, ?Hg, IH; reflexivity.
Qed.

Lemma filter_idem {A : Type} (f : A -> bool) (l : list A) :
  List.filter f (List.filter f l) = List.filter f l.
Proof.
  induction l as [|x l IH]; simpl; [reflexivity |].
  destruct (f x) eqn:Hf; simpl; rewrite ?Hf, IH; reflexivity.
Qed.

(** X18.  Removals compose: removing a node twice is removing it once, and
    two removals of different nodes give the same nodes and connections
    in either order. *)
Theorem removeNode_composes (a b : string) (prev : FlowState) :
  removeNode a (removeNode a prev) = removeNode a prev
  /\ nodes (removeNode a (removeNode b prev)) = nodes (removeNode b (removeNode a prev))
  /\ connections (removeNode a (removeNode b prev))
     = connections (removeNode b (removeNode a prev)).
Proof.
  unfold removeNode. cbn [nodes connections selectedNode]. split; [| split].
  - rewrite !filter_idem. f_equal.
    destruct (selectedNode prev) as [sel|]; [| reflexivity].
    destruct (String.eqb sel a) eqn:Hsel; [reflexivity |]. rewrite Hsel. reflexivity.
  - apply filter_filter_comm.
  - apply filter_filter_comm.
Qed.

(** With unique ids, filtering a node out and appending it again only
    moves it to the end. *)
Lemma removeNode_unique (nodeId : string) (l : list FlowNode) (n : FlowNode) :
  NoDup (node_id <$> l) -> In n l -> node_id n = nodeId ->
  List.filter (fun node => negb (String.eqb (node_id node) nodeId)) l ++ [n] ≡ₚ l.
Proof.
  intros Hdup Hin Hid. induction l as [|x l IH]; [destruct Hin |].
  rewrite fmap_cons in Hdup. apply NoDup_cons in Hdup as [Hx Hdup].
  cbn [List.filter]. destruct Hin as [-> | Hin].
  - rewrite Hid, String.eqb_refl. cbn [negb].
    rewrite filter_all.
    + symmetry. apply Permutation_cons_append.
    + intros y Hy. apply eqb_string_false. intros Hyid.
      apply Hx. rewrite Hid, <- Hyid. apply list_elem_of_fmap.
      exists y. split; [reflexivity | apply list_elem_of_In; exact Hy].
  - assert (Hne : node_id x <> nodeId).
    { intros Hxid. apply Hx. rewrite Hxid, <- Hid. apply list_elem_of_fmap.
      exists n. split; [reflexivity | apply list_elem_of_In; exact Hin]. }
    apply eqb_string_false in Hne. rewrite Hne. cbn [app].
    constructor. apply IH; assumption.
Qed.

(** X19.  When node ids are unique, the rollback after a failed store call
    gives back the nodes the editor had, the deleted node now standing
    last; the connections that touched it stay removed. *)
Theorem failed_delete_restores_the_nodes (isPositiveNumber : string -> bool)
  (selectedProject : option string) (nodeId message : string)
  (flowState published : FlowState) (templateId : string) (nodeToDelete : FlowNode) :
  NoDup (node_id <$> nodes flowState) ->
  deleteFlowNode_begin isPositiveNumber selectedProject nodeId flowState
    = AwaitingStore published templateId nodeToDelete ->
  let rolledBack := next (deleteFlowNode_resume nodeToDelete (Some message) published) in
  nodes rolledBack ≡ₚ nodes flowState
  /\ last (nodes rolledBack) = Some nodeToDelete
  /\ connections rolledBack = connections (removeNode nodeId flowState).
Proof.
  intros Hdup Hbegin. unfold deleteFlowNode_begin in Hbegin.
  destruct (List.find _ (nodes flowState)) as [n|] eqn:Hfind; [| discriminate].
  destruct (projectSelected selectedProject); [| discriminate].
  destruct (isPositiveNumber (templateIdOfNode nodeId)); [| discriminate].
  injection Hbegin as <- <- <-.
  apply List.find_some in Hfind as [Hin Hid]. apply String.eqb_eq in Hid.
  cbn. split; [| split].
  - apply removeNode_unique; assumption.
  - apply last_snoc.
  - reflexivity.
Qed.

End Removal.

Lemma deleting_a_template_node_deletes_its_template_witness :
  snd (deleteFlowNode decimalPositive storeDown (Some "1")
         (templateNodeId (mkTemplate "5" ["oi"] "Oi" true)) sampleFlow)
  = [CallDelete "5"].
Proof.
  apply (deleting_a_template_node_deletes_its_template decimalPositive storeDown (Some "1")
           (mkTemplate "5" ["oi"] "Oi" true) sampleFlow (plainNode "template-5" NodeMessage)).
  - right. left. reflexivity.
  - reflexivity.
  - reflexivity.
  - reflexivity.
Defined.

Lemma deleting_a_dashed_node_deletes_the_numbered_template_witness :
  snd (deleteFlowNode decimalPositive storeDown (Some "3") ("start" +:+ "-" +:+ "1") sampleFlow)
  = [CallDelete "1"].
Proof.
  apply (deleting_a_dashed_node_deletes_the_numbered_template decimalPositive storeDown
           (Some "3") "start" "1" sampleFlow startNode).
  - left. reflexivity.
  - reflexivity.
  - reflexivity.
  - reflexivity.
  - reflexivity.
  - reflexivity.
Defined.

Lemma failed_delete_restores_the_nodes_witness :
  nodes (next (deleteFlowNode_resume (plainNode "template-5" NodeMessage) (Some "500")
                 (removeNode "template-5" sampleFlow)))
  ≡ₚ nodes sampleFlow.
Proof.
  apply (failed_delete_restores_the_nodes decimalPositive (Some "1") "template-5" "500"
           sampleFlow (removeNode "template-5" sampleFlow) "5"
           (plainNode "template-5" NodeMessage)).
  - apply (bool_decide_unpack _). reflexivity.
  - reflexivity.
Defined.

(** * Properties of the template registry *)

Section RegistryFacts.

Lemma map_unselected (ts : list AutoTemplate) (wanted : string)
  (projects : list TemplateProject) :
  Forall (fun p => project_id p <> wanted) projects ->
  List.map (fun p => if String.eqb (project_id p) wanted then withTemplates ts p else p)
           projects = projects.
Proof.
  induction 1 as [|p projects Hp _ IH]; simpl; [reflexivity |].
  rewrite IH. destruct (String.eqb_spec (project_id p) wanted); [contradiction | reflexivity].
Qed.

Lemma find_after_update (ts : list AutoTemplate) (wanted : string)
  (projects : list TemplateProject) :
  List.find (fun p => String.eqb (project_id p) wanted)
    (List.map (fun p => if String.eqb (project_id p) wanted then withTemplates ts p else p)
              projects)
  = withTemplates ts <$> List.find (fun p => String.eqb (project_id p) wanted) projects.
Proof.
  induction projects as [|p projects IH]; simpl; [reflexivity |].
  destruct (String.eqb (project_id p) wanted) eqn:Hp; simpl; rewrite Hp; [reflexivity | exact IH].
Qed.

Lemma selection_names_project (reg : Registry) :
  noSelection (reg_selectedProject reg) = false ->
  selectionResolves reg ->
  exists p, List.find (fun q => String.eqb (project_id q)
                                  (default "" (reg_selectedProject reg)))
                      (reg_templateProjects reg) = Some p.
Proof.
  intros Hsel [Hnone | (p & Hin & Hp)]; [congruence |].
  apply find_some_iff. exists p. split; [exact Hin |]. rewrite <- Hp. simpl.
  apply String.eqb_refl.
Qed.

Lemma get_after_update (ts : list AutoTemplate) (reg : Registry) :
  selectionResolves reg ->
  getCurrentTemplates (updateCurrentTemplates ts reg) = ts.
Proof.
  intros Hres. unfold getCurrentTemplates, updateCurrentTemplates.
  destruct (noSelection (reg_selectedProject reg)) eqn:Hsel;
    cbn [reg_selectedProject reg_autoTemplates reg_templateProjects]; rewrite Hsel;
    [reflexivity |].
  rewrite find_after_update.
  destruct (selection_names_project reg Hsel Hres) as [p ->]. reflexivity.
Qed.

Lemma update_keeps_resolution (ts : list AutoTemplate) (reg : Registry) :
  selectionResolves reg -> selectionResolves (updateCurrentTemplates ts reg).
Proof.
  unfold selectionResolves, updateCurrentTemplates.
  destruct (noSelection (reg_selectedProject reg)) eqn:Hsel;
    cbn [reg_selectedProject reg_autoTemplates reg_templateProjects];
    intros [Hnone | (p & Hin & Hp)]; try (left; assumption); try congruence.
  right.
  exists (if String.eqb (project_id p) (default "" (reg_selectedProject reg))
          then withTemplates ts p else p).
  split.
  - apply in_map_iff. exists p. split; [reflexivity | exact Hin].
  - destruct (String.eqb _ _); exact Hp.
Qed.

Lemma unresolved_selection (reg : Registry) :
  ~ selectionResolves reg ->
  noSelection (reg_selectedProject reg) = false
  /\ Forall (fun p => project_id p <> default "" (reg_selectedProject reg))
            (reg_templateProjects reg).
Proof.
  intros Hnot. unfold selectionResolves in Hnot.
  destruct (noSelection (reg_selectedProject reg)) eqn:Hsel; [exfalso; auto |].
  split; [reflexivity |]. apply Forall_forall. intros p Hp Hid. apply Hnot. right.
  exists p. split; [apply list_elem_of_In; exact Hp |]. rewrite Hid.
  destruct (reg_selectedProject reg); [reflexivity | discriminate].
Qed.

Lemma update_unresolved (ts : list AutoTemplate) (reg : Registry) :
  noSelection (reg_selectedProject reg) = false ->
  Forall (fun p => project_id p <> default "" (reg_selectedProject reg))
         (reg_templateProjects reg) ->
  updateCurrentTemplates ts reg = reg /\ getCurrentTemplates reg = [].
Proof.
  intros Hsel Hnone. unfold updateCurrentTemplates, getCurrentTemplates. rewrite Hsel.
  rewrite (map_unselected ts _ _ Hnone). split; [destruct reg; reflexivity |].
  rewrite find_none; [reflexivity |].
  eapply Forall_impl; [exact Hnone |]. intros p Hp. simpl in *.
  destruct (String.eqb_spec (project_id p) (default "" (reg_selectedProject reg)));
    [contradiction | reflexivity].
Qed.

Lemma selectionResolves_dec (reg : Registry) :
  selectionResolves reg \/ ~ selectionResolves reg.
Proof.
  unfold selectionResolves.
  destruct (noSelection (reg_selectedProject reg)) eqn:Hsel; [left; left; reflexivity |].
  destruct (List.find (fun q => String.eqb (project_id q)
                                  (default "" (reg_selectedProject reg)))
                      (reg_templateProjects reg)) as [p|] eqn:Hfind.
  - left. right. apply List.find_some in Hfind as [Hin Hid]. apply String.eqb_eq in Hid.
    exists p. split; [exact Hin |]. rewrite Hid.
    destruct (reg_selectedProject reg); [reflexivity | discriminate].
  - right. intros [Hnone | (p & Hin & Hp)]; [discriminate |].
    pose proof (List.find_none _ _ Hfind p Hin) as Hno. simpl in Hno.
    rewrite <- Hp in Hno. simpl in Hno. rewrite String.eqb_refl in Hno. discriminate.
Qed.

(** X20.  Reading after writing: when no project is selected, or the
    selection names a known project, the current templates read after an
    update are the templates written. *)
Theorem current_templates_read_back (ts : list AutoTemplate) (reg : Registry) :
  selectionResolves reg ->
  getCurrentTemplates (updateCurrentTemplates ts reg) = ts.
Proof. apply get_after_update. Qed.

(** X21.  Under a selection that names no known project the template list
    reads empty and every edit of it is lost without a word: adding the
    human handoff template, switching a template and deleting a template
    all leave the registry as it was. *)
Theorem edits_under_an_unknown_selection_are_lost (now : Z) (id : string) (reg : Registry) :
  ~ selectionResolves reg ->
  getCurrentTemplates reg = []
  /\ addHumanIntervention now reg = reg
  /\ toggleTemplateActive id reg = reg
  /\ deleteAutoTemplate id reg = reg.
Proof.
  intros Hnot. destruct (unresolved_selection reg Hnot) as [Hsel Hnone].
  unfold addHumanIntervention, toggleTemplateActive, deleteAutoTemplate.
  split; [exact (proj2 (update_unresolved [] reg Hsel Hnone)) |].
  repeat split; apply (proj1 (update_unresolved _ reg Hsel Hnone)).
Qed.

Lemma toggled_twice (id : string) (t : AutoTemplate) :
  (fun tpl => if String.eqb (tpl_id tpl) id then toggled tpl else tpl)
    ((fun tpl => if String.eqb (tpl_id tpl) id then toggled tpl else tpl) t) = t.
Proof.
  cbv beta. destruct (String.eqb (tpl_id t) id) eqn:Hid; [| rewrite Hid; reflexivity].
  cbn [toggled tpl_id]. rewrite Hid. destruct t as [i trs resp act]. unfold toggled. simpl.
  rewrite negb_involutive. reflexivity.
Qed.

(** X22.  Switching a template twice leaves the current templates as they
    were, whatever the selection. *)
Theorem toggling_twice_changes_nothing (id : string) (reg : Registry) :
  getCurrentTemplates (toggleTemplateActive id (toggleTemplateActive id reg))
  = getCurrentTemplates reg.
Proof.
  destruct (selectionResolves_dec reg) as [Hres | Hnot].
  - unfold toggleTemplateActive at 1.
    rewrite get_after_update by (apply update_keeps_resolution, Hres).
    unfold toggleTemplateActive. rewrite get_after_update by exact Hres.
    rewrite List.map_map. rewrite <- (List.map_id (getCurrentTemplates reg)) at 2.
    apply List.map_ext. intros t. apply toggled_twice.
  - destruct (unresolved_selection reg Hnot) as [Hsel Hnone].
    unfold toggleTemplateActive at 2.
    destruct (update_unresolved
                (List.map (fun tpl => if String.eqb (tpl_id tpl) id then toggled tpl else tpl)
                   (getCurrentTemplates reg)) reg Hsel Hnone) as [-> _].
    unfold toggleTemplateActive.
    destruct (update_unresolved
                (List.map (fun tpl => if String.eqb (tpl_id tpl) id then toggled tpl else tpl)
                   (getCurrentTemplates reg)) reg Hsel Hnone) as [-> _].
    reflexivity.
Qed.

(** X23.  Deleting a template removes from the current templates every
    template with the given id and keeps the others, in their order. *)
Theorem deleting_a_template_removes_its_id (id : string) (reg : Registry) :
  selectionResolves reg ->
  getCurrentTemplates (deleteAutoTemplate id reg)
  = List.filter (fun tpl => negb (String.eqb (tpl_id tpl) id)) (getCurrentTemplates reg)
  /\ Forall (fun tpl => tpl_id tpl <> id) (getCurrentTemplates (deleteAutoTemplate id reg)).
Proof.
  intros Hres. unfold deleteAutoTemplate. rewrite get_after_update by exact Hres.
  split; [reflexivity |]. apply Forall_forall. intros t Ht.
  apply list_elem_of_In, List.filter_In in Ht as [_ Ht]. apply eqb_string_false. exact Ht.
Qed.

(** X24.  Deleting the selected project clears the selection, so the
    current templates become the templates kept outside any project;
    deleting another project leaves the current templates as they were. *)
Theorem deleting_a_project_and_the_current_templates (projectId : string) (reg : Registry) :
  (reg_selectedProject reg = Some projectId ->
   reg_selectedProject (deleteProject projectId reg) = None
   /\ getCurrentTemplates (deleteProject projectId reg) = reg_autoTemplates reg)
  /\ (reg_selectedProject reg <> Some projectId ->
      getCurrentTemplates (deleteProject projectId reg) = getCurrentTemplates reg).
Proof.
  unfold getCurrentTemplates, deleteProject.
  cbn [reg_selectedProject reg_autoTemplates reg_templateProjects]. split.
  - intros ->. rewrite String.eqb_refl. split; reflexivity.
  - intros Hother. destruct (reg_selectedProject reg) as [sp|]; [| reflexivity].
    destruct (String.eqb_spec sp projectId) as [-> | Hne]; [contradiction |].
    destruct (noSelection (Some sp)); [reflexivity |]. cbn [default].
    rewrite find_filter_implied; [reflexivity |].
    intros p Hp. apply String.eqb_eq in Hp. apply eqb_string_false.
    change (project_id p = sp) in Hp. intros Hid. apply Hne. rewrite <- Hp. exact Hid.
Qed.

End RegistryFacts.

Lemma current_templates_read_back_witness :
  getCurrentTemplates (updateCurrentTemplates [hiTemplate] sampleRegistry) = [hiTemplate].
Proof.
  apply (current_templates_read_back [hiTemplate] sampleRegistry).
  right. exists (mkProject "4" [persistedOi]). split; [right; left; reflexivity | reflexivity].
Defined.

Lemma edits_under_an_unknown_selection_are_lost_witness :
  addHumanIntervention 0 (staleSelection)
  = staleSelection.
Proof.
  apply (edits_under_an_unknown_selection_are_lost 0 "7"
           (staleSelection)).
  intros [Hnone | (p & Hin & Hp)]; [discriminate |].
  destruct Hin as [<- | []]. discriminate.
Defined.

Lemma deleting_a_template_removes_its_id_witness :
  getCurrentTemplates (deleteAutoTemplate "7" sampleRegistry) = [].
Proof.
  apply (deleting_a_template_removes_its_id "7" sampleRegistry).
  right. exists (mkProject "4" [persistedOi]). split; [right; left; reflexivity | reflexivity].
Defined.

(** * Flow documents: what is accepted, and export followed by import *)

Section Documents.

Variable JSON_parse : string -> option Json.

Lemma mapTry_fmap {A B C : Type} (f : B -> Try C) (enc : A -> B) (g : A -> C)
  (l : list A) :
  (forall x, f (enc x) = inr (g x)) -> mapTry f (enc <$> l) = inr (g <$> l).
Proof.
  intros H.
  induction l as [|x l IH]; [reflexivity |].
  rewrite !fmap_cons. cbn [mapTry]. rewrite H, bind_inr, IH, bind_inr. reflexivity.
Qed.

Lemma mapTry_total {A B : Type} (f : A -> Try B) (l : list A) :
  Forall (fun x => exists y, f x = inr y) l ->
  exists ys, mapTry f l = inr ys /\ length ys = length l.
Proof.
  induction 1 as [|x l [y Hx] _ (ys & IH & Hlen)].
  - exists []. split; reflexivity.
  - exists (y :: ys). cbn [mapTry]. rewrite Hx, bind_inr, IH, bind_inr.
    split; [reflexivity | simpl; rewrite Hlen; reflexivity].
Qed.

Lemma mapTry_fails {A B : Type} (f : A -> Try B) (l : list A) (x : A) (e : Exn) :
  In x l -> f x = inl e -> exists e', mapTry f l = inl e'.
Proof.
  intros Hin Hx. induction l as [|y l IH]; [destruct Hin |].
  cbn [mapTry]. destruct (f y) as [e' | z] eqn:Hy.
  - exists e'. apply bind_inl.
  - rewrite bind_inr. destruct Hin as [-> | Hin]; [congruence |].
    destruct (IH Hin) as [e' ->]. exists e'. apply bind_inl.
Qed.

Lemma importNode_total (now : Z) (v : Json) :
  v <> JNull -> exists i, importNode now v = inr i.
Proof. destruct v; intros Hv; try contradiction; eexists; reflexivity. Qed.

Lemma importConnection_total (now : Z) (v : Json) :
  v <> JNull -> exists c, importConnection now v = inr c.
Proof. destruct v; intros Hv; try contradiction; eexists; reflexivity. Qed.

(** The conversion of a document whose two properties are arrays. *)
Lemma convertCodeToFlow_try_arrays (now : Z) (code : string) (doc : Json)
  (ns cs : list Json) :
  JSON_parse code = Some doc ->
  getProp doc "nodes" = inr (Some (JArray ns)) ->
  getProp doc "connections" = inr (Some (JArray cs)) ->
  convertCodeToFlow_try JSON_parse now code
  = (ns' ← mapTry (importNode now) ns;
     cs' ← mapTry (importConnection now) cs;
     mret {| imported_nodes := ns'; imported_connections := cs' |}).
Proof.
  intros Hparse Hn Hc. unfold convertCodeToFlow_try. rewrite Hparse.
  change (mret doc : Try Json) with (inr doc : Try Json). rewrite bind_inr, Hn, bind_inr.
  cbn [jsTruthy isArray negb orb].
  change (mret () : Try ()) with (inr () : Try ()).
  rewrite bind_inr, Hc, bind_inr. cbn [jsTruthy isArray negb orb].
  rewrite bind_inr. reflexivity.
Qed.

(** X25.  The importer checks that [nodes] and [connections] are arrays
    and nothing else: a document with both arrays is imported exactly when
    none of their items is [null], and then every item, whatever its
    shape, becomes a node or a connection. *)
Theorem import_accepts_any_items_but_null (now : Z) (code : string) (doc : Json)
  (ns cs : list Json) :
  JSON_parse code = Some doc ->
  getProp doc "nodes" = inr (Some (JArray ns)) ->
  getProp doc "connections" = inr (Some (JArray cs)) ->
  (In JNull (ns ++ cs) -> convertCodeToFlow JSON_parse now code = None)
  /\ (~ In JNull (ns ++ cs) ->
      exists flow, convertCodeToFlow JSON_parse now code = Some flow
                   /\ length (imported_nodes flow) = length ns
                   /\ length (imported_connections flow) = length cs).
Proof.
  intros Hparse Hn Hc. unfold convertCodeToFlow.
  rewrite (convertCodeToFlow_try_arrays now code doc ns cs Hparse Hn Hc). split.
  - intros Hnull. apply in_app_or in Hnull as [Hnull | Hnull].
    + destruct (mapTry_fails (importNode now) ns JNull TypeError Hnull eq_refl) as [e ->].
      rewrite bind_inl. reflexivity.
    + destruct (mapTry (importNode now) ns) as [e | ns']; [rewrite bind_inl; reflexivity |].
      rewrite bind_inr.
      destruct (mapTry_fails (importConnection now) cs JNull TypeError Hnull eq_refl)
        as [e ->].
      rewrite bind_inl. reflexivity.
  - intros Hfree.
    destruct (mapTry_total (importNode now) ns) as (ns' & -> & Hlen).
    { apply Forall_forall. intros v Hv. apply importNode_total. intros ->.
      apply Hfree, in_or_app. left. apply list_elem_of_In. exact Hv. }
    destruct (mapTry_total (importConnection now) cs) as (cs' & -> & Hlen').
    { apply Forall_forall. intros v Hv. apply importConnection_total. intros ->.
      apply Hfree, in_or_app. right. apply list_elem_of_In. exact Hv. }
    rewrite !bind_inr. eexists. split; [reflexivity |]. split; assumption.
Qed.

Lemma importNode_encoded (now : Z) (n : FlowNode) :
  importNode now (encodeNode n) = inr (nodeAsImported now n).
Proof. destruct n as [i t p d c]. destruct t; reflexivity. Qed.

Lemma importConnection_encoded (now : Z) (c : FlowConnection) :
  importConnection now (encodeConnection c) = inr (connectionAsImported now c).
Proof. destruct c as [i s t [sh|] [th|]]; reflexivity. Qed.

(** X26.  Export followed by import never fails and gives every node and
    connection back: a text that parses to the exported document is
    imported, with the success alert, as one node per node and one
    connection per connection, in order, each holding the exported fields;
    only an empty id is replaced by a generated one. *)
Theorem export_then_import (now : Z) (code created : string)
  (flowNodes : list FlowNode) (flowConnections : list FlowConnection) (prev : FlowState) :
  JSON_parse code = Some (flowData created flowNodes flowConnections) ->
  convertCodeToFlow JSON_parse now code
  = Some {| imported_nodes := nodeAsImported now <$> flowNodes;
            imported_connections := connectionAsImported now <$> flowConnections |}
  /\ importFlowCode JSON_parse now code prev
     = {| next := Replaced prev
                    {| imported_nodes := nodeAsImported now <$> flowNodes;
                       imported_connections := connectionAsImported now <$> flowConnections |};
          alerts := [importedAlert] |}.
Proof.
  intros Hparse.
  assert (Hflow : convertCodeToFlow JSON_parse now code
                  = Some {| imported_nodes := nodeAsImported now <$> flowNodes;
                            imported_connections :=
                              connectionAsImported now <$> flowConnections |}).
  { unfold convertCodeToFlow.
    rewrite (convertCodeToFlow_try_arrays now code _ (encodeNode <$> flowNodes)
               (encodeConnection <$> flowConnections) Hparse eq_refl eq_refl).
    rewrite (mapTry_fmap (importNode now) encodeNode (nodeAsImported now))
      by apply importNode_encoded.
    rewrite bind_inr.
    rewrite (mapTry_fmap (importConnection now) encodeConnection (connectionAsImported now))
      by apply importConnection_encoded.
    rewrite bind_inr. reflexivity. }
  split; [exact Hflow |]. unfold importFlowCode. rewrite Hflow. reflexivity.
Qed.

End Documents.

Lemma import_accepts_any_items_but_null_witness :
  (In JNull ([JNumber 1; JObject []] ++ [JString "x"]) ->
   convertCodeToFlow (parseAs shapelessDocument) 0 "{}" = None)
  /\ (~ In JNull ([JNumber 1; JObject []] ++ [JString "x"]) ->
      exists flow, convertCodeToFlow (parseAs shapelessDocument) 0 "{}" = Some flow
                   /\ length (imported_nodes flow) = 2
                   /\ length (imported_connections flow) = 1).
Proof.
  apply (import_accepts_any_items_but_null (parseAs shapelessDocument) 0 "{}"
           shapelessDocument [JNumber 1; JObject []] [JString "x"]); reflexivity.
Defined.

Lemma export_then_import_witness :
  convertCodeToFlow (parseAs sampleExport) 0 "{}"
  = Some {| imported_nodes := nodeAsImported 0 <$> nodes sampleFlow;
            imported_connections := connectionAsImported 0 <$> connections sampleFlow |}
  /\ importFlowCode (parseAs sampleExport) 0 "{}" sampleFlow
     = {| next := Replaced sampleFlow
                    {| imported_nodes := nodeAsImported 0 <$> nodes sampleFlow;
                       imported_connections :=
                         connectionAsImported 0 <$> connections sampleFlow |};
          alerts := [importedAlert] |}.
Proof.
  apply (export_then_import (parseAs sampleExport) 0 "{}" "2024-01-01T00:00:00.000Z"
           (nodes sampleFlow) (connections sampleFlow) sampleFlow).
  reflexivity.
Defined.

(** * Editing one template *)

Section EditingFacts.

Variable Store : Type.
Variable updateAutoTemplateInDatabase : AutoTemplate -> Store -> Store * bool.

Lemma replaceTemplate_absent (t : AutoTemplate) (l : list AutoTemplate) :
  Forall (fun tpl => tpl_id tpl <> tpl_id t) l -> replaceTemplate t l = l.
Proof.
  induction 1 as [|x l Hx _ IH]; [reflexivity |].
  unfold replaceTemplate in *. cbn [List.map]. rewrite IH.
  destruct (String.eqb_spec (tpl_id x) (tpl_id t)); [contradiction | reflexivity].
Qed.

Lemma In_replaceTemplate (t x : AutoTemplate) (l : list AutoTemplate) :
  In x (replaceTemplate t l) -> tpl_id x = tpl_id t -> x = t.
Proof.
  unfold replaceTemplate. intros Hx Hid. apply in_map_iff in Hx as (y & Hy & _).
  destruct (String.eqb_spec (tpl_id y) (tpl_id t)) as [_ | Hne]; [congruence |].
  subst x. contradiction.
Qed.

(** X27.  The list view's update of a template: when the store accepts it
    (or no project is selected) every current template with the updated
    id is replaced and the others are kept, in place; when the store
    refuses it the registry stays as it was and one alert is shown; and an
    update under an id that no current template has changes no template,
    it adds none. *)
Theorem updating_a_template_replaces_it_in_place (updatedTemplate : AutoTemplate)
  (st : Store) (reg : Registry) :
  selectionResolves reg ->
  let out := updateAutoTemplate Store updateAutoTemplateInDatabase updatedTemplate st reg in
  (alerts out = [] ->
   getCurrentTemplates (edited_registry (next out))
   = replaceTemplate updatedTemplate (getCurrentTemplates reg))
  /\ (alerts out <> [] ->
      edited_registry (next out) = reg /\ alerts out = [saveTemplateErrorAlert])
  /\ (Forall (fun tpl => tpl_id tpl <> tpl_id updatedTemplate) (getCurrentTemplates reg) ->
      getCurrentTemplates (edited_registry (next out)) = getCurrentTemplates reg).
Proof.
  intros Hres. unfold updateAutoTemplate.
  destruct (projectSelected (reg_selectedProject reg)).
  - destruct (updateAutoTemplateInDatabase updatedTemplate st) as [st' [|]]; cbn.
    + split; [intros _; apply get_after_update, Hres |].
      split; [intros H; contradiction |].
      intros Habsent. rewrite get_after_update by exact Hres.
      apply replaceTemplate_absent, Habsent.
    + split; [discriminate |]. split; [intros _; split; reflexivity |]. reflexivity.
  - cbn. split; [intros _; apply get_after_update, Hres |].
    split; [intros H; contradiction |].
    intros Habsent. rewrite get_after_update by exact Hres.
    apply replaceTemplate_absent, Habsent.
Qed.

(** X28.  The save button of the node editor ignores the active switch: for
    a node that is switched off, the template it hands to the store and
    writes into the current templates is active, whereas the template
    that saving the whole graph builds for the same node is not. *)
Theorem editor_save_ignores_the_active_switch (selectedNode : FlowNode) (st : Store)
  (reg : Registry) (trs : list string) (resp : string) (existingTemplate : AutoTemplate) :
  noSelection (reg_selectedProject reg) = false ->
  triggers (data selectedNode) = Some trs ->
  data_response (data selectedNode) = Some resp ->
  resp <> "" ->
  data_active (data selectedNode) = Some false ->
  let out := saveNodeEdits Store updateAutoTemplateInDatabase selectedNode st reg in
  (forall c, In c (edited_calls (saved (next out))) ->
     exists t, c = CallUpdate t /\ active t = true /\ trigger t = trs /\ response t = resp)
  /\ (alerts out = [] -> selectionResolves reg ->
      forall t, In t (getCurrentTemplates (edited_registry (saved (next out)))) ->
                tpl_id t = Js.replaceFirst "template-" "" (node_id selectedNode) ->
                active t = true /\ trigger t = trs /\ response t = resp)
  /\ active (updatedTemplateOf selectedNode existingTemplate) = false.
Proof.
  intros Hsel Htrs Hresp Hne Hoff. unfold saveNodeEdits.
  destruct (reg_selectedProject reg) as [sp|] eqn:Hsp; [| discriminate Hsel].
  simpl in Hsel. apply negb_false_iff in Hsel. apply truthy_spec in Hne.
  rewrite Htrs, Hresp, Hsel, Hne. cbn [andb].
  assert (Hnode : forall t, t = nodeTemplateOf selectedNode trs resp ->
                    active t = true /\ trigger t = trs /\ response t = resp).
  { intros t ->. unfold nodeTemplateOf. rewrite Hoff. repeat split. }
  assert (Happlied : selectionResolves reg ->
            forall t,
              In t (getCurrentTemplates
                      (updateCurrentTemplates
                         (replaceTemplate (nodeTemplateOf selectedNode trs resp)
                            (getCurrentTemplates reg)) reg)) ->
              tpl_id t = Js.replaceFirst "template-" "" (node_id selectedNode) ->
              active t = true /\ trigger t = trs /\ response t = resp).
  { intros Hres t Ht Hid. rewrite get_after_update in Ht by exact Hres.
    apply Hnode. apply (In_replaceTemplate _ _ _ Ht). exact Hid. }
  split; [| split].
  - destruct (negb (String.eqb sp "default")).
    + destruct (updateAutoTemplateInDatabase (nodeTemplateOf selectedNode trs resp) st)
        as [st' [|]]; cbn; intros c [<- | []]; eexists; (split; [reflexivity |]);
        apply Hnode; reflexivity.
    + cbn. intros c [].
  - destruct (negb (String.eqb sp "default")).
    + destruct (updateAutoTemplateInDatabase (nodeTemplateOf selectedNode trs resp) st)
        as [st' [|]]; cbn; [intros _; exact Happlied | discriminate].
    + cbn. intros _. exact Happlied.
  - unfold updatedTemplateOf, activeOf. cbn [active]. rewrite Hoff. reflexivity.
Qed.

End EditingFacts.

Lemma updating_a_template_replaces_it_in_place_witness :
  getCurrentTemplates
    (edited_registry
       (next (updateAutoTemplate nat acceptingUpdate (mkTemplate "7" ["oi"] "Oi!" false)
                0%nat sampleRegistry)))
  = [mkTemplate "7" ["oi"] "Oi!" false].
Proof.
  destruct (updating_a_template_replaces_it_in_place nat acceptingUpdate
              (mkTemplate "7" ["oi"] "Oi!" false) 0%nat sampleRegistry) as (Hok & _ & _).
  - right. exists (mkProject "4" [persistedOi]).
    split; [right; left; reflexivity | reflexivity].
  - apply Hok. reflexivity.
Defined.

Lemma editor_save_ignores_the_active_switch_witness :
  Forall (fun t => tpl_id t = "7" -> active t = true)
    (getCurrentTemplates
       (edited_registry
          (saved (next (saveNodeEdits nat acceptingUpdate switchedOffNode 0%nat
                          sampleRegistry))))).
Proof.
  destruct (editor_save_ignores_the_active_switch nat acceptingUpdate switchedOffNode 0%nat
              sampleRegistry ["oi"; "olá"] "Olá!" persistedOi)
    as (_ & Hlocal & _); try reflexivity; [discriminate |].
  apply Forall_forall. intros t Ht Hid. apply list_elem_of_In in Ht.
  apply (Hlocal eq_refl) in Ht.
  - destruct Ht as [Hact _]. exact Hact.
  - right. exists (mkProject "4" [persistedOi]).
    split; [right; left; reflexivity | reflexivity].
  - exact Hid.
Defined.

(** * The trigger field of the node editor *)

Section TriggerField.

#[local] Abbreviation noComma s := (Js.includes s "," = false).

Lemma includes_comma_cons (c : ascii) (r : string) :
  Js.includes (String c r) "," = Ascii.eqb "," c || Js.includes r ",".
Proof. cbn [Js.includes Js.startsWith]. rewrite andb_true_r. reflexivity. Qed.

Lemma noComma_cons (c : ascii) (r : string) :
  noComma (String c r) <-> Ascii.eqb c "," = false /\ noComma r.
Proof.
  rewrite includes_comma_cons, orb_false_iff, (Ascii.eqb_sym "," c). reflexivity.
Qed.

Lemma noComma_app (a b : string) : noComma (a +:+ b) <-> noComma a /\ noComma b.
Proof.
  induction a as [|c a IH].
  - change ("" +:+ b) with b. split; [intros H; split; [reflexivity | exact H] | tauto].
  - change (String c a +:+ b) with (String c (a +:+ b)).
    rewrite !noComma_cons, IH. tauto.
Qed.

(** *** White space at the two ends *)

Lemma app_String (c : ascii) (a b : string) : String c a +:+ b = String c (a +:+ b).
Proof. reflexivity. Qed.

Lemma whiteSpaceBytes_length (s : string) : Js.whiteSpaceBytes s <= String.length s.
Proof.
  destruct s as [|a [|b [|c r]]]; simpl;
    repeat match goal with |- context [if ?t then _ else _] => destruct t end; lia.
Qed.

(** Whether a text starts with white space is settled by the bytes of its
    first code point. *)
Lemma whiteSpaceBytes_app (p b : string) (k : nat) :
  Js.whiteSpaceBytes p = S k -> Js.whiteSpaceBytes (p +:+ b) = S k.
Proof.
  destruct p as [|x [|y [|z r]]]; simpl;
    repeat match goal with |- context [if ?t then _ else _] => destruct t end;
    try discriminate; auto.
Qed.

Lemma dropChars_length (n : nat) (s : string) :
  String.length (Js.dropChars n s) = String.length s - n.
Proof.
  revert s. induction n as [|n IH]; intros s; simpl; [lia |].
  destruct s as [|c r]; simpl; [reflexivity | apply IH].
Qed.

Lemma dropChars_app_le (n : nat) (p b : string) :
  n <= String.length p -> Js.dropChars n (p +:+ b) = Js.dropChars n p +:+ b.
Proof.
  revert p. induction n as [|n IH]; intros p Hn; [reflexivity |].
  destruct p as [|c r]; simpl in *; [lia |]. apply IH. lia.
Qed.

Lemma dropChars_suffix (n : nat) (s : string) : exists a, s = a +:+ Js.dropChars n s.
Proof.
  revert s. induction n as [|n IH]; intros s; [exists ""; reflexivity |].
  destruct s as [|c r]; [exists ""; reflexivity |].
  destruct (IH r) as [a Ha]. exists (String c a).
  rewrite app_String. cbn [Js.dropChars]. f_equal. exact Ha.
Qed.

Lemma trimStartFrom_drop (k : nat) (s : string) :
  Js.trimStartFrom k s = Js.trimStartFrom 0 (Js.dropChars k s).
Proof.
  revert s. induction k as [|k IH]; intros s; [reflexivity |].
  destruct s as [|c r]; [reflexivity |]. simpl. apply IH.
Qed.

(** One step of [trimStart]: a white-space code point at the head is
    dropped, anything else ends the scan. *)
Lemma trimStart_unfold (s : string) :
  Js.trimStart s
  = match Js.whiteSpaceBytes s with
    | O => s
    | S k => Js.trimStart (Js.dropChars (S k) s)
    end.
Proof.
  unfold Js.trimStart. destruct s as [|c r]; [reflexivity |].
  cbn [Js.trimStartFrom]. destruct (Js.whiteSpaceBytes (String c r)) as [|k]; [reflexivity |].
  rewrite trimStartFrom_drop. reflexivity.
Qed.

Lemma by_length (P : string -> Prop) :
  (forall s, (forall t, String.length t < String.length s -> P t) -> P s) ->
  forall s, P s.
Proof.
  intros Hstep s. remember (String.length s) as n eqn:Hn.
  revert s Hn. induction n as [n IH] using lt_wf_ind. intros s ->.
  apply Hstep. intros t Ht. apply (IH (String.length t) Ht t eq_refl).
Qed.

Lemma dropped_shorter (s : string) (k : nat) :
  Js.whiteSpaceBytes s = S k ->
  String.length (Js.dropChars (S k) s) < String.length s.
Proof.
  intros Hw. pose proof (whiteSpaceBytes_length s) as Hlen.
  rewrite dropChars_length. lia.
Qed.

(** What [trimStart] returns starts with no white space: the scan does
    not stop early. *)
Lemma trimStart_startsClean (s : string) : Js.whiteSpaceBytes (Js.trimStart s) = 0.
Proof.
  induction s as [s IH] using by_length. rewrite trimStart_unfold.
  destruct (Js.whiteSpaceBytes s) as [|k] eqn:Hw; [exact Hw |].
  apply IH, dropped_shorter, Hw.
Qed.

Lemma trimStart_clean (s : string) : Js.whiteSpaceBytes s = 0 -> Js.trimStart s = s.
Proof. intros Hw. rewrite trimStart_unfold, Hw. reflexivity. Qed.

Lemma trimStart_suffix (s : string) : exists a, s = a +:+ Js.trimStart s.
Proof.
  induction s as [s IH] using by_length. rewrite trimStart_unfold.
  destruct (Js.whiteSpaceBytes s) as [|k] eqn:Hw; [exists ""; reflexivity |].
  destruct (IH _ (dropped_shorter s k Hw)) as [a Ha].
  destruct (dropChars_suffix (S k) s) as [a' Ha'].
  exists (a' +:+ a). rewrite Ha' at 1. rewrite Ha at 1.
  clear. induction a' as [|c a' IHa]; [reflexivity |].
  rewrite !app_String, IHa. reflexivity.
Qed.

Lemma isBlank_spec (s : string) : Js.isBlank s = true <-> Js.trimStart s = "".
Proof. unfold Js.isBlank. apply String.eqb_eq. Qed.

(** White space in front of a text is passed over. *)
Lemma trimStart_blank_app (a b : string) :
  Js.isBlank a = true -> Js.trimStart (a +:+ b) = Js.trimStart b.
Proof.
  induction a as [a IH] using by_length. intros Hblank. apply isBlank_spec in Hblank.
  rewrite trimStart_unfold in Hblank.
  destruct (Js.whiteSpaceBytes a) as [|k] eqn:Hw.
  - subst a. reflexivity.
  - rewrite (trimStart_unfold (a +:+ b)), (whiteSpaceBytes_app a b k Hw).
    rewrite dropChars_app_le by (rewrite <- Hw; apply whiteSpaceBytes_length).
    apply IH; [apply dropped_shorter, Hw | apply isBlank_spec, Hblank].
Qed.

(** [trimEnd] keeps a prefix and drops nothing but white space. *)
Lemma trimEnd_prefix (s : string) :
  exists b, s = Js.trimEnd s +:+ b /\ Js.isBlank b = true.
Proof.
  induction s as [|c r (b & Hb & Hblank)]; [exists ""; split; reflexivity |].
  cbn [Js.trimEnd]. destruct (Js.isBlank (String c r)) eqn:Hs.
  - exists (String c r). split; [reflexivity | exact Hs].
  - exists b. split; [| exact Hblank]. rewrite app_String, <- Hb. reflexivity.
Qed.

Lemma trimEnd_startsClean (s : string) :
  Js.whiteSpaceBytes s = 0 -> Js.whiteSpaceBytes (Js.trimEnd s) = 0.
Proof.
  intros Hw. destruct (trimEnd_prefix s) as (b & Hb & _).
  destruct (Js.whiteSpaceBytes (Js.trimEnd s)) as [|k] eqn:Hk; [reflexivity |].
  apply (whiteSpaceBytes_app _ b) in Hk. rewrite <- Hb in Hk. congruence.
Qed.

Lemma trimEnd_idem (s : string) : Js.trimEnd (Js.trimEnd s) = Js.trimEnd s.
Proof.
  induction s as [|c r IH]; [reflexivity |].
  cbn [Js.trimEnd]. destruct (Js.isBlank (String c r)) eqn:Hs; [reflexivity |].
  cbn [Js.trimEnd].
  destruct (Js.isBlank (String c (Js.trimEnd r))) eqn:Hkept.
  - exfalso. destruct (trimEnd_prefix r) as (b & Hb & Hblank).
    assert (Hall : Js.isBlank (String c r) = true).
    { apply isBlank_spec. rewrite Hb at 1. rewrite <- app_String.
      rewrite (trimStart_blank_app _ b Hkept). apply isBlank_spec, Hblank. }
    congruence.
  - rewrite IH. reflexivity.
Qed.

Lemma trim_idem (s : string) : Js.trim (Js.trim s) = Js.trim s.
Proof.
  unfold Js.trim.
  rewrite (trimStart_clean (Js.trimEnd (Js.trimStart s))).
  - apply trimEnd_idem.
  - apply trimEnd_startsClean, trimStart_startsClean.
Qed.

Lemma trimStart_noComma (s : string) : noComma s -> noComma (Js.trimStart s).
Proof.
  intros H. destruct (trimStart_suffix s) as [a Ha]. rewrite Ha in H.
  apply noComma_app in H as [_ H]. exact H.
Qed.

Lemma trimEnd_noComma (s : string) : noComma s -> noComma (Js.trimEnd s).
Proof.
  intros H. destruct (trimEnd_prefix s) as (b & Hb & _). rewrite Hb in H.
  apply noComma_app in H as [H _]. exact H.
Qed.

Lemma trim_noComma (s : string) : noComma s -> noComma (Js.trim s).
Proof. intros H. apply trimEnd_noComma, trimStart_noComma, H. Qed.

Lemma trim_space (s : string) : Js.trim (String " " s) = Js.trim s.
Proof. reflexivity. Qed.

Lemma splitComma_noComma (s : string) :
  noComma (fst (splitComma s)) /\ Forall (fun p => noComma p) (snd (splitComma s)).
Proof.
  induction s as [|c r [IHp IHps]]; [split; [reflexivity | constructor] |].
  cbn [splitComma]. destruct (splitComma r) as [p ps]. simpl in IHp, IHps.
  destruct (Ascii.eqb c ",") eqn:Hc; simpl.
  - split; [reflexivity | constructor; assumption].
  - split; [apply noComma_cons; auto | exact IHps].
Qed.

Lemma split_noComma (t : string) : noComma t -> split t = [t].
Proof.
  unfold split. induction t as [|c r IH]; [reflexivity |].
  intros H. apply noComma_cons in H as [Hc Hr]. specialize (IH Hr).
  cbn [splitComma]. destruct (splitComma r) as [p ps]. rewrite Hc.
  injection IH as -> ->. reflexivity.
Qed.

Lemma split_comma (t rest : string) :
  noComma t -> split (t +:+ String "," rest) = t :: split rest.
Proof.
  unfold split. induction t as [|c r IH]; intros H.
  - change ("" +:+ String "," rest) with (String "," rest). cbn [splitComma].
    destruct (splitComma rest) as [p ps]. reflexivity.
  - apply noComma_cons in H as [Hc Hr]. specialize (IH Hr).
    change (String c r +:+ String "," rest) with (String c (r +:+ String "," rest)).
    cbn [splitComma]. destruct (splitComma (r +:+ String "," rest)) as [p ps].
    rewrite Hc. destruct (splitComma rest) as [p' ps']. injection IH as -> ->. reflexivity.
Qed.

Lemma typedTriggers_space (s : string) : typedTriggers (String " " s) = typedTriggers s.
Proof.
  unfold typedTriggers, split. cbn [splitComma]. destruct (splitComma s) as [p ps].
  change (Ascii.eqb " " ",") with false. cbn iota.
  rewrite !fmap_cons, trim_space. reflexivity.
Qed.

Lemma typedTriggers_comma (t rest : string) :
  CleanTrigger t -> typedTriggers (t +:+ String "," rest) = t :: typedTriggers rest.
Proof.
  intros (Hne & Htrim & Hcomma). unfold typedTriggers. rewrite (split_comma t rest Hcomma).
  rewrite fmap_cons, Htrim. cbn [List.filter].
  apply truthy_spec in Hne. rewrite Hne. reflexivity.
Qed.

Lemma typedTriggers_join (trs : list string) :
  Forall CleanTrigger trs -> typedTriggers (triggersFieldValue trs) = trs.
Proof.
  unfold triggersFieldValue. induction 1 as [|x rest Hx Hrest IH]; [reflexivity |].
  destruct rest as [|y rest].
  - destruct Hx as (Hne & Htrim & Hcomma). cbn [join]. unfold typedTriggers.
    rewrite (split_noComma x Hcomma). cbn [fmap list_fmap]. rewrite Htrim. cbn [List.filter].
    apply truthy_spec in Hne. rewrite Hne. reflexivity.
  - change (join ", " (x :: y :: rest))
      with (x +:+ String "," (String " " (join ", " (y :: rest)))).
    rewrite (typedTriggers_comma x _ Hx), typedTriggers_space, IH. reflexivity.
Qed.

Lemma typedTriggers_clean (value : string) : Forall CleanTrigger (typedTriggers value).
Proof.
  unfold typedTriggers. apply Forall_forall. intros t Ht.
  apply list_elem_of_In, List.filter_In in Ht as [Ht Htruthy].
  apply list_elem_of_In, list_elem_of_fmap in Ht as (p & -> & Hp).
  split; [apply truthy_spec; exact Htruthy |]. split; [apply trim_idem |].
  apply trim_noComma. unfold split in Hp. destruct (splitComma_noComma value) as [H1 H2].
  destruct (splitComma value) as [q qs]. simpl in H1, H2.
  apply list_elem_of_In in Hp. destruct Hp as [<- | Hp]; [exact H1 |].
  rewrite Forall_forall in H2. apply H2, list_elem_of_In, Hp.
Qed.

(** X29.  Whatever is typed into the trigger field, the triggers read from
    it are clean: none is empty, none has a blank at either end and none
    holds a comma. *)
Theorem typed_triggers_are_clean (value : string) :
  Forall CleanTrigger (typedTriggers value).
Proof. apply typedTriggers_clean. Qed.

(** X30.  The trigger field gives a trigger list back as it was shown
    exactly when every trigger of the list is clean; so the empty trigger
    of a node fresh from the palette, or a trigger holding a comma, does
    not survive an edit of the field. *)
Theorem trigger_field_round_trip (trs : list string) :
  typedTriggers (triggersFieldValue trs) = trs <-> Forall CleanTrigger trs.
Proof.
  split.
  - intros H. rewrite <- H. apply typedTriggers_clean.
  - apply typedTriggers_join.
Qed.

End TriggerField.
